(** * okanjo-app-broker: a shallow embedding of OkanjoBroker and OkanjoWorker

    The broker (OkanjoBroker.js) supervises a pool of cluster workers of one
    type; the worker runtime (OkanjoWorker.js, the version with
    [unbindProcessSignals]) is its counterpart inside each forked process.

    The broker's logic is single-threaded callback code.  Every observer
    and every method is embedded as a function that takes the broker
    object and the environment it shares with the rest of the process
    (the application object, Node's cluster module, the timer queue) and
    returns both as the call leaves them.  [Loop] puts the callbacks into
    an event loop whose turns are the things that can happen to a broker.
    Node's cluster module is not part of the repository: [Env] models the
    part of its documented behaviour the broker relies on. *)

From Stdlib Require Import List ZArith Lia Bool String Ascii Permutation.
From Stdlib Require Import DecimalString DecimalNat.
Import ListNotations.
Set Warnings "-register-all".
Open Scope string_scope.
Open Scope list_scope.
Open Scope Z_scope.

(** ** The JavaScript primitives the sources rely on *)

Module Js.

(** [n + ""] for a non-negative integer [n]: its decimal numeral. *)
Definition to_string (n : nat) : string :=
  NilEmpty.string_of_uint (Nat.to_uint n).

(** [Array.prototype.indexOf] on an array of strings: the first index
    holding a strictly equal element, [-1] when there is none. *)
Fixpoint indexOf (l : list string) (x : string) : Z :=
  match l with
  | [] => -1
  | y :: l' =>
      if String.eqb y x then 0
      else let k := indexOf l' x in
           if k <? 0 then -1 else k + 1
  end.

(** [Array.prototype.splice(start, deleteCount)] with no inserted items,
    as ECMAScript defines it: a negative [start] counts from the end
    (clamped at 0), a [start] beyond the end is clamped to the length, and
    the delete count is clamped to what remains.  The result is the array
    as the call leaves it. *)
Definition splice {A : Type} (l : list A) (start deleteCount : Z) : list A :=
  let len := Z.of_nat (List.length l) in
  let actualStart :=
    if start <? 0 then Z.max (len + start) 0 else Z.min start len in
  let actualDeleteCount :=
    Z.min (Z.max deleteCount 0) (len - actualStart) in
  firstn (Z.to_nat actualStart) l
    ++ skipn (Z.to_nat (actualStart + actualDeleteCount)) l.

(** [Array.prototype.push] of one element. *)
Definition push {A : Type} (l : list A) (x : A) : list A := l ++ [x].

(** JSON-serialisable values: what crosses the process channel. *)
Inductive value : Type :=
| Null
| Bool (b : bool)
| Num (n : Z)
| Str (s : string)
| Arr (items : list value)
| Obj (fields : list (string * value)).

(** The [typeof] operator. *)
Definition typeof (v : value) : string :=
  match v with
  | Null => "object"
  | Bool _ => "boolean"
  | Num _ => "number"
  | Str _ => "string"
  | Arr _ => "object"
  | Obj _ => "object"
  end.

(** Reading a named field of an object literal; [None] is [undefined].
    A later duplicate key wins, as in [JSON.parse]. *)
Fixpoint field (fs : list (string * value)) (k : string) : option value :=
  match fs with
  | [] => None
  | (k', v) :: fs' =>
      match field fs' k with
      | Some v' => Some v'
      | None => if String.eqb k' k then Some v else None
      end
  end.

(** Outcome of evaluating JavaScript that may throw. *)
Inductive completion (A : Type) : Type :=
| Normal (a : A)
| Throw (error : string).
Arguments Normal {A} a.
Arguments Throw {A} error.

(** [v.type]: [undefined] on primitives, arrays and objects without the
    field; a TypeError on [null]. *)
Definition get_type (v : value) : completion (option value) :=
  match v with
  | Null => Throw "TypeError"
  | Obj fs => Normal (field fs "type")
  | _ => Normal None
  end.

(** [x === "ops"] for an optional ([undefined]-able) value. *)
Definition is_str (s : string) (v : option value) : bool :=
  match v with
  | Some (Str s') => String.eqb s' s
  | _ => false
  end.

End Js.

(** ** The environment a broker runs in

    Everything the broker reaches through a reference: the application
    object, Node's [cluster] module (the clustering facility), the timer
    queue of the event loop, and a chronological trace of the calls made on
    those collaborators and of the events brokers emit. *)

Module Env.

(** The [OkanjoApp] object, as far as the broker reads it.
    [constructor_name] is [Object.getPrototypeOf(app).constructor.name];
    an application object has a prototype with a named constructor. *)
Record App : Type := mkApp {
  constructor_name : string;
  gracefulShutdown : bool;
  currentEnvironment : string
}.

(** A cluster worker object in the primary process.  [worker_type] and
    [env_name] are the environment handed to [Cluster.fork];
    [exitedAfterDisconnect] is [None] while it is [undefined];
    [_disconnectTimer] is the property [_bounceWorker] adds; [listed]
    says whether [worker.disconnect()] has not yet deleted the worker's
    entry from [Cluster.workers]. *)
Record Worker : Type := mkWorker {
  id : nat;
  worker_type : string;
  env_name : string;
  exitedAfterDisconnect : option bool;
  _disconnectTimer : option nat;
  connected : bool;
  dead : bool;
  listed : bool
}.

(** [cluster]: the id counter and every worker object created so far, in
    creation order. *)
Record Cluster : Type := mkCluster {
  ids : nat;
  objects : list Worker
}.

(** The closures the broker hands to [setTimeout] and [setInterval]. *)
Inductive callback : Type :=
| DisconnectDeadline (worker : nat)   (* armed by [_bounceWorker] *)
| DisconnectFollowup (worker : nat)   (* armed by the disconnect observer *)
| RecycleTick (broker : string).      (* armed by [_init] *)

Record Timer : Type := mkTimer {
  handle : nat;
  due : Z;
  period : option Z;
  closure : callback
}.

(** Payloads of the four broker events. *)
Inductive event : Type :=
| worker_ended (id : string) (code : option Z) (signal : option string) (worker : nat)
| worker_death (id : string) (code : option Z) (signal : option string) (worker : nat)
| worker_ops (msg : Js.value) (worker : nat)
| worker_message (msg : Js.value) (worker : nat).

(** Calls on collaborators, in the order they happen. *)
Inductive effect : Type :=
| Forked (worker : nat) (worker_type env_name : string)
| Sent (worker : nat) (msg : string)
| Disconnect (worker : nat)
| Kill (worker : nat)
| Report (what : string) (worker_id : option string)
| Emit (broker : string) (e : event).

Record t : Type := mk {
  app : App;
  cluster : Cluster;
  timers : list Timer;
  next_handle : nat;
  now : Z;
  trace : list effect
}.

Definition set_app (a : App) (e : t) : t :=
  mk a (cluster e) (timers e) (next_handle e) (now e) (trace e).

Definition set_cluster (c : Cluster) (e : t) : t :=
  mk (app e) c (timers e) (next_handle e) (now e) (trace e).

Definition set_timers (ts : list Timer) (e : t) : t :=
  mk (app e) (cluster e) ts (next_handle e) (now e) (trace e).

Definition set_now (n : Z) (e : t) : t :=
  mk (app e) (cluster e) (timers e) (next_handle e) n (trace e).

Definition log (x : effect) (e : t) : t :=
  mk (app e) (cluster e) (timers e) (next_handle e) (now e) (trace e ++ [x]).

(** *** The clustering facility, as Node's primary process has it *)

(** A worker is in [Cluster.workers] from its fork until the primary
    calls [disconnect()] on it, or until it has both disconnected and
    exited, whichever comes first. *)
Definition registered (w : Worker) : bool :=
  listed w && (negb (dead w) || connected w).

(** [Cluster.workers], in key order (ids are handed out increasingly). *)
Definition workers (e : t) : list Worker :=
  filter registered (objects (cluster e)).

(** The keys [for (let id in Cluster.workers)] enumerates. *)
Definition worker_keys (e : t) : list string :=
  map (fun w => Js.to_string (id w)) (workers e).

(** [Cluster.workers[key]]; [None] is [undefined]. *)
Definition lookup (key : string) (e : t) : option Worker :=
  find (fun w => String.eqb (Js.to_string (id w)) key) (workers e).

(** The worker object a closure holds, found by its numeric id. *)
Definition object (wid : nat) (e : t) : option Worker :=
  find (fun w => Nat.eqb (id w) wid) (objects (cluster e)).

(** Assignment to the fields of the worker object with id [wid]. *)
Fixpoint update (wid : nat) (f : Worker -> Worker) (ws : list Worker) : list Worker :=
  match ws with
  | [] => []
  | w :: ws' => if Nat.eqb (id w) wid then f w :: ws' else w :: update wid f ws'
  end.

Definition modify (wid : nat) (f : Worker -> Worker) (e : t) : t :=
  set_cluster (mkCluster (ids (cluster e)) (update wid f (objects (cluster e)))) e.

(** [Cluster.fork(env)]: the next id, a connected live worker. *)
Definition fork (ty envn : string) (e : t) : Worker * t :=
  let c := cluster e in
  let w := mkWorker (S (ids c)) ty envn None None true false true in
  (w, log (Forked (id w) ty envn)
        (set_cluster (mkCluster (S (ids c)) (objects c ++ [w])) e)).

(** [worker.send(msg)]. *)
Definition send (wid : nat) (msg : string) (e : t) : t :=
  log (Sent wid msg) e.

(** [worker.disconnect()] in the primary: sets [exitedAfterDisconnect],
    asks the worker to close its channel and deletes the worker from
    [Cluster.workers] at once; the object lives on in the closures that
    hold it. *)
Definition disconnect (wid : nat) (e : t) : t :=
  log (Disconnect wid)
    (modify wid (fun w => mkWorker (id w) (worker_type w) (env_name w)
                            (Some true) (_disconnectTimer w)
                            (connected w) (dead w) false) e).

(** [worker.kill()]. *)
Definition kill (wid : nat) (e : t) : t :=
  log (Kill wid) e.

(** [worker.isDead()] on the object a closure holds. *)
Definition isDead (wid : nat) (e : t) : bool :=
  match object wid e with
  | Some w => dead w
  | None => true
  end.

(** *** Timers *)

(** The longest delay a timer takes, [2^31 - 1] ms. *)
Definition TIMEOUT_MAX : Z := 2147483647.

(** The delay a timer is armed with: one below 1 or above
    [TIMEOUT_MAX] is set to 1. *)
Definition armed_delay (delay : Z) : Z :=
  if (1 <=? delay) && (delay <=? TIMEOUT_MAX) then delay else 1.

Definition setTimeout (cb : callback) (delay : Z) (e : t) : nat * t :=
  let h := next_handle e in
  (h, mk (app e) (cluster e)
         (timers e ++ [mkTimer h (now e + armed_delay delay) None cb])
         (S h) (now e) (trace e)).

Definition setInterval (cb : callback) (delay : Z) (e : t) : nat * t :=
  let h := next_handle e in
  (h, mk (app e) (cluster e)
         (timers e
          ++ [mkTimer h (now e + armed_delay delay) (Some (armed_delay delay)) cb])
         (S h) (now e) (trace e)).

Definition clearTimeout (h : nat) (e : t) : t :=
  set_timers (filter (fun tm => negb (Nat.eqb (handle tm) h)) (timers e)) e.

Definition pending (h : nat) (e : t) : option Timer :=
  find (fun tm => Nat.eqb (handle tm) h) (timers e).

(** [app.report(...)]: the application's diagnostics channel. *)
Definition report (what : string) (worker_id : option string) (e : t) : t :=
  log (Report what worker_id) e.

(** [this.emit(name, ...)] on the broker of type [broker]. *)
Definition emit (broker : string) (ev : event) (e : t) : t :=
  log (Emit broker ev) e.

End Env.

(** ** OkanjoBroker *)

Module OkanjoBroker.
Import Env.

(** The constructor's [options] argument; [None] is an absent field. *)
Record Options : Type := mkOptions {
  opt_workerCount : option Z;
  opt_recycleRate : option Z;
  opt_debug : option bool
}.

(** The broker object.  [_workerIds] is the array [this._workerIds[this.type]]:
    the object [this._workerIds] only ever has that one key, which [_init]
    creates before anything reads it.  [_log] only writes to stderr when
    [debug] is set and is left out of the methods below. *)
Record t : Type := mk {
  type : string;
  workerCount : Z;
  recycleRate : Z;
  debug : bool;
  drainOpen : bool;
  _workerIds : list string
}.

Definition set_workerIds (l : list string) (b : t) : t :=
  mk (type b) (workerCount b) (recycleRate b) (debug b) (drainOpen b) l.

Definition set_drainOpen (d : bool) (b : t) : t :=
  mk (type b) (workerCount b) (recycleRate b) (debug b) d (_workerIds b).

Definition state : Type := (t * Env.t)%type.

(** Running [body] [n] times: a counting [for] loop whose body does not
    touch the counter. *)
Fixpoint repeat_call (n : nat) (body : t -> Env.t -> state) (b : t) (e : Env.t) : state :=
  match n with
  | O => (b, e)
  | S n' => let '(b1, e1) := body b e in repeat_call n' body b1 e1
  end.

(** The directive [_bounceWorker] sends. *)
Definition directive : string := "suicide".

(** Delay of the force-kill timer in [_bounceWorker] and of the follow-up
    in the disconnect observer, in milliseconds. *)
Definition disconnect_timeout : Z := 2000.
Definition followup_timeout : Z := 1000.

(** [_spawnWorker()]: fork, record the id.  The four observers it wires
    on the new worker are [on_exit], [on_disconnect], [on_message] below
    (the error observer only reports). *)
Definition _spawnWorker (b : t) (e : Env.t) : state :=
  let '(worker, e1) := fork (type b) (currentEnvironment (app e)) e in
  (set_workerIds (Js.push (_workerIds b) (Js.to_string (id worker))) b, e1).

(** The exit observer of [worker], called with the exit code and signal. *)
Definition on_exit (worker : Worker) (code : option Z) (signal : option string)
           (b : t) (e : Env.t) : state :=
  let wid := Js.to_string (id worker) in
  let b1 := set_workerIds
              (Js.splice (_workerIds b) (Js.indexOf (_workerIds b) wid) 1) b in
  if negb (gracefulShutdown (app e)) && negb (drainOpen b1) then
    let e1 :=
      match exitedAfterDisconnect worker with
      | Some true =>
          emit (type b1) (worker_ended wid code signal (id worker)) e
      | _ =>
          emit (type b1) (worker_death wid code signal (id worker))
            (report (type b1 ++ " worker id=" ++ wid ++ " died!")%string (Some wid) e)
      end in
    _spawnWorker b1 e1
  else
    (b1, emit (type b1) (worker_ended wid code signal (id worker)) e).

(** The error observer. *)
Definition on_error (b : t) (e : Env.t) : state :=
  (b, report (type b ++ ": Worker error!")%string None e).

(** The disconnect observer of [worker]. *)
Definition on_disconnect (worker : Worker) (b : t) (e : Env.t) : state :=
  let e1 :=
    match _disconnectTimer worker with
    | Some h => clearTimeout h e
    | None => e
    end in
  (b, snd (setTimeout (DisconnectFollowup (id worker)) followup_timeout e1)).

(** The message observer of [worker]. *)
Definition on_message (worker : Worker) (msg : Js.value) (b : t) (e : Env.t)
  : Js.completion state :=
  if String.eqb (Js.typeof msg) "object" then
    match Js.get_type msg with
    | Js.Throw err => Js.Throw err
    | Js.Normal ty =>
        if Js.is_str "ops" ty
        then Js.Normal (b, emit (type b) (worker_ops msg (id worker)) e)
        else Js.Normal (b, emit (type b) (worker_message msg (id worker)) e)
    end
  else Js.Normal (b, emit (type b) (worker_message msg (id worker)) e).

(** [_bounceWorker(id)].  Reading [.id] of a key that is not in the
    registry throws, which the [catch] turns into a report. *)
Definition _bounceWorker (key : string) (b : t) (e : Env.t) : state :=
  match lookup key e with
  | None =>
      (b, report "Could not bounce worker gracefully, probably a race?" None e)
  | Some worker =>
      let e1 := send (id worker) directive e in
      let '(h, e2) := setTimeout (DisconnectDeadline (id worker)) disconnect_timeout e1 in
      let e3 := modify (id worker)
                  (fun w => mkWorker (id w) (worker_type w) (env_name w)
                              (exitedAfterDisconnect w) (Some h)
                              (connected w) (dead w) (listed w)) e2 in
      (b, disconnect (id worker) e3)
  end.

(** The [for ... in] loop of [recycleWorkers] over the keys of the
    registry.  Every key it enumerates is an own property of the registry,
    so the [hasOwnProperty] test is always true; the other branch only
    logs. *)
Fixpoint recycle_keys (keys : list string) (b : t) (e : Env.t) : state :=
  match keys with
  | [] => (b, e)
  | key :: keys' =>
      let '(b1, e1) :=
        if 0 <=? Js.indexOf (_workerIds b) key
        then _bounceWorker key b e
        else (b, e) in
      recycle_keys keys' b1 e1
  end.

(** [recycleWorkers()]. *)
Definition recycleWorkers (b : t) (e : Env.t) : state :=
  recycle_keys (worker_keys e) b e.

(** [drainWorkers()]. *)
Definition drainWorkers (b : t) (e : Env.t) : state :=
  recycleWorkers (set_drainOpen true b) e.

(** [resumeWorkers()]: the loop runs from the current length up to
    [workerCount]. *)
Definition resumeWorkers (b : t) (e : Env.t) : state :=
  let b1 := set_drainOpen false b in
  repeat_call (Z.to_nat (workerCount b1 - Z.of_nat (List.length (_workerIds b1))))
    _spawnWorker b1 e.

(** [_init()]. *)
Definition _init (b : t) (e : Env.t) : state :=
  let b1 := set_workerIds [] b in
  let '(b2, e2) := repeat_call (Z.to_nat (workerCount b1)) _spawnWorker b1 e in
  if 0 <? recycleRate b2
  then (b2, snd (setInterval (RecycleTick (type b2)) (recycleRate b2) e2))
  else (b2, e2).

(** [new OkanjoBroker(app, type, options)].  [has_app] tells whether the
    first argument is the application object of the environment or is
    missing, in which case the guard reads the constructor of [{}].  An
    argument without a prototype or without a constructor, on which the
    guard's own property read throws a TypeError, is not covered. *)
Definition new (has_app : bool) (ty : string) (options : option Options)
           (e : Env.t) : Js.completion state :=
  let name := if has_app then constructor_name (app e) else "Object" in
  if negb (String.eqb name "OkanjoApp") then
    Js.Throw ("You need to provide the current app context when making a broker. Got: "
                ++ name)%string
  else
    let options :=
      match options with Some o => o | None => mkOptions None None None end in
    let b := mk ty
               (match opt_workerCount options with None => 1 | Some n => n end)
               (match opt_recycleRate options with
                | None => 0 | Some r => if r =? 0 then 0 else r end)
               (match opt_debug options with Some d => d | None => false end)
               false [] in
    Js.Normal (_init b e).

End OkanjoBroker.

(** ** The event loop around one broker

    What the process does between two returns to the event loop, seen from
    one broker [b]: the facility reports an exit, a disconnect or a message
    of some worker, a timer comes due, the application calls a public
    method or flips its shutdown flag, or another broker of the same
    process forks a worker of its own type.  Observers of a worker run on
    the broker that forked it, which is the one whose [type] the worker
    carries. *)

Module Loop.
Import Env OkanjoBroker.

Inductive action : Type :=
| Exit (wid : nat) (code : option Z) (signal : option string)
| Disconnected (wid : nat)
| Message (wid : nat) (msg : Js.value)
| Fire (h : nat)
| Advance (dt : Z)
| Recycle
| Drain
| Resume
| AppShutdown (flag : bool)
| ForeignFork (ty : string).

(** Node normalises the flag to a boolean when the process exits or
    disconnects: [!!worker.exitedAfterDisconnect]. *)
Definition truthy (x : option bool) : option bool :=
  match x with Some true => Some true | _ => Some false end.

Definition mark_dead (w : Worker) : Worker :=
  mkWorker (id w) (worker_type w) (env_name w)
    (truthy (exitedAfterDisconnect w)) (_disconnectTimer w) (connected w) true
    (listed w).

Definition mark_disconnected (w : Worker) : Worker :=
  mkWorker (id w) (worker_type w) (env_name w)
    (truthy (exitedAfterDisconnect w)) (_disconnectTimer w) false (dead w)
    (listed w).

Definition owns (b : OkanjoBroker.t) (w : Worker) : bool :=
  String.eqb (worker_type w) (type b).

(** The closure of a timer, run on broker [b]. *)
Definition run_callback (cb : callback) (b : OkanjoBroker.t) (e : Env.t) : state :=
  match cb with
  | DisconnectDeadline wid => (b, kill wid e)
  | DisconnectFollowup wid =>
      if negb (isDead wid e) then (b, kill wid e) else (b, e)
  | RecycleTick ty =>
      if String.eqb ty (type b) then recycleWorkers b e else (b, e)
  end.

(** A due timer leaves the queue (a one-shot) or is re-armed (an
    interval) and its closure runs. *)
Definition fire (h : nat) (b : OkanjoBroker.t) (e : Env.t) : option state :=
  match pending h e with
  | None => None
  | Some tm =>
      if due tm <=? now e then
        let e1 := clearTimeout h e in
        let e2 :=
          match period tm with
          | None => e1
          | Some p =>
              set_timers (timers e1 ++ [mkTimer h (now e + p) (Some p) (closure tm)]) e1
          end in
        Some (run_callback (closure tm) b e2)
      else None
  end.

(** One turn of the event loop; [None] when the action cannot happen in
    this state (a process exits once, a channel closes once, a timer
    fires only when due, time does not run backwards).  A message
    observer that throws has done nothing before it throws. *)
Definition step (a : action) (s : state) : option state :=
  let '(b, e) := s in
  match a with
  | Exit wid code signal =>
      match object wid e with
      | Some w =>
          if dead w then None
          else
            let e1 := modify wid mark_dead e in
            if owns b w then Some (on_exit (mark_dead w) code signal b e1)
            else Some (b, e1)
      | None => None
      end
  | Disconnected wid =>
      match object wid e with
      | Some w =>
          if connected w then
            let e1 := modify wid mark_disconnected e in
            if owns b w then Some (on_disconnect (mark_disconnected w) b e1)
            else Some (b, e1)
          else None
      | None => None
      end
  | Message wid msg =>
      match object wid e with
      | Some w =>
          if connected w && owns b w then
            match on_message w msg b e with
            | Js.Normal s' => Some s'
            | Js.Throw _ => Some (b, e)
            end
          else None
      | None => None
      end
  | Fire h => fire h b e
  | Advance dt => if 0 <=? dt then Some (b, set_now (now e + dt) e) else None
  | Recycle => Some (recycleWorkers b e)
  | Drain => Some (drainWorkers b e)
  | Resume => Some (resumeWorkers b e)
  | AppShutdown flag =>
      Some (b, set_app (mkApp (constructor_name (app e)) flag
                          (currentEnvironment (app e))) e)
  | ForeignFork ty =>
      if String.eqb ty (type b) then None
      else Some (b, snd (fork ty (currentEnvironment (app e)) e))
  end.

Fixpoint run (tr : list action) (s : state) : option state :=
  match tr with
  | [] => Some s
  | a :: tr' =>
      match step a s with
      | Some s' => run tr' s'
      | None => None
      end
  end.

(** Number of workers of type [ty] among [l] whose process has not
    exited. *)
Definition live (ty : string) (l : list Worker) : nat :=
  List.length (filter (fun w => String.eqb (worker_type w) ty && negb (dead w)) l).


(** The keys of the live workers of type [ty] among [l], in creation
    order. *)
Definition own_keys (ty : string) (l : list Worker) : list string :=
  map (fun w => Js.to_string (id w))
    (filter (fun w => String.eqb (worker_type w) ty && negb (dead w)) l).

(** What the facility and the timer queue guarantee by construction:
    worker ids are distinct and were all handed out by the counter, timer
    handles are distinct from the next one to be handed out. *)
Definition well_formed (e : Env.t) : Prop :=
  NoDup (map id (objects (cluster e)))
  /\ Forall (fun w => (id w <= ids (cluster e))%nat) (objects (cluster e))
  /\ Forall (fun tm => (handle tm < next_handle e)%nat) (timers e).





(** The pool lists exactly the keys of the live workers the broker
    forked, oldest first. *)
Definition pool_is_live_workers (s : state) : Prop :=
  _workerIds (fst s) = own_keys (type (fst s)) (objects (cluster (snd s))).


(** Every timer handle a worker object carries was handed out by the
    timer queue. *)
Definition handles_known (e : Env.t) : Prop :=
  Forall (fun w => forall h, _disconnectTimer w = Some h -> (h < next_handle e)%nat)
    (objects (cluster e)).

(** Along [tr] the disconnect event of worker [wid] does not arrive and
    timer [h] does not fire. *)
Definition awaits (wid h : nat) (tr : list action) : bool :=
  forallb (fun a =>
             match a with
             | Disconnected w => negb (Nat.eqb w wid)
             | Fire h' => negb (Nat.eqb h' h)
             | _ => true
             end) tr.

(** Along [tr] timer [h] does not fire. *)
Definition unfired (h : nat) (tr : list action) : bool :=
  forallb (fun a => match a with Fire h' => negb (Nat.eqb h' h) | _ => true end) tr.

(** What a turn can make of a worker object when the timer queue hands
    out the handles from [n] up to, not including, [m] during the turn:
    it keeps the id, and either keeps the stored handle and the entry in
    the registry, or the worker was in the registry and now carries one
    of these handles. *)
Definition evolves (n m : nat) (w w' : Worker) : Prop :=
  id w' = id w
  /\ ((_disconnectTimer w' = _disconnectTimer w /\ listed w' = listed w)
      \/ (listed w = true
          /\ exists h, (n <= h < m)%nat /\ _disconnectTimer w' = Some h)).

(** Worker [wid] has been bounced under the deadline handle [h]: it
    carries [h], no other worker does, and it is out of the registry. *)
Definition bounced_under (wid h : nat) (e : Env.t) : Prop :=
  well_formed e
  /\ (h < next_handle e)%nat
  /\ Forall (fun w => _disconnectTimer w = Some h -> id w = wid) (objects (cluster e))
  /\ exists w, object wid e = Some w /\ _disconnectTimer w = Some h /\ listed w = false.

End Loop.

(** A fresh process: an application that is not shutting down, no worker
    forked yet, no timer armed. *)
Definition boot : Env.t :=
  Env.mk (Env.mkApp "OkanjoApp" false "default") (Env.mkCluster 0 []) [] 0 0 [].

Definition opts (n : Z) : option OkanjoBroker.Options :=
  Some (OkanjoBroker.mkOptions (Some n) None None).

(** ** OkanjoWorker: the runtime inside a forked process *)

Module OkanjoWorker.

Inductive signal : Type := SIGINT | SIGTERM.

Definition signal_name (s : signal) : string :=
  match s with SIGINT => "SIGINT" | SIGTERM => "SIGTERM" end.

(** The closures the constructor and [_bindProcessSignals] create. *)
Inductive closure : Type :=
| DirectiveListener
| SignalHandler (s : signal).

Definition closure_eqb (f g : closure) : bool :=
  match f, g with
  | DirectiveListener, DirectiveListener => true
  | SignalHandler SIGINT, SignalHandler SIGINT => true
  | SignalHandler SIGTERM, SignalHandler SIGTERM => true
  | _, _ => false
  end.

Inductive status : Type :=
| Running
| Exited (code : Z)
| Terminated (sig : signal).

(** The global [process] object, as far as the runtime touches it. *)
Record Process : Type := mkProcess {
  title : string;
  env_worker_type : string;
  env_env : string;
  listeners : list (string * closure);
  state : status
}.

(** The worker object: the process it lives in and its
    [_signalHandlers] property ([None] while [undefined]). *)
Record t : Type := mk {
  process : Process;
  _signalHandlers : option (closure * closure)
}.

Definition set_process (p : Process) (w : t) : t := mk p (_signalHandlers w).

(** [process.on(event, f)]. *)
Definition on (event : string) (f : closure) (w : t) : t :=
  let p := process w in
  set_process (mkProcess (title p) (env_worker_type p) (env_env p)
                 (listeners p ++ [(event, f)]) (state p)) w.

(** Dropping the most recently added registration of [f] for [event],
    if there is one. *)
Fixpoint remove_last (event : string) (f : closure) (l : list (string * closure))
  : list (string * closure) * bool :=
  match l with
  | [] => ([], false)
  | (ev, g) :: l' =>
      let '(r, found) := remove_last event f l' in
      if found then ((ev, g) :: r, true)
      else if String.eqb ev event && closure_eqb g f then (l', true)
      else ((ev, g) :: l', false)
  end.

(** [process.removeListener(event, f)]. *)
Definition removeListener (event : string) (f : closure) (w : t) : t :=
  let p := process w in
  set_process (mkProcess (title p) (env_worker_type p) (env_env p)
                 (fst (remove_last event f (listeners p))) (state p)) w.

(** [process.exit(code)]. *)
Definition exit (code : Z) (w : t) : t :=
  let p := process w in
  match state p with
  | Running =>
      set_process (mkProcess (title p) (env_worker_type p) (env_env p)
                     (listeners p) (Exited code)) w
  | _ => w
  end.

(** The overridable methods of the class. *)
Record Hooks : Type := mkHooks {
  init : t -> t;
  prepareForShutdown : list Js.value -> t -> Js.completion t;
  shutdown : t -> t
}.

(** [_bindProcessSignals()]. *)
Definition _bindProcessSignals (w : t) : t :=
  let w1 := mk (process w) (Some (SignalHandler SIGINT, SignalHandler SIGTERM)) in
  on "SIGTERM" (SignalHandler SIGTERM) (on "SIGINT" (SignalHandler SIGINT) w1).

(** [unbindProcessSignals()]; reading a handler of an [undefined]
    [_signalHandlers] throws. *)
Definition unbindProcessSignals (w : t) : Js.completion t :=
  match _signalHandlers w with
  | None => Js.Throw "TypeError"
  | Some (hint, hterm) =>
      Js.Normal (removeListener "SIGTERM" hterm (removeListener "SIGINT" hint w))
  end.

(** The base class's [shutdown()]. *)
Definition base_shutdown (w : t) : t := exit 0 w.

(** The base class's [prepareForShutdown()]; it declares no parameter
    and calls [this.shutdown()], whichever class defines it. *)
Definition base_prepareForShutdown (shutdown : t -> t) (args : list Js.value) (w : t)
  : Js.completion t :=
  match unbindProcessSignals w with
  | Js.Throw err => Js.Throw err
  | Js.Normal w1 => Js.Normal (shutdown w1)
  end.

(** The base class's [init()]. *)
Definition base_init (w : t) : t := w.

Definition base : Hooks :=
  mkHooks base_init (base_prepareForShutdown base_shutdown) base_shutdown.

(** The directive the message listener recognises. *)
Definition directive : string := "suicide".

(** The body of each closure; [arg] is the message for the directive
    listener. *)
Definition call (h : Hooks) (f : closure) (arg : Js.value) (w : t) : Js.completion t :=
  match f with
  | DirectiveListener =>
      if Js.is_str directive (Some arg) then prepareForShutdown h [] w
      else Js.Normal w
  | SignalHandler _ => prepareForShutdown h [Js.Bool false] w
  end.

(** Running a snapshot of listeners in registration order; nothing runs
    once the process has left [Running]. *)
Fixpoint call_all (h : Hooks) (fs : list closure) (arg : Js.value) (w : t)
  : Js.completion t :=
  match fs with
  | [] => Js.Normal w
  | f :: fs' =>
      match state (process w) with
      | Running =>
          match call h f arg w with
          | Js.Throw err => Js.Throw err
          | Js.Normal w1 => call_all h fs' arg w1
          end
      | _ => Js.Normal w
      end
  end.

(** The closures registered for [event], in registration order. *)
Definition listening (event : string) (l : list (string * closure)) : list closure :=
  map snd (filter (fun x => String.eqb (fst x) event) l).

Definition registered (event : string) (w : t) : list closure :=
  listening event (listeners (process w)).

(** A message from the parent arrives. *)
Definition receive (h : Hooks) (msg : Js.value) (w : t) : Js.completion t :=
  call_all h (registered "message" w) msg w.

(** A signal arrives; without a listener it terminates the process. *)
Definition raise (h : Hooks) (s : signal) (w : t) : Js.completion t :=
  match registered (signal_name s) w with
  | [] =>
      let p := process w in
      match state p with
      | Running =>
          Js.Normal (set_process (mkProcess (title p) (env_worker_type p) (env_env p)
                                    (listeners p) (Terminated s)) w)
      | _ => Js.Normal w
      end
  | fs => call_all h fs (Js.Bool false) w
  end.

(** What starts a shutdown. *)
Inductive trigger : Type :=
| Directive
| Signal (s : signal).

Definition deliver (h : Hooks) (tr : trigger) (w : t) : Js.completion t :=
  match tr with
  | Directive => receive h (Js.Str directive) w
  | Signal s => raise h s w
  end.

(** [new OkanjoWorker(app, options)] in a process [p]; [skipInit] is
    [options.skipInit]. *)
Definition new (h : Hooks) (skipInit : bool) (p : Process) : t :=
  let p1 := mkProcess ("node-" ++ env_worker_type p ++ "-" ++ env_env p)%string
              (env_worker_type p) (env_env p) (listeners p) (state p) in
  let w := mk p1 None in
  let w1 := if negb skipInit then init h w else w in
  _bindProcessSignals (on "message" DirectiveListener w1).

(** A freshly forked process of a worker of type [ty]. *)
Definition forked (ty envn : string) : Process :=
  mkProcess "node" ty envn [] Running.

(** The arguments each trigger's closure hands to
    [prepareForShutdown]: none from the directive listener, [false]
    from the signal handlers. *)
Definition arguments (tr : trigger) : list Js.value :=
  match tr with
  | Directive => []
  | Signal _ => [Js.Bool false]
  end.

(** A constructed worker in a running process on which nothing but the
    runtime listens for messages and termination signals. *)
Definition ready (w : t) : Prop :=
  state (process w) = Running
  /\ _signalHandlers w = Some (SignalHandler SIGINT, SignalHandler SIGTERM)
  /\ registered "message" w = [DirectiveListener]
  /\ registered "SIGINT" w = [SignalHandler SIGINT]
  /\ registered "SIGTERM" w = [SignalHandler SIGTERM].

End OkanjoWorker.

(** ** Reading the trace *)

Module Observe.
Import Env.

Definition is_fork (x : effect) : bool :=
  match x with Forked _ _ _ => true | _ => false end.

Definition is_report (x : effect) : bool :=
  match x with Report _ _ => true | _ => false end.

(** A [worker_ended] event of broker [ty]. *)
Definition is_ended (ty : string) (x : effect) : bool :=
  match x with
  | Emit ty' (worker_ended _ _ _ _) => String.eqb ty' ty
  | _ => false
  end.

(** A [worker_death] event of broker [ty]. *)
Definition is_death (ty : string) (x : effect) : bool :=
  match x with
  | Emit ty' (worker_death _ _ _ _) => String.eqb ty' ty
  | _ => false
  end.

(** A [worker_death] event of broker [ty] about the worker id [wid]. *)
Definition is_death_for (ty wid : string) (x : effect) : bool :=
  match x with
  | Emit ty' (worker_death wid' _ _ _) => String.eqb ty' ty && String.eqb wid' wid
  | _ => false
  end.

(** A call on the worker object with id [wid]. *)
Definition touches (wid : nat) (x : effect) : bool :=
  match x with
  | Sent w _ | Disconnect w | Kill w => Nat.eqb w wid
  | _ => false
  end.

Definition count (p : effect -> bool) (tr : list effect) : nat :=
  List.length (filter p tr).

(** The workers [fork] creates when called [n] times in a row, the
    counter standing at [k] before. *)
Definition fresh_workers (ty envn : string) (k n : nat) : list Worker :=
  map (fun i => mkWorker i ty envn None None true false true) (seq (S k) n).

(** The worker object as [_bounceWorker] leaves it: the deadline's
    handle [h] stored on it, [exitedAfterDisconnect] set and the entry
    in [Cluster.workers] deleted by [disconnect()]. *)
Definition bounced (h : nat) (w : Worker) : Worker :=
  mkWorker (id w) (worker_type w) (env_name w) (Some true) (Some h)
    (connected w) (dead w) false.

(** The deadline [_bounceWorker] arms at time [t] under handle [h]. *)
Definition deadline (h : nat) (t : Z) (wid : nat) : Timer :=
  mkTimer h (t + OkanjoBroker.disconnect_timeout) None (DisconnectDeadline wid).

(** The follow-up the disconnect observer arms at time [t]. *)
Definition followup (h : nat) (t : Z) (wid : nat) : Timer :=
  mkTimer h (t + OkanjoBroker.followup_timeout) None (DisconnectFollowup wid).

(** The key of a worker in [Cluster.workers]. *)
Definition key (w : Worker) : string := Js.to_string (id w).

(** The calls one bounce makes on a worker. *)
Definition bounce_calls (w : Worker) : list effect :=
  [Sent (id w) OkanjoBroker.directive; Disconnect (id w)].

(** How one pass of [recycleWorkers] over the pool [pool] may change a
    worker object: not at all, or by a bounce if its key is in the
    pool. *)
Definition recycled (pool : list string) (w w' : Worker) : Prop :=
  w' = w \/ (In (key w) pool /\ exists h, w' = bounced h w).

(** The calls one pass of [recycleWorkers] makes for the pool [pool]
    on the registry [ws]. *)
Definition recycle_calls (pool : list string) (ws : list Worker) : list effect :=
  flat_map (fun w => if 0 <=? Js.indexOf pool (key w) then bounce_calls w else []) ws.

(** A worker's exit as its observer is called: the worker object,
    the exit code and the signal. *)
Definition exit_call : Type := (Worker * option Z * option string)%type.

Definition exited (x : exit_call) : Worker := fst (fst x).

(** The exit observers of the workers [xs] running one after the
    other. *)
Definition observe_exits (xs : list exit_call) (s : OkanjoBroker.state)
  : OkanjoBroker.state :=
  fold_left
    (fun s x => OkanjoBroker.on_exit (exited x) (snd (fst x)) (snd x) (fst s) (snd s))
    xs s.

(** The [worker_ended] events of broker [ty] for the exits [xs]. *)
Definition ended_events (ty : string) (xs : list exit_call) : list effect :=
  map (fun x => Emit ty (worker_ended (key (exited x)) (snd (fst x)) (snd x)
                           (id (exited x)))) xs.

(** What the exit observer appends to the pool after the removal: the
    replacement's id, when it spawns one. *)
Definition respawned (b : OkanjoBroker.t) (e : Env.t) : list string :=
  if negb (gracefulShutdown (app e)) && negb (OkanjoBroker.drainOpen b)
  then [Js.to_string (S (ids (cluster e)))] else [].

End Observe.

(** ** A running example

    One process, one application, a broker of type ["t"]. *)

Module Example.
Import Env OkanjoBroker.

(** The broker and environment [new OkanjoBroker(app, ty, {workerCount: n})]
    leaves behind when called in [e]; the constructor does not throw
    there because [e] holds a genuine application object. *)
Definition start (ty : string) (n : Z) (e : Env.t) : state :=
  match OkanjoBroker.new true ty (opts n) e with
  | Js.Normal s => s
  | Js.Throw _ => (OkanjoBroker.mk ty n 0 false false [], e)
  end.

(** Worker 1 as its exit observer sees it after a crash. *)
Definition crashed : Worker :=
  mkWorker 1 "t" "default" (Some false) None true true true.

End Example.

(** ** The rest of the broker: configuration, logging, timers armed in bulk *)

Module More.
Import Env OkanjoBroker.

(** The fields of the broker the constructor fills from its arguments. *)
Definition config (b : OkanjoBroker.t) : string * Z * Z * bool :=
  (type b, workerCount b, recycleRate b, debug b).

(** The broker object as the constructor has filled it when it calls
    [_init]. *)
Definition configured (ty : string) (options : option Options) : OkanjoBroker.t :=
  let o := match options with Some o => o | None => mkOptions None None None end in
  OkanjoBroker.mk ty
    (match opt_workerCount o with None => 1 | Some n => n end)
    (match opt_recycleRate o with None => 0 | Some r => if r =? 0 then 0 else r end)
    (match opt_debug o with Some d => d | None => false end)
    false [].

(** [worker.exitedAfterDisconnect === true]. *)
Definition expected (w : Worker) : bool :=
  match exitedAfterDisconnect w with Some true => true | _ => false end.

(** The outer test of the exit observer:
    [!this.app.gracefulShutdown && !this.drainOpen]. *)
Definition replaces (b : OkanjoBroker.t) (e : Env.t) : bool :=
  negb (gracefulShutdown (app e)) && negb (drainOpen b).

Definition is_kill (x : effect) : bool :=
  match x with Kill _ => true | _ => false end.

Definition is_fire (a : Loop.action) : bool :=
  match a with Loop.Fire _ => true | _ => false end.

(** The turns that call [drainWorkers] or [resumeWorkers]. *)
Definition moves_gate (a : Loop.action) : bool :=
  match a with Loop.Drain | Loop.Resume => true | _ => false end.

(** The turns in which the pool can change: an exit and a resume. *)
Definition moves_pool (a : Loop.action) : bool :=
  match a with Loop.Exit _ _ _ | Loop.Resume => true | _ => false end.

(** A [worker.send] of anything but the directive. *)
Definition is_other_send (x : effect) : bool :=
  match x with Sent _ m => negb (String.eqb m directive) | _ => false end.

(** The workers of the registry [ws] that a pass of [recycleWorkers]
    bounces for the pool [pool]. *)
Definition bounced_workers (pool : list string) (ws : list Worker) : list Worker :=
  filter (fun w => 0 <=? Js.indexOf pool (Js.to_string (id w))) ws.

(** The deadlines armed by bouncing [ws] one after the other at time [t],
    the first under handle [h]. *)
Fixpoint deadlines (h : nat) (t : Z) (ws : list Worker) : list Timer :=
  match ws with
  | [] => []
  | w :: ws' =>
      mkTimer h (t + disconnect_timeout) None (DisconnectDeadline (id w))
        :: deadlines (S h) t ws'
  end.

(** The interval [_init] arms for broker [b] at time [t] under handle [h]. *)
Definition recycle_interval (h : nat) (t : Z) (b : OkanjoBroker.t) : Timer :=
  let period := armed_delay (recycleRate b) in
  mkTimer h (t + period) (Some period) (RecycleTick (type b)).

(** The elements [Array.prototype.splice(start, deleteCount)] returns:
    the ones it deletes. *)
Definition spliced {A : Type} (l : list A) (start deleteCount : Z) : list A :=
  let len := Z.of_nat (List.length l) in
  let actualStart :=
    if start <? 0 then Z.max (len + start) 0 else Z.min start len in
  let actualDeleteCount :=
    Z.min (Z.max deleteCount 0) (len - actualStart) in
  firstn (Z.to_nat actualDeleteCount) (skipn (Z.to_nat actualStart) l).

(** [_log(...)]: the argument lists of the [console.error] calls it
    makes.  It splices [Array.prototype], an empty array, from [null]
    (index 0); the delete count is whatever [to_integer] makes of the
    [arguments] object. *)
Definition _log (to_integer : list string -> Z) (b : OkanjoBroker.t)
    (arguments : list string) : list (list string) :=
  if debug b
  then [spliced (@nil string) 0 (to_integer arguments)]
  else [].

(** The broker and environment
    [new OkanjoBroker(app, ty, {workerCount: n, recycleRate: rate})]
    leaves behind when called in [e]. *)
Definition recycling (ty : string) (n rate : Z) (e : Env.t) : state :=
  let options := Some (mkOptions (Some n) (Some rate) None) in
  match OkanjoBroker.new true ty options e with
  | Js.Normal s => s
  | Js.Throw _ => (configured ty options, e)
  end.

(** No turn of [tr] is one of those [p] picks. *)
Definition none_of (p : Loop.action -> bool) (tr : list Loop.action) : bool :=
  forallb (fun a => negb (p a)) tr.

(** The drain gate after the calls of [drainWorkers] and [resumeWorkers]
    among [tr], from a gate [g]. *)
Definition gate_after (tr : list Loop.action) (g : bool) : bool :=
  fold_left (fun g a =>
               match a with
               | Loop.Drain => true
               | Loop.Resume => false
               | _ => g
               end) tr g.

End More.

(** ** The earlier worker runtime

    The second class of OkanjoWorker.js: synchronous hooks, no record of
    the signal handlers and no way to unbind them.  Its closures have the
    bodies of the later version's. *)

Module LegacyWorker.
Import OkanjoWorker.

(** [_bindProcessSignals()]. *)
Definition _bindProcessSignals (w : t) : t :=
  on "SIGTERM" (SignalHandler SIGTERM) (on "SIGINT" (SignalHandler SIGINT) w).

(** The base class's [prepareForShutdown(canAsync)]: it calls
    [this.shutdown()] and ignores its parameter. *)
Definition base_prepareForShutdown (shutdown : t -> t) (args : list Js.value) (w : t)
  : Js.completion t :=
  Js.Normal (shutdown w).

Definition base : Hooks :=
  mkHooks base_init (base_prepareForShutdown base_shutdown) base_shutdown.

(** [new OkanjoWorker(app, options)]. *)
Definition new (h : Hooks) (skipInit : bool) (p : Process) : t :=
  let p1 := mkProcess ("node-" ++ env_worker_type p ++ "-" ++ env_env p)%string
              (env_worker_type p) (env_env p) (listeners p) (state p) in
  let w := mk p1 None in
  let w1 := if negb skipInit then init h w else w in
  _bindProcessSignals (on "message" DirectiveListener w1).

(** A constructed worker in a running process on which nothing but the
    runtime listens for messages and termination signals. *)
Definition ready (w : t) : Prop :=
  state (process w) = Running
  /\ registered "message" w = [DirectiveListener]
  /\ registered "SIGINT" w = [SignalHandler SIGINT]
  /\ registered "SIGTERM" w = [SignalHandler SIGTERM].

End LegacyWorker.

(** * Properties *)

(** ** Concrete runs of the primitives *)

Example to_string_12 : Js.to_string 12 = "12".
Proof. reflexivity. Qed.

Example indexOf_ex :
  Js.indexOf ["1"; "2"; "3"] "3" = 2 /\ Js.indexOf ["1"; "2"] "9" = -1.
Proof. split; reflexivity. Qed.

Example splice_ex :
  Js.splice ["1"; "2"; "3"] 1 1 = ["1"; "3"]
  /\ Js.splice ["1"; "2"; "3"] (-1) 1 = ["1"; "2"]
  /\ Js.splice (@nil string) (-1) 1 = [].
Proof. repeat split; reflexivity. Qed.

(** ** Arrays of ids *)

Section JsFacts.

Lemma to_string_inj (n m : nat) : Js.to_string n = Js.to_string m -> n = m.
Proof.
  unfold Js.to_string. intro H.
  apply DecimalNat.Unsigned.to_uint_inj.
  assert (E : Some (Nat.to_uint n) = Some (Nat.to_uint m)).
  { rewrite <- !NilEmpty.usu. now rewrite H. }
  now inversion E.
Qed.

Lemma indexOf_range (l : list string) (x : string) :
  -1 <= Js.indexOf l x < Z.of_nat (List.length l).
Proof.
  induction l as [|y l IH]; simpl; [lia|].
  destruct (String.eqb y x); [lia|].
  destruct (Js.indexOf l x <? 0) eqn:E; [lia|].
  apply Z.ltb_ge in E. lia.
Qed.

Lemma indexOf_absent (l : list string) (x : string) :
  ~ In x l -> Js.indexOf l x = -1.
Proof.
  induction l as [|y l IH]; simpl; intro H; [reflexivity|].
  destruct (String.eqb_spec y x) as [->|_]; [tauto|].
  rewrite IH by tauto. reflexivity.
Qed.

Lemma indexOf_present (l : list string) (x : string) :
  In x l -> 0 <= Js.indexOf l x.
Proof.
  induction l as [|y l IH]; simpl; intro H; [tauto|].
  destruct (String.eqb_spec y x) as [->|N]; [lia|].
  destruct H as [H|H]; [congruence|].
  specialize (IH H).
  destruct (Js.indexOf l x <? 0) eqn:E; [apply Z.ltb_lt in E; lia | lia].
Qed.

Lemma indexOf_In (l : list string) (x : string) :
  (0 <=? Js.indexOf l x) = true <-> In x l.
Proof.
  split; intro H.
  - destruct (in_dec string_dec x l) as [I|I]; [exact I|].
    apply indexOf_absent in I. rewrite I in H. discriminate.
  - apply Z.leb_le. now apply indexOf_present.
Qed.

(** The index found is that of the first occurrence. *)
Lemma indexOf_first (l1 l2 : list string) (x : string) :
  ~ In x l1 -> Js.indexOf (l1 ++ x :: l2) x = Z.of_nat (List.length l1).
Proof.
  induction l1 as [|y l1 IH]; simpl; intro H.
  - now rewrite String.eqb_refl.
  - destruct (String.eqb_spec y x) as [->|_]; [tauto|].
    rewrite IH by tauto.
    destruct (Z.of_nat (List.length l1) <? 0) eqn:E;
      [apply Z.ltb_lt in E; lia | lia].
Qed.

(** Deleting one element at an index inside the array. *)
Lemma splice_middle {A : Type} (l1 l2 : list A) (x : A) :
  Js.splice (l1 ++ x :: l2) (Z.of_nat (List.length l1)) 1 = l1 ++ l2.
Proof.
  unfold Js.splice. rewrite length_app. cbn [List.length].
  destruct (Z.of_nat (List.length l1) <? 0) eqn:E; [apply Z.ltb_lt in E; lia|].
  replace (Z.min (Z.of_nat (List.length l1))
             (Z.of_nat (List.length l1 + S (List.length l2))))
    with (Z.of_nat (List.length l1)) by lia.
  replace (Z.min (Z.max 1 0) _) with 1 by lia.
  rewrite Nat2Z.id.
  replace (Z.to_nat (Z.of_nat (List.length l1) + 1)) with (S (List.length l1)) by lia.
  rewrite firstn_app, Nat.sub_diag, firstn_all. cbn [firstn]. rewrite app_nil_r.
  f_equal.
  replace (S (List.length l1)) with (List.length (l1 ++ [x]))
    by (rewrite length_app; simpl; lia).
  replace (l1 ++ x :: l2) with ((l1 ++ [x]) ++ l2) by (now rewrite <- app_assoc).
  rewrite skipn_app, skipn_all, Nat.sub_diag. reflexivity.
Qed.

(** [splice(-1, 1)] drops the last element. *)
Lemma splice_minus_one {A : Type} (l : list A) :
  Js.splice l (-1) 1 = removelast l.
Proof.
  induction l as [|a l _] using rev_ind; [reflexivity|].
  rewrite removelast_last.
  transitivity (Js.splice (l ++ [a]) (Z.of_nat (List.length l)) 1);
    [| rewrite splice_middle; apply app_nil_r].
  unfold Js.splice. rewrite length_app. cbn [List.length].
  replace (-1 <? 0) with true by reflexivity.
  destruct (Z.of_nat (List.length l) <? 0) eqn:E; [apply Z.ltb_lt in E; lia|].
  replace (Z.max (Z.of_nat (List.length l + 1) + -1) 0)
    with (Z.of_nat (List.length l)) by lia.
  replace (Z.min (Z.of_nat (List.length l)) (Z.of_nat (List.length l + 1)))
    with (Z.of_nat (List.length l)) by lia.
  reflexivity.
Qed.

Lemma first_occurrence (l : list string) (x : string) :
  In x l -> exists l1 l2, l = l1 ++ x :: l2 /\ ~ In x l1.
Proof.
  induction l as [|y l IH]; simpl; intro H; [tauto|].
  destruct (string_dec y x) as [->|N].
  - exists [], l. split; [reflexivity | tauto].
  - destruct H as [H|H]; [congruence|].
    destruct (IH H) as (l1 & l2 & -> & N1).
    exists (y :: l1), l2. split; [reflexivity|].
    simpl. intros [E|I]; [congruence | tauto].
Qed.

(** Removing a present id deletes its first occurrence. *)
Lemma splice_indexOf_present (l : list string) (x : string) :
  In x l ->
  exists l1 l2, l = l1 ++ x :: l2 /\ ~ In x l1
                /\ Js.splice l (Js.indexOf l x) 1 = l1 ++ l2.
Proof.
  intro H. destruct (first_occurrence l x H) as (l1 & l2 & -> & N).
  exists l1, l2. repeat split; [exact N|].
  rewrite indexOf_first by exact N. apply splice_middle.
Qed.

(** Removing an absent id deletes the last element instead. *)
Lemma splice_indexOf_absent (l : list string) (x : string) :
  ~ In x l -> Js.splice l (Js.indexOf l x) 1 = removelast l.
Proof.
  intro H. rewrite indexOf_absent by exact H. apply splice_minus_one.
Qed.

(** Either way a non-empty array loses exactly one element. *)
Lemma splice_indexOf_length (l : list string) (x : string) :
  List.length (Js.splice l (Js.indexOf l x) 1) = pred (List.length l).
Proof.
  destruct (in_dec string_dec x l) as [I|N].
  - destruct (splice_indexOf_present l x I) as (l1 & l2 & -> & _ & ->).
    rewrite !length_app. simpl. lia.
  - rewrite splice_indexOf_absent by exact N.
    induction l as [|a l _] using rev_ind; [reflexivity|].
    rewrite removelast_last, length_app. simpl. lia.
Qed.

End JsFacts.

(** ** Spawning *)

Section Spawning.
Import Env OkanjoBroker Observe.

Lemma count_app (p : effect -> bool) (l1 l2 : list effect) :
  count p (l1 ++ l2) = (count p l1 + count p l2)%nat.
Proof. unfold count. now rewrite filter_app, length_app. Qed.

Lemma spawn_once (b : OkanjoBroker.t) (e : Env.t) :
  _spawnWorker b e =
    (set_workerIds (_workerIds b ++ [Js.to_string (S (ids (cluster e)))]) b,
     Env.mk (app e)
       (mkCluster (S (ids (cluster e)))
          (objects (cluster e)
             ++ fresh_workers (type b) (currentEnvironment (app e)) (ids (cluster e)) 1))
       (timers e) (next_handle e) (now e)
       (trace e ++ [Forked (S (ids (cluster e))) (type b) (currentEnvironment (app e))])).
Proof. reflexivity. Qed.

(** [n] spawns in a row: [n] fresh consecutive ids are appended to the
    pool, [n] workers are forked, nothing else changes. *)
Lemma spawn_many (n : nat) (b : OkanjoBroker.t) (e : Env.t) :
  repeat_call n _spawnWorker b e =
    (set_workerIds
       (_workerIds b ++ map Js.to_string (seq (S (ids (cluster e))) n)) b,
     Env.mk (app e)
       (mkCluster (ids (cluster e) + n)
          (objects (cluster e)
             ++ fresh_workers (type b) (currentEnvironment (app e)) (ids (cluster e)) n))
       (timers e) (next_handle e) (now e)
       (trace e ++ map (fun i => Forked i (type b) (currentEnvironment (app e)))
                      (seq (S (ids (cluster e))) n))).
Proof.
  revert b e. induction n as [|n IH]; intros b e.
  - destruct b, e as [a [k os] ts nh nw tr]; simpl.
    unfold set_workerIds, fresh_workers; simpl.
    now rewrite !app_nil_r, Nat.add_0_r.
  - cbn [repeat_call]. rewrite spawn_once, IH.
    destruct b, e as [a [k os] ts nh nw tr]; unfold set_workerIds, fresh_workers; simpl.
    rewrite <- !app_assoc. simpl.
    repeat f_equal. lia.
Qed.

End Spawning.

(** ** The exit observer *)

Section ExitObserver.
Import Env OkanjoBroker Observe.

Variables (worker : Worker) (code : option Z) (signal : option string).

Let wid := Js.to_string (id worker).

Lemma on_exit_workerIds (b : OkanjoBroker.t) (e : Env.t) :
  _workerIds (fst (on_exit worker code signal b e)) =
    Js.splice (_workerIds b) (Js.indexOf (_workerIds b) wid) 1 ++ respawned b e.
Proof.
  unfold on_exit, respawned. cbn [drainOpen set_workerIds].
  destruct (negb (gracefulShutdown (app e)) && negb (drainOpen b)).
  - destruct (exitedAfterDisconnect worker) as [[|]|];
      rewrite spawn_once; reflexivity.
  - simpl. now rewrite app_nil_r.
Qed.

Lemma on_exit_fields (b : OkanjoBroker.t) (e : Env.t) :
  let b' := fst (on_exit worker code signal b e) in
  type b' = type b /\ workerCount b' = workerCount b
  /\ recycleRate b' = recycleRate b /\ drainOpen b' = drainOpen b.
Proof.
  unfold on_exit. cbn [drainOpen set_workerIds].
  destruct (negb (gracefulShutdown (app e)) && negb (drainOpen b)).
  - destruct (exitedAfterDisconnect worker) as [[|]|];
      rewrite spawn_once; repeat split.
  - repeat split.
Qed.

(** With the drain gate open, or the application shutting down, the
    observer emits [worker_ended] and forks nothing. *)
Lemma on_exit_no_respawn (b : OkanjoBroker.t) (e : Env.t) :
  negb (gracefulShutdown (app e)) && negb (drainOpen b) = false ->
  on_exit worker code signal b e =
    (set_workerIds (Js.splice (_workerIds b) (Js.indexOf (_workerIds b) wid) 1) b,
     log (Emit (type b) (worker_ended wid code signal (id worker))) e).
Proof.
  intro H. unfold on_exit. cbn [drainOpen set_workerIds]. now rewrite H.
Qed.

End ExitObserver.

(** C2.  A worker that exits with [exitedAfterDisconnect] other than
    [true], while the drain gate is closed and the application is not
    shutting down, makes the exit observer do exactly three things, in
    this order: report an error to the application, emit one
    [worker_death] for that id, and fork one replacement whose id joins
    the pool.  No [worker_ended] is emitted. *)
Theorem crash_is_death_and_one_replacement
    (worker : Env.Worker) (code : option Z) (signal : option string)
    (b : OkanjoBroker.t) (e : Env.t) :
  Env.exitedAfterDisconnect worker <> Some true ->
  OkanjoBroker.drainOpen b = false ->
  Env.gracefulShutdown (Env.app e) = false ->
  let wid := Js.to_string (Env.id worker) in
  let ty := OkanjoBroker.type b in
  let replacement := S (Env.ids (Env.cluster e)) in
  let s' := OkanjoBroker.on_exit worker code signal b e in
  exists new,
    Env.trace (snd s') = Env.trace e ++ new
    /\ new = [Env.Report (ty ++ " worker id=" ++ wid ++ " died!")%string (Some wid);
              Env.Emit ty (Env.worker_death wid code signal (Env.id worker));
              Env.Forked replacement ty (Env.currentEnvironment (Env.app e))]
    /\ Observe.count (Observe.is_death_for ty wid) new = 1%nat
    /\ Observe.count (Observe.is_death ty) new = 1%nat
    /\ Observe.count Observe.is_report new = 1%nat
    /\ Observe.count Observe.is_fork new = 1%nat
    /\ Observe.count (Observe.is_ended ty) new = 0%nat
    /\ OkanjoBroker._workerIds (fst s') =
         Js.splice (OkanjoBroker._workerIds b)
           (Js.indexOf (OkanjoBroker._workerIds b) wid) 1
         ++ [Js.to_string replacement].
Proof.
  intros Hflag Hdrain Happ wid ty replacement s'.
  eexists. split; [|split; [reflexivity|]].
  - subst s'. unfold OkanjoBroker.on_exit.
    cbn [OkanjoBroker.drainOpen OkanjoBroker.set_workerIds].
    rewrite Hdrain, Happ. cbn [negb andb].
    destruct (Env.exitedAfterDisconnect worker) as [[|]|]; [congruence| |];
      rewrite spawn_once; cbn; rewrite <- !app_assoc; reflexivity.
  - unfold Observe.count. cbn.
    rewrite !String.eqb_refl. cbn.
    repeat split.
    subst s'. rewrite on_exit_workerIds. unfold Observe.respawned.
    now rewrite Hdrain, Happ.
Qed.

Lemma crash_is_death_and_one_replacement_witness :
  let s' := OkanjoBroker.on_exit Example.crashed (Some 1) None
              (fst (Example.start "t" 1 boot)) (snd (Example.start "t" 1 boot)) in
  Observe.count (Observe.is_death_for "t" "1") (Env.trace (snd s')) = 1%nat
  /\ OkanjoBroker._workerIds (fst s') = ["2"].
Proof.
  destruct (crash_is_death_and_one_replacement Example.crashed (Some 1) None
              (fst (Example.start "t" 1 boot)) (snd (Example.start "t" 1 boot)))
    as (new & Htr & Hnew & _ & _ & _ & _ & _ & Hids).
  - discriminate.
  - reflexivity.
  - reflexivity.
  - cbv zeta. rewrite Htr, Hids, Hnew. split; reflexivity.
Defined.

(** ** Resuming *)

(** C5.  [resumeWorkers()] closes the drain gate and then forks exactly
    [workerCount - |workerIds|] workers when that is positive and none
    otherwise; their fresh ids are appended to the pool, which therefore
    ends at [workerCount] unless it was already larger. *)
Theorem resume_refills_to_workerCount (b : OkanjoBroker.t) (e : Env.t) :
  let s' := OkanjoBroker.resumeWorkers b e in
  let have := List.length (OkanjoBroker._workerIds b) in
  let missing := Z.to_nat (OkanjoBroker.workerCount b - Z.of_nat have) in
  let fresh := seq (S (Env.ids (Env.cluster e))) missing in
  OkanjoBroker.drainOpen (fst s') = false
  /\ Z.of_nat missing = Z.max 0 (OkanjoBroker.workerCount b - Z.of_nat have)
  /\ OkanjoBroker._workerIds (fst s') =
       OkanjoBroker._workerIds b ++ map Js.to_string fresh
  /\ Env.trace (snd s') =
       Env.trace e
       ++ map (fun i => Env.Forked i (OkanjoBroker.type b)
                          (Env.currentEnvironment (Env.app e))) fresh
  /\ Observe.count Observe.is_fork (Env.trace (snd s')) =
       (Observe.count Observe.is_fork (Env.trace e) + missing)%nat
  /\ Z.of_nat (List.length (OkanjoBroker._workerIds (fst s'))) =
       Z.max (OkanjoBroker.workerCount b) (Z.of_nat have)
  /\ OkanjoBroker.workerCount (fst s') = OkanjoBroker.workerCount b.
Proof.
  intros s' have missing fresh. subst s'.
  unfold OkanjoBroker.resumeWorkers. rewrite spawn_many.
  cbn [fst snd OkanjoBroker.set_drainOpen OkanjoBroker.set_workerIds
       OkanjoBroker.drainOpen OkanjoBroker._workerIds OkanjoBroker.workerCount
       OkanjoBroker.type Env.trace].
  fold have missing fresh.
  repeat split.
  - lia.
  - rewrite count_app. f_equal.
    unfold Observe.count, fresh.
    generalize (S (Env.ids (Env.cluster e))). clear.
    induction missing as [|n IH]; intro k; simpl; [reflexivity|].
    now rewrite IH.
  - rewrite length_app, length_map. unfold fresh. rewrite length_seq. lia.
Qed.

Lemma resume_refills_to_workerCount_witness :
  let drained := OkanjoBroker.mk "t" 2 0 false true [] in
  let s' := OkanjoBroker.resumeWorkers drained boot in
  OkanjoBroker.drainOpen (fst s') = false
  /\ OkanjoBroker._workerIds (fst s') = ["1"; "2"]
  /\ Env.trace (snd s') = [Env.Forked 1 "t" "default"; Env.Forked 2 "t" "default"].
Proof.
  intros drained s'.
  destruct (resume_refills_to_workerCount drained boot) as (D & _ & Ids & Tr & _).
  split; [exact D|]. split; [exact Ids | exact Tr].
Defined.

(** ** Messages from workers *)

Section Messages.
Import Env OkanjoBroker.

(** Every payload but [null] is dispatched on its shape: an object
    whose [type] field is the string ["ops"] goes out as [worker_ops],
    anything else as [worker_message], in both cases with the payload
    as received and the worker it came from. *)
Lemma message_dispatch (worker : Worker) (msg : Js.value) (b : OkanjoBroker.t) (e : Env.t) :
  msg <> Js.Null ->
  on_message worker msg b e =
    Js.Normal
      (b, emit (type b)
            (match msg with
             | Js.Obj fs =>
                 if Js.is_str "ops" (Js.field fs "type")
                 then worker_ops msg (id worker)
                 else worker_message msg (id worker)
             | _ => worker_message msg (id worker)
             end) e).
Proof.
  intro H. unfold on_message.
  destruct msg as [| | | | |fs]; try reflexivity; [congruence|].
  cbn. destruct (Js.is_str "ops" (Js.field fs "type")); reflexivity.
Qed.

End Messages.

(** C7.  The message observer on the payload [null]: [typeof null] is
    ["object"], so the observer goes on to read [null.type] and throws;
    no [worker_message] is emitted. *)
Theorem message_null_throws
    (worker : Env.Worker) (b : OkanjoBroker.t) (e : Env.t) :
  OkanjoBroker.on_message worker Js.Null b e = Js.Throw "TypeError".
Proof. reflexivity. Qed.

(** ** The worker runtime *)

Section WorkerRuntime.
Import OkanjoWorker.

Lemma closure_eqb_eq (f g : closure) : closure_eqb f g = true <-> f = g.
Proof.
  destruct f as [|[|]], g as [|[|]]; simpl; split; congruence.
Qed.

Lemma remove_last_found (ev : string) (f : closure) (l : list (string * closure)) :
  snd (remove_last ev f l) = true <-> In f (listening ev l).
Proof.
  induction l as [|[e g] l IH]; simpl; [split; [discriminate | tauto]|].
  destruct (remove_last ev f l) as [r found]. simpl in IH.
  unfold listening in *. simpl.
  destruct found; simpl.
  - destruct (String.eqb e ev); simpl; intuition.
  - destruct (String.eqb e ev); simpl.
    + destruct (closure_eqb g f) eqn:E; simpl.
      * apply closure_eqb_eq in E. intuition.
      * split; [discriminate|]. intros [->|I]; [|intuition congruence].
        assert (closure_eqb f f = true) by now apply closure_eqb_eq.
        congruence.
    + intuition.
Qed.

Lemma remove_last_single (ev : string) (f : closure) (l : list (string * closure)) :
  listening ev l = [f] -> listening ev (fst (remove_last ev f l)) = [].
Proof.
  induction l as [|[e g] l IH]; [discriminate|].
  pose proof (remove_last_found ev f l) as F.
  cbn [remove_last]. destruct (remove_last ev f l) as [r found].
  unfold listening in *. cbn [filter fst snd map] in *.
  destruct (String.eqb e ev) eqn:E; cbn [map snd].
  - intro H. injection H as -> H0.
    rewrite H0 in F. destruct found; [simpl in F; tauto|].
    assert (C : closure_eqb f f = true) by now apply closure_eqb_eq.
    rewrite C. simpl. exact H0.
  - intro H. rewrite H in F. destruct found.
    + simpl. rewrite E. cbn [map snd]. now apply IH.
    + simpl in F. exfalso. assert (false = true) by (apply F; now left).
      discriminate.
Qed.

Lemma remove_last_other (ev ev' : string) (f : closure) (l : list (string * closure)) :
  ev' <> ev -> listening ev' (fst (remove_last ev f l)) = listening ev' l.
Proof.
  intro N. induction l as [|[e g] l IH]; [reflexivity|].
  cbn [remove_last]. destruct (remove_last ev f l) as [r found].
  unfold listening in *. cbn [fst] in IH.
  destruct found; cbn [fst filter].
  - destruct (String.eqb e ev'); cbn [map snd]; now rewrite IH.
  - destruct (String.eqb_spec e ev) as [->|_]; cbn [andb].
    + destruct (closure_eqb g f); cbn [fst filter]; [|reflexivity].
      destruct (String.eqb_spec ev ev'); [congruence | reflexivity].
    + reflexivity.
Qed.

(** The constructor leaves a ready worker behind when [init] is the
    base class's (or is skipped) and the process is freshly forked. *)
Lemma new_ready (prep : list Js.value -> t -> Js.completion t) (shut : t -> t)
      (skipInit : bool) (ty envn : string) :
  ready (new (mkHooks base_init prep shut) skipInit (forked ty envn)).
Proof. destruct skipInit; repeat split. Qed.

(** What the base class's [prepareForShutdown] does to a ready worker. *)
Lemma base_prepare_ready (args : list Js.value) (w : t) :
  ready w ->
  exists w',
    prepareForShutdown base args w = Js.Normal w'
    /\ state (process w') = Exited 0
    /\ registered "SIGINT" w' = []
    /\ registered "SIGTERM" w' = []
    /\ registered "message" w' = registered "message" w.
Proof.
  intros (R & H & M & I & T).
  cbn [base prepareForShutdown]. unfold base_prepareForShutdown, unbindProcessSignals.
  rewrite H. eexists. split; [reflexivity|].
  unfold base_shutdown, exit, removeListener, registered in *.
  cbn [process set_process state listeners]. rewrite R.
  cbn [process set_process state listeners fst].
  repeat split.
  - rewrite remove_last_other by discriminate. now apply remove_last_single.
  - apply remove_last_single. rewrite remove_last_other by discriminate. exact T.
  - rewrite !remove_last_other by discriminate. reflexivity.
Qed.

End WorkerRuntime.

(** C9.  On a ready worker each of the three triggers, the parent's
    directive, SIGINT and SIGTERM, runs [prepareForShutdown] once on the
    state the trigger found, whichever class defines the method; the
    directive listener passes no argument and the signal handlers pass
    [false].  The base class's method declares no parameter, so in the
    runtime as written the three triggers end in the same state: signal
    handlers removed, process exited with status 0. *)
Theorem shutdown_triggers_share_one_path
    (h : OkanjoWorker.Hooks) (w : OkanjoWorker.t) (tr : OkanjoWorker.trigger) :
  OkanjoWorker.ready w ->
  OkanjoWorker.deliver h tr w =
    OkanjoWorker.prepareForShutdown h (OkanjoWorker.arguments tr) w
  /\ OkanjoWorker.deliver OkanjoWorker.base tr w =
       OkanjoWorker.prepareForShutdown OkanjoWorker.base [] w
  /\ (forall tr', OkanjoWorker.deliver OkanjoWorker.base tr' w =
                  OkanjoWorker.deliver OkanjoWorker.base tr w)
  /\ exists w',
       OkanjoWorker.deliver OkanjoWorker.base tr w = Js.Normal w'
       /\ OkanjoWorker.state (OkanjoWorker.process w') = OkanjoWorker.Exited 0
       /\ OkanjoWorker.registered "SIGINT" w' = []
       /\ OkanjoWorker.registered "SIGTERM" w' = [].
Proof.
  intro R.
  assert (D : forall h' t',
             OkanjoWorker.deliver h' t' w =
               OkanjoWorker.prepareForShutdown h' (OkanjoWorker.arguments t') w).
  { destruct R as (Run & _ & M & I & T). intros h' [|[|]];
      unfold OkanjoWorker.deliver, OkanjoWorker.receive, OkanjoWorker.raise;
      cbn [OkanjoWorker.signal_name]; rewrite ?M, ?I, ?T;
      cbn [OkanjoWorker.call_all]; rewrite Run; cbn;
      destruct (OkanjoWorker.prepareForShutdown h' _ w); reflexivity. }
  assert (B : forall t',
             OkanjoWorker.deliver OkanjoWorker.base t' w =
               OkanjoWorker.prepareForShutdown OkanjoWorker.base [] w).
  { intro t'. rewrite D. reflexivity. }
  split; [apply D|]. split; [apply B|]. split; [intro; now rewrite !B|].
  destruct (base_prepare_ready [] w R) as (w' & E & S & I & T & _).
  exists w'. rewrite B. auto.
Qed.

Lemma shutdown_triggers_share_one_path_witness :
  let w := OkanjoWorker.new OkanjoWorker.base false (OkanjoWorker.forked "t" "default") in
  OkanjoWorker.deliver OkanjoWorker.base (OkanjoWorker.Signal OkanjoWorker.SIGTERM) w =
  OkanjoWorker.deliver OkanjoWorker.base OkanjoWorker.Directive w.
Proof.
  intro w.
  apply (proj1 (proj2 (proj2
    (shutdown_triggers_share_one_path OkanjoWorker.base w OkanjoWorker.Directive
       (new_ready _ _ false "t" "default"))))).
Defined.

(** ** Bouncing *)

Section Bouncing.
Import Env OkanjoBroker Observe.

Lemma update_update (wid : nat) (f g : Worker -> Worker) (l : list Worker) :
  (forall w, id (g w) = id w) ->
  update wid f (update wid g l) = update wid (fun w => f (g w)) l.
Proof.
  intro G. induction l as [|w l IH]; simpl; [reflexivity|].
  destruct (Nat.eqb (id w) wid) eqn:E; simpl.
  - now rewrite G, E.
  - now rewrite E, IH.
Qed.

(** A bounce of a key the registry holds: directive, deadline,
    disconnect. *)
Lemma bounce_found (k : string) (worker : Worker) (b : OkanjoBroker.t) (e : Env.t) :
  lookup k e = Some worker ->
  _bounceWorker k b e =
    (b, Env.mk (app e)
          (mkCluster (ids (cluster e))
             (update (id worker) (bounced (next_handle e)) (objects (cluster e))))
          (timers e ++ [deadline (next_handle e) (now e) (id worker)])
          (S (next_handle e)) (now e)
          (trace e ++ bounce_calls worker)).
Proof.
  intro H. unfold _bounceWorker. rewrite H.
  unfold disconnect, modify, send, setTimeout, log, set_cluster, deadline, bounce_calls.
  cbn. rewrite update_update by reflexivity. rewrite <- app_assoc. reflexivity.
Qed.

(** A bounce of a key that has left the registry only reports. *)
Lemma bounce_vanished (k : string) (b : OkanjoBroker.t) (e : Env.t) :
  lookup k e = None ->
  _bounceWorker k b e =
    (b, report "Could not bounce worker gracefully, probably a race?" None e).
Proof. intro H. unfold _bounceWorker. now rewrite H. Qed.

Lemma find_app_none {A : Type} (p : A -> bool) (l1 l2 : list A) :
  find p l1 = None -> find p (l1 ++ l2) = find p l2.
Proof.
  induction l1 as [|x l IH]; simpl; [reflexivity|].
  destruct (p x); [discriminate | exact IH].
Qed.

Lemma pending_fresh (tm : Timer) (e : Env.t) (ts : list Timer) :
  pending (handle tm) e = None ->
  find (fun x => Nat.eqb (handle x) (handle tm)) (timers e ++ tm :: ts) = Some tm.
Proof.
  unfold pending. induction (timers e) as [|x l IH]; simpl.
  - now rewrite Nat.eqb_refl.
  - destruct (Nat.eqb (handle x) (handle tm)); [discriminate | exact IH].
Qed.

Lemma pending_cleared (h : nat) (e : Env.t) : pending h (clearTimeout h e) = None.
Proof.
  unfold pending, clearTimeout. cbn.
  induction (timers e) as [|x l IH]; simpl; [reflexivity|].
  destruct (Nat.eqb (handle x) h) eqn:E; simpl; [exact IH | now rewrite E].
Qed.

Lemma pending_cleared_other (h h' : nat) (e : Env.t) :
  pending h' e = None -> pending h' (clearTimeout h e) = None.
Proof.
  unfold pending, clearTimeout. cbn.
  induction (timers e) as [|x l IH]; simpl; [reflexivity|].
  destruct (Nat.eqb (handle x) h') eqn:E'; [discriminate|].
  intro H. destruct (Nat.eqb (handle x) h); simpl; [now apply IH|].
  rewrite E'. now apply IH.
Qed.

Lemma object_updated (wid : nat) (f : Worker -> Worker) (w : Worker) (l : list Worker) :
  find (fun x => Nat.eqb (id x) wid) l = Some w ->
  id (f w) = id w ->
  find (fun x => Nat.eqb (id x) wid) (update wid f l) = Some (f w).
Proof.
  induction l as [|x l IH]; simpl; [discriminate|].
  destruct (Nat.eqb (id x) wid) eqn:E; intros H F.
  - injection H as ->. simpl. now rewrite F, E.
  - simpl. rewrite E. now apply IH.
Qed.

End Bouncing.

Section Timers.
Import Env OkanjoBroker Observe.

(** A due one-shot timer fires: it leaves the queue and its closure
    runs. *)
Lemma fire_due (tm : Timer) (b : OkanjoBroker.t) (e : Env.t) :
  pending (handle tm) e = Some tm -> period tm = None -> due tm <= now e ->
  Loop.fire (handle tm) b e =
    Some (Loop.run_callback (closure tm) b (clearTimeout (handle tm) e)).
Proof.
  intros P O D. unfold Loop.fire. rewrite P, O.
  apply Z.leb_le in D. now rewrite D.
Qed.

Lemma fire_early (tm : Timer) (b : OkanjoBroker.t) (e : Env.t) :
  pending (handle tm) e = Some tm -> now e < due tm ->
  Loop.fire (handle tm) b e = None.
Proof.
  intros P D. unfold Loop.fire. rewrite P.
  apply Z.leb_gt in D. now rewrite D.
Qed.

Lemma fire_cleared (h : nat) (b : OkanjoBroker.t) (e : Env.t) :
  pending h e = None -> Loop.fire h b e = None.
Proof. intro P. unfold Loop.fire. now rewrite P. Qed.

End Timers.

(** ** The shutdown directive *)

Lemma is_str_spec (s : string) (m : Js.value) :
  Js.is_str s (Some m) = true <-> m = Js.Str s.
Proof.
  destruct m; simpl; try (split; [discriminate | congruence]).
  split.
  - intro H. apply String.eqb_eq in H. now subst.
  - intro H. injection H as ->. apply String.eqb_refl.
Qed.

(** C8, as the code has it.  The message a bounce sends to the worker is
    the string ["suicide"], followed by the disconnect; and the message
    listener of the worker runtime runs [prepareForShutdown] on that
    string and ignores every other message. *)
Theorem shutdown_directive_is_suicide :
  (forall k worker b e,
      Env.lookup k e = Some worker ->
      Env.trace (snd (OkanjoBroker._bounceWorker k b e)) =
        Env.trace e ++ [Env.Sent (Env.id worker) "suicide"; Env.Disconnect (Env.id worker)])
  /\ (forall h w msg,
        OkanjoWorker.ready w ->
        (msg = Js.Str "suicide" ->
           OkanjoWorker.receive h msg w = OkanjoWorker.prepareForShutdown h [] w)
        /\ (msg <> Js.Str "suicide" -> OkanjoWorker.receive h msg w = Js.Normal w)).
Proof.
  split.
  - intros k worker b e L. now rewrite (bounce_found _ _ _ _ L).
  - intros h w msg (Run & _ & M & _ & _).
    unfold OkanjoWorker.receive. rewrite M. cbn [OkanjoWorker.call_all].
    rewrite Run. unfold OkanjoWorker.call.
    fold (Js.is_str OkanjoWorker.directive (Some msg)).
    split; intro H.
    + apply is_str_spec in H. unfold OkanjoWorker.directive. rewrite H.
      destruct (OkanjoWorker.prepareForShutdown h [] w); reflexivity.
    + destruct (Js.is_str OkanjoWorker.directive (Some msg)) eqn:E; [|reflexivity].
      apply is_str_spec in E. contradiction.
Qed.

Lemma shutdown_directive_is_suicide_witness :
  let s0 := Example.start "t" 1 boot in
  let w := OkanjoWorker.new OkanjoWorker.base false (OkanjoWorker.forked "t" "default") in
  Env.trace (snd (OkanjoBroker._bounceWorker "1" (fst s0) (snd s0))) =
    [Env.Forked 1 "t" "default"; Env.Sent 1 "suicide"; Env.Disconnect 1]
  /\ OkanjoWorker.receive OkanjoWorker.base (Js.Str "suicide") w =
       OkanjoWorker.prepareForShutdown OkanjoWorker.base [] w.
Proof.
  intros s0 w. split.
  - exact (proj1 shutdown_directive_is_suicide "1"
             (Env.mkWorker 1 "t" "default" None None true false true)
             (fst s0) (snd s0) eq_refl).
  - exact (proj1 (proj2 shutdown_directive_is_suicide OkanjoWorker.base w
                    (Js.Str "suicide") (new_ready _ _ false "t" "default")) eq_refl).
Defined.

(** C8 as stated names the string ["shutdown"].  A bounce does not send
    it, and a worker that receives it carries on running with its signal
    handlers in place. *)
Lemma shutdown_is_not_the_directive :
  let s0 := Example.start "t" 1 boot in
  let e1 := snd (OkanjoBroker._bounceWorker "1" (fst s0) (snd s0)) in
  let w := OkanjoWorker.new OkanjoWorker.base false (OkanjoWorker.forked "t" "default") in
  ~ In (Env.Sent 1 "shutdown") (Env.trace e1)
  /\ In (Env.Sent 1 "suicide") (Env.trace e1)
  /\ OkanjoWorker.receive OkanjoWorker.base (Js.Str "shutdown") w = Js.Normal w
  /\ OkanjoWorker.state (OkanjoWorker.process w) = OkanjoWorker.Running.
Proof.
  cbv zeta. split; [|split; [|split]].
  - cbn. intros [H|[H|[H|[]]]]; discriminate.
  - cbn. right. left. reflexivity.
  - reflexivity.
  - reflexivity.
Qed.

(** ** Recycling *)

Section Recycling.
Import Env OkanjoBroker Observe.

Lemma find_filter {A : Type} (p r : A -> bool) (l : list A) :
  find p (filter r l) = find (fun x => r x && p x) l.
Proof.
  induction l as [|x l IH]; simpl; [reflexivity|].
  destruct (r x); simpl; [now rewrite IH | exact IH].
Qed.

Lemma lookup_key (k : string) (w : Worker) (e : Env.t) :
  lookup k e = Some w -> key w = k /\ In w (workers e).
Proof.
  unfold lookup. intro H. apply find_some in H as [I E].
  apply String.eqb_eq in E. auto.
Qed.

(** Every key the loop enumerates is found, under the same id. *)
Lemma lookup_enumerated (w : Worker) (e : Env.t) :
  In w (workers e) -> exists w', lookup (key w) e = Some w' /\ id w' = id w.
Proof.
  unfold lookup. intro I.
  destruct (find (fun x => String.eqb (Js.to_string (id x)) (key w)) (workers e))
    as [w'|] eqn:F.
  - exists w'. split; [reflexivity|].
    apply find_some in F as [_ E]. apply String.eqb_eq in E.
    now apply to_string_inj.
  - exfalso. apply (find_none _ _ F) in I. unfold key in I.
    now rewrite String.eqb_refl in I.
Qed.

Variable pool : list string.

Lemma recycled_refl (w : Worker) : recycled pool w w.
Proof. now left. Qed.

Lemma recycled_trans (w1 w2 w3 : Worker) :
  recycled pool w1 w2 -> recycled pool w2 w3 -> recycled pool w1 w3.
Proof.
  intros [->|(I & h & ->)] [->|(I' & h' & ->)].
  - now left.
  - right. eauto.
  - right. eauto.
  - right. split; [exact I|]. exists h'. reflexivity.
Qed.

Lemma recycled_same (w w' : Worker) :
  recycled pool w w' ->
  id w' = id w /\ worker_type w' = worker_type w
  /\ dead w' = dead w /\ connected w' = connected w.
Proof. intros [->|(_ & h & ->)]; repeat split. Qed.

Lemma Forall2_recycled_refl (l : list Worker) : Forall2 (recycled pool) l l.
Proof. induction l; constructor; auto using recycled_refl. Qed.

Lemma Forall2_recycled_trans (l1 l2 l3 : list Worker) :
  Forall2 (recycled pool) l1 l2 -> Forall2 (recycled pool) l2 l3 ->
  Forall2 (recycled pool) l1 l3.
Proof.
  intro H. revert l3. induction H as [|x y l l' R _ IH]; intros l3 H3.
  - inversion H3. constructor.
  - inversion H3; subst. constructor; eauto using recycled_trans.
Qed.

Lemma Forall2_recycled_update (wid h : nat) (l : list Worker) :
  In (Js.to_string wid) pool ->
  Forall2 (recycled pool) l (update wid (bounced h) l).
Proof.
  intro I. induction l as [|w l IH]; simpl; [constructor|].
  destruct (Nat.eqb_spec (id w) wid) as [E|_].
  - constructor; [|apply Forall2_recycled_refl].
    right. split; [unfold key; now rewrite E | eauto].
  - constructor; [apply recycled_refl | exact IH].
Qed.

(** An assignment to the worker with the id of [x] changes an object at
    or before [x], never one behind it. *)
Lemma update_before (f : Worker -> Worker) (seen rest : list Worker) (x : Worker) :
  exists seen', update (id x) f (seen ++ x :: rest) = seen' ++ rest.
Proof.
  induction seen as [|a seen (seen' & IH)]; cbn [List.app update].
  - rewrite Nat.eqb_refl. now exists [f x].
  - destruct (Nat.eqb (id a) (id x)).
    + exists (f a :: seen ++ [x]). cbn. now rewrite <- app_assoc.
    + exists (a :: seen'). cbn. now rewrite IH.
Qed.

(** The loop of [recycleWorkers] over the keys of the workers registered
    among [rest], the objects it has not passed yet; [seen] are the
    objects it has passed. *)
Lemma recycle_keys_spec (b : OkanjoBroker.t) (seen rest : list Worker) (e : Env.t) :
  _workerIds b = pool ->
  objects (cluster e) = seen ++ rest ->
  exists e',
    recycle_keys (map key (filter registered rest)) b e = (b, e')
    /\ trace e' = trace e ++ recycle_calls pool (filter registered rest)
    /\ app e' = app e /\ now e' = now e
    /\ ids (cluster e') = ids (cluster e)
    /\ Forall2 (recycled pool) (objects (cluster e)) (objects (cluster e'))
    /\ exists new,
         timers e' = timers e ++ new
         /\ Forall (fun tm => exists wid, closure tm = DisconnectDeadline wid
                                          /\ In (Js.to_string wid) pool) new.
Proof.
  intro P. revert seen e. induction rest as [|x rest IH]; intros seen e Ob.
  - exists e. cbn. rewrite !app_nil_r.
    repeat split; auto using Forall2_recycled_refl.
    exists []. now rewrite app_nil_r.
  - assert (Next : objects (cluster e) = (seen ++ [x]) ++ rest)
      by (now rewrite <- app_assoc).
    cbn [filter]. destruct (registered x) eqn:Rx; [|exact (IH _ e Next)].
    cbn [map recycle_keys]. unfold recycle_calls. cbn [flat_map].
    fold (recycle_calls pool (filter registered rest)). rewrite P.
    destruct (0 <=? Js.indexOf pool (key x)) eqn:O.
    + destruct (lookup_enumerated x e) as (w' & Lw & Iw).
      { unfold workers. apply filter_In. split; [|exact Rx].
        rewrite Ob. apply in_or_app. right. now left. }
      rewrite (bounce_found _ _ _ _ Lw).
      set (e1 := Env.mk _ _ _ _ _ _).
      assert (K : In (Js.to_string (id w')) pool).
      { apply indexOf_In in O. unfold key in O. now rewrite Iw. }
      assert (F1 : Forall2 (recycled pool) (objects (cluster e)) (objects (cluster e1))).
      { apply Forall2_recycled_update. exact K. }
      destruct (update_before (bounced (next_handle e)) seen rest x) as (seen' & U).
      destruct (IH seen' e1) as (e' & R & T & A & N & I & F & new & Tm & Fn).
      { subst e1. cbn [cluster objects]. now rewrite Iw, Ob. }
      exists e'. rewrite R, T. subst e1. cbn [trace app now cluster ids objects timers] in *.
      unfold bounce_calls. rewrite Iw, <- app_assoc.
      repeat split; auto.
      * eapply Forall2_recycled_trans; eauto.
      * exists (deadline (next_handle e) (now e) (id w') :: new).
        rewrite Tm, <- app_assoc. split; [reflexivity|].
        constructor; [|exact Fn]. exists (id w'). split; [reflexivity | exact K].
    + destruct (IH _ e Next) as (e' & R & T & others).
      exists e'. rewrite R, T. cbn [app]. auto.
Qed.

End Recycling.

Section RecyclePass.
Import Env OkanjoBroker Observe.

Lemma recycle_spec (b : OkanjoBroker.t) (e : Env.t) :
  exists e',
    recycleWorkers b e = (b, e')
    /\ trace e' = trace e ++ recycle_calls (_workerIds b) (workers e)
    /\ app e' = app e /\ now e' = now e
    /\ ids (cluster e') = ids (cluster e)
    /\ Forall2 (recycled (_workerIds b)) (objects (cluster e)) (objects (cluster e'))
    /\ exists new,
         timers e' = timers e ++ new
         /\ Forall (fun tm => exists wid, closure tm = DisconnectDeadline wid
                                          /\ In (Js.to_string wid) (_workerIds b)) new.
Proof.
  unfold recycleWorkers, worker_keys, workers.
  exact (recycle_keys_spec (_workerIds b) b [] (objects (cluster e)) e eq_refl eq_refl).
Qed.

Lemma Forall2_In_left {A B : Type} (R : A -> B -> Prop) (l : list A) (l' : list B) (x : A) :
  Forall2 R l l' -> In x l -> exists y, In y l' /\ R x y.
Proof.
  induction 1 as [|a c l l' Rac _ IH]; simpl; [tauto|].
  intros [->|I]; [eauto|].
  destruct (IH I) as (y & Iy & Ry). eauto.
Qed.

Lemma recycle_calls_bounced (pool : list string) (ws : list Worker) (w : Worker) :
  In w ws ->
  (In (Sent (id w) directive) (recycle_calls pool ws) <-> In (key w) pool)
  /\ (In (Disconnect (id w)) (recycle_calls pool ws) <-> In (key w) pool).
Proof.
  intro I. unfold recycle_calls.
  split; (split; intro H;
    [ apply in_flat_map in H as (w' & _ & H);
      destruct (0 <=? Js.indexOf pool (key w')) eqn:O; [|destruct H];
      apply indexOf_In in O;
      destruct H as [H|[H|[]]]; try discriminate;
      injection H as H; unfold key in *; now rewrite <- H
    | apply in_flat_map; exists w; split; [exact I|];
      apply indexOf_In in H; rewrite H; simpl; auto ]).
Qed.

Lemma recycle_calls_skipped (pool : list string) (ws : list Worker) (w : Worker) :
  ~ In (key w) pool -> count (touches (id w)) (recycle_calls pool ws) = 0%nat.
Proof.
  intro N. induction ws as [|w0 ws IH]; [reflexivity|].
  unfold recycle_calls in *. cbn [flat_map]. rewrite count_app, IH, Nat.add_0_r.
  destruct (0 <=? Js.indexOf pool (key w0)) eqn:O; [|reflexivity].
  apply indexOf_In in O. unfold count. cbn.
  destruct (Nat.eqb_spec (id w0) (id w)) as [E|_]; [|reflexivity].
  exfalso. apply N. unfold key in *. now rewrite <- E.
Qed.

End RecyclePass.

(** C6.  One call of [recycleWorkers()] leaves the broker as it was and
    makes exactly the calls of one bounce, directive then disconnect, for
    each worker of the registry whose key is in this broker's
    [workerIds], in registry order.  So a worker of the registry is
    bounced if and only if its id is in the pool; on a worker whose id is
    not in the pool no call is made, its object is left as it was, and no
    timer is armed for it. *)
Theorem recycle_bounces_exactly_own_ids (b : OkanjoBroker.t) (e : Env.t) :
  let pool := OkanjoBroker._workerIds b in
  let s' := OkanjoBroker.recycleWorkers b e in
  let calls := Observe.recycle_calls pool (Env.workers e) in
  fst s' = b
  /\ Env.trace (snd s') = Env.trace e ++ calls
  /\ (forall w, In w (Env.workers e) ->
        (In (Env.Sent (Env.id w) "suicide") calls <-> In (Observe.key w) pool)
        /\ (In (Env.Disconnect (Env.id w)) calls <-> In (Observe.key w) pool))
  /\ (forall w, In w (Env.objects (Env.cluster e)) -> ~ In (Observe.key w) pool ->
        Observe.count (Observe.touches (Env.id w)) calls = 0%nat
        /\ In w (Env.objects (Env.cluster (snd s')))
        /\ (forall tm, In tm (Env.timers (snd s')) ->
                       Env.closure tm = Env.DisconnectDeadline (Env.id w) ->
                       In tm (Env.timers e))).
Proof.
  intros pool s' calls. subst s'.
  destruct (recycle_spec b e) as (e' & R & T & _ & _ & _ & F & new & Tm & Fn).
  rewrite R. cbn [fst snd]. fold pool in T, F, Fn. fold calls in T.
  split; [reflexivity|]. split; [exact T|]. split.
  - intros w I. now apply recycle_calls_bounced.
  - intros w I N. split; [now apply recycle_calls_skipped|]. split.
    + destruct (Forall2_In_left _ _ _ _ F I) as (w' & I' & [->|(K & _)]);
        [exact I' | contradiction].
    + intros tm It C. rewrite Tm in It. apply in_app_or in It as [It|It]; [exact It|].
      exfalso. rewrite Forall_forall in Fn.
      destruct (Fn tm It) as (wid & C' & K). rewrite C in C'.
      injection C' as <-. contradiction.
Qed.

Lemma recycle_bounces_exactly_own_ids_witness :
  let s1 := Example.start "a" 2 boot in
  let s2 := Example.start "c" 2 (snd s1) in
  let s3 := OkanjoBroker.recycleWorkers (fst s1) (snd s2) in
  let other := Env.mkWorker 3 "c" "default" None None true false true in
  Env.trace (snd s3) =
    Env.trace (snd s2)
    ++ [Env.Sent 1 "suicide"; Env.Disconnect 1; Env.Sent 2 "suicide"; Env.Disconnect 2]
  /\ In other (Env.objects (Env.cluster (snd s3))).
Proof.
  intros s1 s2 s3 other.
  destruct (recycle_bounces_exactly_own_ids (fst s1) (snd s2)) as (_ & T & _ & Sk).
  split.
  - exact T.
  - apply (Sk other).
    + vm_compute. auto.
    + vm_compute. intros [H|[H|[]]]; discriminate.
Defined.

(** Two brokers in one process: recycling the first bounces workers 1
    and 2 and leaves workers 3 and 4 of the second alone. *)
Example recycle_two_brokers :
  let '(a, e1) := Example.start "a" 2 boot in
  let '(c, e2) := Example.start "c" 2 e1 in
  OkanjoBroker._workerIds a = ["1"; "2"]
  /\ OkanjoBroker._workerIds c = ["3"; "4"]
  /\ Env.trace (snd (OkanjoBroker.recycleWorkers a e2)) =
       Env.trace e2
       ++ [Env.Sent 1 "suicide"; Env.Disconnect 1; Env.Sent 2 "suicide"; Env.Disconnect 2].
Proof. vm_compute. repeat split. Qed.

(** ** Draining *)

Section Draining.
Import Env OkanjoBroker Observe.

Lemma recycle_calls_quiet (ty : string) (pool : list string) (ws : list Worker) :
  count (is_ended ty) (recycle_calls pool ws) = 0%nat
  /\ count (is_death ty) (recycle_calls pool ws) = 0%nat
  /\ count is_fork (recycle_calls pool ws) = 0%nat.
Proof.
  induction ws as [|w ws (A & B & C)]; [repeat split|].
  unfold recycle_calls in *. cbn [flat_map]. rewrite !count_app, A, B, C.
  destruct (0 <=? Js.indexOf pool (key w)); repeat split.
Qed.

Lemma ended_events_count (ty : string) (xs : list exit_call) :
  count (is_ended ty) (ended_events ty xs) = List.length xs
  /\ count (is_death ty) (ended_events ty xs) = 0%nat
  /\ count is_fork (ended_events ty xs) = 0%nat.
Proof.
  induction xs as [|x xs (A & B & C)]; [repeat split|].
  unfold count, ended_events in *. cbn [map filter is_ended is_death is_fork].
  rewrite String.eqb_refl. cbn [List.length].
  rewrite A. repeat split; assumption.
Qed.

Lemma observe_exits_cons (x : exit_call) (xs : list exit_call)
      (b : OkanjoBroker.t) (e : Env.t) :
  observe_exits (x :: xs) (b, e) =
    observe_exits xs (on_exit (exited x) (snd (fst x)) (snd x) b e).
Proof. reflexivity. Qed.

(** Exits observed while the gate is open: one [worker_ended] each, one
    id fewer each, nothing forked. *)
Lemma observe_exits_draining (xs : list exit_call) (b : OkanjoBroker.t) (e : Env.t) :
  drainOpen b = true ->
  let s' := observe_exits xs (b, e) in
  drainOpen (fst s') = true
  /\ type (fst s') = type b
  /\ trace (snd s') = trace e ++ ended_events (type b) xs
  /\ List.length (_workerIds (fst s')) =
       (List.length (_workerIds b) - List.length xs)%nat.
Proof.
  revert b e. induction xs as [|x xs IH]; intros b e D; cbn zeta.
  - cbn. rewrite app_nil_r, Nat.sub_0_r. auto.
  - rewrite observe_exits_cons.
    rewrite on_exit_no_respawn by (rewrite D; apply andb_false_r).
    set (b1 := set_workerIds _ b).
    destruct (IH b1 (log (Emit (type b) (worker_ended (Js.to_string (id (exited x)))
                                           (snd (fst x)) (snd x) (id (exited x)))) e) D)
      as (D' & Ty & Tr & Len).
    rewrite D', Ty, Tr, Len. subst b1. cbn [type set_workerIds _workerIds trace log].
    rewrite splice_indexOf_length, <- app_assoc.
    repeat split. cbn [List.length]. lia.
Qed.

End Draining.

(** C4.  [drainWorkers()] opens the drain gate and makes one recycling
    pass over the registry, which leaves the pool as it is.  An exit
    observed while the gate is open emits [worker_ended] and forks
    nothing.  So when, after the drain, each worker of a pool of N exits
    once, in whatever order, the broker has emitted exactly N
    [worker_ended] events, no [worker_death], has forked no worker, and
    its pool is empty. *)
Theorem drain_ends_every_worker_without_replacement
    (b : OkanjoBroker.t) (e : Env.t) (xs : list Observe.exit_call) :
  Permutation (map (fun x => Observe.key (Observe.exited x)) xs)
    (OkanjoBroker._workerIds b) ->
  let ty := OkanjoBroker.type b in
  let pool := OkanjoBroker._workerIds b in
  let s1 := OkanjoBroker.drainWorkers b e in
  let s2 := Observe.observe_exits xs s1 in
  fst s1 = OkanjoBroker.set_drainOpen true b
  /\ Env.trace (snd s1) = Env.trace e ++ Observe.recycle_calls pool (Env.workers e)
  /\ (forall w code signal b' e',
        OkanjoBroker.drainOpen b' = true ->
        OkanjoBroker.on_exit w code signal b' e' =
          (OkanjoBroker.set_workerIds
             (Js.splice (OkanjoBroker._workerIds b')
                (Js.indexOf (OkanjoBroker._workerIds b') (Observe.key w)) 1) b',
           Env.log (Env.Emit (OkanjoBroker.type b')
                      (Env.worker_ended (Observe.key w) code signal (Env.id w))) e'))
  /\ Env.trace (snd s2) = Env.trace (snd s1) ++ Observe.ended_events ty xs
  /\ (exists new,
        Env.trace (snd s2) = Env.trace e ++ new
        /\ Observe.count (Observe.is_ended ty) new = List.length pool
        /\ Observe.count (Observe.is_death ty) new = 0%nat
        /\ Observe.count Observe.is_fork new = 0%nat)
  /\ OkanjoBroker._workerIds (fst s2) = []
  /\ OkanjoBroker.drainOpen (fst s2) = true.
Proof.
  intros P ty pool s1 s2.
  assert (Len : List.length xs = List.length pool).
  { apply Permutation_length in P. now rewrite length_map in P. }
  destruct (recycle_spec (OkanjoBroker.set_drainOpen true b) e)
    as (e1 & R & T & _).
  assert (S1 : s1 = (OkanjoBroker.set_drainOpen true b, e1)) by exact R.
  cbn [OkanjoBroker.set_drainOpen OkanjoBroker._workerIds] in T. fold pool in T.
  destruct (observe_exits_draining xs (OkanjoBroker.set_drainOpen true b) e1 eq_refl)
    as (D & _ & Tr & L).
  cbn [OkanjoBroker.set_drainOpen OkanjoBroker._workerIds OkanjoBroker.type] in Tr, L.
  fold ty pool in Tr, L.
  assert (S2 : s2 = Observe.observe_exits xs (OkanjoBroker.set_drainOpen true b, e1))
    by (unfold s2; now rewrite S1).
  rewrite <- S2 in D, Tr, L. rewrite S1. cbn [fst snd].
  split; [reflexivity|]. split; [exact T|]. split.
  { intros w code signal b' e' D'.
    apply on_exit_no_respawn. rewrite D'. apply andb_false_r. }
  split; [exact Tr|]. split.
  - exists (Observe.recycle_calls pool (Env.workers e) ++ Observe.ended_events ty xs).
    rewrite Tr, T, <- app_assoc. split; [reflexivity|].
    destruct (recycle_calls_quiet ty pool (Env.workers e)) as (A & B & C).
    destruct (ended_events_count ty xs) as (A' & B' & C').
    rewrite !count_app, A, B, C, A', B', C'. rewrite Len. repeat split.
  - split; [|exact D].
    apply length_zero_iff_nil. rewrite L. lia.
Qed.

Lemma drain_ends_every_worker_without_replacement_witness :
  let s0 := Example.start "t" 2 boot in
  let xs := [(Env.mkWorker 2 "t" "default" (Some true) (Some 1%nat) false true false,
              Some 0, None);
             (Env.mkWorker 1 "t" "default" (Some true) (Some 0%nat) false true false, None,
              Some "SIGTERM")] in
  let s2 := Observe.observe_exits xs (OkanjoBroker.drainWorkers (fst s0) (snd s0)) in
  OkanjoBroker._workerIds (fst s2) = []
  /\ Observe.count (Observe.is_ended "t") (Env.trace (snd s2)) = 2%nat.
Proof.
  intros s0 xs s2.
  destruct (drain_ends_every_worker_without_replacement (fst s0) (snd s0) xs)
    as (_ & _ & _ & _ & (new & Tr & E & _) & Ids & _).
  - apply perm_swap.
  - split; [exact Ids|].
    fold s2 in Tr. rewrite Tr, count_app.
    change (Observe.is_ended "t") with (Observe.is_ended (OkanjoBroker.type (fst s0))).
    rewrite E. reflexivity.
Defined.

(** ** The pool between turns of the event loop *)

Section Live.
Import Env OkanjoBroker Observe Loop.

Variable ty : string.







End Live.

Section Turns.
Import Env OkanjoBroker Observe Loop.

(** What the exit observer leaves of the environment besides the
    trace: the replacement's object, when it forks one. *)
Lemma on_exit_env (worker : Worker) (code : option Z) (signal : option string)
      (b : OkanjoBroker.t) (e : Env.t) :
  let e' := snd (on_exit worker code signal b e) in
  app e' = app e
  /\ objects (cluster e') =
       objects (cluster e)
       ++ (if negb (gracefulShutdown (app e)) && negb (drainOpen b)
           then fresh_workers (type b) (currentEnvironment (app e)) (ids (cluster e)) 1
           else []).
Proof.
  unfold on_exit. cbn [drainOpen set_workerIds type].
  destruct (negb (gracefulShutdown (app e)) && negb (drainOpen b)).
  - destruct (exitedAfterDisconnect worker) as [[|]|];
      rewrite spawn_once; split; reflexivity.
  - cbn. now rewrite app_nil_r.
Qed.


End Turns.

Section Invariant.
Import Env OkanjoBroker Observe Loop.





(** What the constructor returns when it does not throw. *)
Lemma new_spec (has_app : bool) (ty : string) (options : option Options)
      (e0 : Env.t) (s0 : state) :
  OkanjoBroker.new has_app ty options e0 = Js.Normal s0 ->
  let n := Z.to_nat (workerCount (fst s0)) in
  has_app = true
  /\ constructor_name (app e0) = "OkanjoApp"
  /\ type (fst s0) = ty
  /\ drainOpen (fst s0) = false
  /\ _workerIds (fst s0) = map Js.to_string (seq (S (ids (cluster e0))) n)
  /\ app (snd s0) = app e0
  /\ objects (cluster (snd s0)) =
       objects (cluster e0)
       ++ fresh_workers ty (currentEnvironment (app e0)) (ids (cluster e0)) n.
Proof.
  unfold OkanjoBroker.new.
  destruct (String.eqb_spec (if has_app then constructor_name (app e0) else "Object")
              "OkanjoApp") as [E|_]; [|discriminate].
  cbn [negb]. intro H. injection H as <-.
  unfold _init. rewrite spawn_many.
  cbn [set_workerIds type workerCount recycleRate drainOpen _workerIds fst snd app
       cluster objects].
  destruct has_app; [|discriminate].
  destruct (0 <? _); cbn; repeat split; auto.
Qed.

End Invariant.

(** ** Well-formed environments *)

Section WellFormed.
Import Env OkanjoBroker Observe Loop.

Lemma wf_same (e e' : Env.t) :
  cluster e' = cluster e -> timers e' = timers e -> next_handle e' = next_handle e ->
  well_formed e -> well_formed e'.
Proof. unfold well_formed. intros -> -> ->. auto. Qed.

Lemma update_ids (wid : nat) (f : Worker -> Worker) (l : list Worker) :
  (forall w, id (f w) = id w) -> map id (update wid f l) = map id l.
Proof.
  intro F. induction l as [|w l IH]; simpl; [reflexivity|].
  destruct (Nat.eqb (id w) wid); simpl; [now rewrite F | now rewrite IH].
Qed.

Lemma Forall_ids (P : nat -> Prop) (l : list Worker) :
  Forall (fun w => P (id w)) l <-> Forall P (map id l).
Proof. now rewrite Forall_map. Qed.

Lemma wf_modify (wid : nat) (f : Worker -> Worker) (e : Env.t) :
  (forall w, id (f w) = id w) -> well_formed e -> well_formed (modify wid f e).
Proof.
  intros F (N & B & T). unfold well_formed, modify. cbn.
  split; [now rewrite update_ids|]. split; [|exact T].
  apply (Forall_ids (fun i => (i <= ids (cluster e))%nat)).
  rewrite update_ids by exact F.
  now apply (Forall_ids (fun i => (i <= ids (cluster e))%nat)).
Qed.

Lemma wf_fork (ty envn : string) (e : Env.t) :
  well_formed e -> well_formed (snd (fork ty envn e)).
Proof.
  intros (N & B & T). unfold well_formed, fork. cbn.
  rewrite map_app. cbn. split; [|split; [|exact T]].
  - apply NoDup_app.
    + exact N.
    + repeat constructor. intros [].
    + intros x Ix [<-|[]].
      apply (Forall_ids (fun i => (i <= ids (cluster e))%nat)) in B.
      rewrite Forall_forall in B. specialize (B _ Ix). lia.
  - apply Forall_app. split.
    + eapply Forall_impl; [|exact B]. cbn. intros; lia.
    + repeat constructor.
Qed.

Lemma wf_setTimeout (cb : callback) (delay : Z) (e : Env.t) :
  well_formed e -> well_formed (snd (setTimeout cb delay e)).
Proof.
  intros (N & B & T). unfold well_formed, setTimeout. cbn.
  split; [exact N|]. split; [exact B|].
  apply Forall_app. split.
  - eapply Forall_impl; [|exact T]. cbn. intros; lia.
  - repeat constructor.
Qed.

Lemma wf_setInterval (cb : callback) (delay : Z) (e : Env.t) :
  well_formed e -> well_formed (snd (setInterval cb delay e)).
Proof.
  intros (N & B & T). unfold well_formed, setInterval. cbn.
  split; [exact N|]. split; [exact B|].
  apply Forall_app. split.
  - eapply Forall_impl; [|exact T]. cbn. intros; lia.
  - repeat constructor.
Qed.

Lemma wf_clearTimeout (h : nat) (e : Env.t) :
  well_formed e -> well_formed (clearTimeout h e).
Proof.
  intros (N & B & T). unfold well_formed, clearTimeout. cbn.
  split; [exact N|]. split; [exact B|].
  rewrite Forall_forall in *. intros tm I. apply filter_In in I as [I _]. auto.
Qed.

Lemma wf_log (x : effect) (e : Env.t) : well_formed e -> well_formed (log x e).
Proof. now apply wf_same. Qed.

Lemma wf_spawn (b : OkanjoBroker.t) (e : Env.t) :
  well_formed e -> well_formed (snd (_spawnWorker b e)).
Proof.
  intro W. unfold _spawnWorker.
  pose proof (wf_fork (type b) (currentEnvironment (app e)) e W) as F.
  destruct (fork (type b) (currentEnvironment (app e)) e). exact F.
Qed.

Lemma wf_spawn_many (n : nat) (b : OkanjoBroker.t) (e : Env.t) :
  well_formed e -> well_formed (snd (repeat_call n _spawnWorker b e)).
Proof.
  revert b e. induction n as [|n IH]; intros b e W; cbn [repeat_call]; [exact W|].
  pose proof (wf_spawn b e W) as S.
  destruct (_spawnWorker b e) as [b1 e1]. now apply IH.
Qed.

Lemma wf_on_exit (worker : Worker) (code : option Z) (signal : option string)
      (b : OkanjoBroker.t) (e : Env.t) :
  well_formed e -> well_formed (snd (on_exit worker code signal b e)).
Proof.
  intro W. unfold on_exit.
  destruct (negb (gracefulShutdown (app e)) && negb (drainOpen _)).
  - apply wf_spawn. destruct (exitedAfterDisconnect worker) as [[|]|];
      unfold emit, report; auto using wf_log.
  - now apply wf_log.
Qed.

Lemma wf_on_disconnect (worker : Worker) (b : OkanjoBroker.t) (e : Env.t) :
  well_formed e -> well_formed (snd (on_disconnect worker b e)).
Proof.
  intro W. unfold on_disconnect. cbn [snd]. apply wf_setTimeout.
  destruct (_disconnectTimer worker); auto using wf_clearTimeout.
Qed.

Lemma wf_bounce (k : string) (b : OkanjoBroker.t) (e : Env.t) :
  well_formed e -> well_formed (snd (_bounceWorker k b e)).
Proof.
  intro W. unfold _bounceWorker. destruct (lookup k e) as [w|].
  - pose proof (wf_setTimeout (DisconnectDeadline (id w)) disconnect_timeout
                  (send (id w) directive e) (wf_log _ _ W)) as S.
    destruct (setTimeout _ _ _) as [h e2]. cbn [snd] in *.
    unfold disconnect. apply wf_log. apply wf_modify; [reflexivity|].
    apply wf_modify; [reflexivity | exact S].
  - now apply wf_log.
Qed.

Lemma wf_recycle_keys (ks : list string) (b : OkanjoBroker.t) (e : Env.t) :
  well_formed e -> well_formed (snd (recycle_keys ks b e)).
Proof.
  revert b e. induction ks as [|k ks IH]; intros b e W; cbn [recycle_keys]; [exact W|].
  destruct (0 <=? Js.indexOf (_workerIds b) k).
  - pose proof (wf_bounce k b e W) as S.
    destruct (_bounceWorker k b e) as [b1 e1]. now apply IH.
  - now apply IH.
Qed.

Lemma wf_fire (h : nat) (b : OkanjoBroker.t) (e : Env.t) (s' : state) :
  fire h b e = Some s' -> well_formed e -> well_formed (snd s').
Proof.
  unfold fire. destruct (pending h e) as [tm|] eqn:P; [|discriminate].
  destruct (due tm <=? now e); [|discriminate].
  intros H W. injection H as <-.
  set (e2 := match period tm with None => _ | Some p => _ end).
  assert (W2 : well_formed e2).
  { subst e2. pose proof (wf_clearTimeout h e W) as (N & B & T).
    destruct (period tm) as [p|]; [|now repeat split].
    split; [exact N|]. split; [exact B|]. cbn.
    apply Forall_app. split; [exact T|]. repeat constructor. cbn.
    unfold pending in P. apply find_some in P as [I E].
    apply Nat.eqb_eq in E.
    destruct W as (_ & _ & Tm). rewrite Forall_forall in Tm.
    specialize (Tm _ I). lia. }
  destruct (closure tm) as [w|w|t]; cbn [run_callback].
  - now apply wf_log.
  - destruct (negb (isDead w e2)); [now apply wf_log | exact W2].
  - destruct (String.eqb t (type b)); [|exact W2].
    now apply wf_recycle_keys.
Qed.

End WellFormed.

Section Reachable.
Import Env OkanjoBroker Observe Loop.

Lemma wf_step (a : action) (s s' : state) :
  step a s = Some s' -> well_formed (snd s) -> well_formed (snd s').
Proof.
  destruct s as [b e]. cbn [snd].
  destruct a as [wid code signal|wid|wid msg|h|dt| | | |flag|ty']; cbn [step]; intros H W.
  - destruct (object wid e) as [w|]; [|discriminate].
    destruct (dead w); [discriminate|].
    assert (W1 : well_formed (modify wid mark_dead e)) by now apply wf_modify.
    destruct (owns b w); injection H as <-; [now apply wf_on_exit | exact W1].
  - destruct (object wid e) as [w|]; [|discriminate].
    destruct (connected w); [|discriminate].
    assert (W1 : well_formed (modify wid mark_disconnected e)) by now apply wf_modify.
    destruct (owns b w); injection H as <-; [now apply wf_on_disconnect | exact W1].
  - destruct (object wid e) as [w|]; [|discriminate].
    destruct (connected w && owns b w); [|discriminate].
    destruct (on_message w msg b e) as [s1|err] eqn:M; injection H as <-; [|exact W].
    unfold on_message in M.
    destruct (String.eqb (Js.typeof msg) "object").
    + destruct (Js.get_type msg) as [t|]; [|discriminate].
      destruct (Js.is_str "ops" t); injection M as <-; now apply wf_log.
    + injection M as <-. now apply wf_log.
  - now apply (wf_fire h b e).
  - destruct (0 <=? dt); [|discriminate]. injection H as <-. now apply (wf_same e).
  - injection H as <-. now apply wf_recycle_keys.
  - injection H as <-. now apply wf_recycle_keys.
  - injection H as <-. now apply wf_spawn_many.
  - injection H as <-. now apply (wf_same e).
  - destruct (String.eqb ty' (type b)); [discriminate|].
    injection H as <-. now apply wf_fork.
Qed.


Lemma wf_new (has_app : bool) (ty : string) (options : option Options)
      (e0 : Env.t) (s0 : state) :
  OkanjoBroker.new has_app ty options e0 = Js.Normal s0 ->
  well_formed e0 -> well_formed (snd s0).
Proof.
  unfold OkanjoBroker.new.
  destruct (negb _); [discriminate|]. intros H W. injection H as <-.
  unfold _init.
  set (b1 := set_workerIds [] _).
  pose proof (wf_spawn_many (Z.to_nat (workerCount b1)) b1 e0 W) as S.
  destruct (repeat_call _ _ b1 e0) as [b2 e2]. cbn [snd] in S.
  destruct (0 <? recycleRate b2); [now apply wf_setInterval | exact S].
Qed.

Lemma wf_boot : well_formed boot.
Proof. repeat split; constructor. Qed.

Lemma wf_started (ty : string) (n : Z) : well_formed (snd (Example.start ty n boot)).
Proof.
  unfold Example.start.
  destruct (OkanjoBroker.new true ty (opts n) boot) as [s|err] eqn:N.
  - exact (wf_new _ _ _ _ _ N wf_boot).
  - exact wf_boot.
Qed.

(** Distinct ids: two objects of the heap with the same id are the same
    object. *)
Lemma same_id_same_object (l : list Worker) (x y : Worker) :
  NoDup (map id l) -> In x l -> In y l -> id x = id y -> x = y.
Proof.
  induction l as [|w l IH]; cbn; [tauto|].
  intros N Ix Iy E. apply NoDup_cons_iff in N as [Nw Nl].
  destruct Ix as [->|Ix], Iy as [->|Iy]; auto.
  - contradict Nw. rewrite E. now apply in_map.
  - contradict Nw. rewrite <- E. now apply in_map.
Qed.

(** In a well-formed environment the worker a key looks up is the
    object its id names. *)
Lemma wf_lookup_object (k : string) (w : Worker) (e : Env.t) :
  well_formed e -> lookup k e = Some w -> object (id w) e = Some w.
Proof.
  intros (N & _) L. apply lookup_key in L as (_ & I).
  apply filter_In in I as [I _]. unfold object.
  destruct (find (fun x => Nat.eqb (id x) (id w)) (objects (cluster e))) as [w'|] eqn:F.
  - apply find_some in F as [I' E]. apply Nat.eqb_eq in E.
    f_equal. now apply (same_id_same_object (objects (cluster e))).
  - apply (find_none _ _ F) in I. now rewrite Nat.eqb_refl in I.
Qed.

(** In a well-formed environment the next handle is not in use. *)
Lemma wf_pending_fresh (e : Env.t) :
  well_formed e -> pending (next_handle e) e = None.
Proof.
  intros (_ & _ & T). unfold pending.
  destruct (find _ (timers e)) as [tm|] eqn:F; [|reflexivity].
  apply find_some in F as [I E]. apply Nat.eqb_eq in E.
  rewrite Forall_forall in T. specialize (T _ I). lia.
Qed.

(** Timer handles are handed out increasingly: no turn of the loop
    lowers the next handle. *)
Lemma handles_bounce (k : string) (b : OkanjoBroker.t) (e : Env.t) :
  (next_handle e <= next_handle (snd (_bounceWorker k b e)))%nat.
Proof.
  unfold _bounceWorker. destruct (lookup k e) as [w|]; cbn; lia.
Qed.

Lemma handles_recycle_keys (ks : list string) (b : OkanjoBroker.t) (e : Env.t) :
  (next_handle e <= next_handle (snd (recycle_keys ks b e)))%nat.
Proof.
  revert b e. induction ks as [|k ks IH]; intros b e; cbn [recycle_keys]; [cbn; lia|].
  destruct (0 <=? Js.indexOf (_workerIds b) k); [|apply IH].
  pose proof (handles_bounce k b e) as H.
  destruct (_bounceWorker k b e) as [b1 e1].
  specialize (IH b1 e1). cbn [snd] in *. lia.
Qed.

Lemma handles_step (a : action) (s s' : state) :
  step a s = Some s' -> (next_handle (snd s) <= next_handle (snd s'))%nat.
Proof.
  destruct s as [b e]. cbn [snd].
  destruct a as [wid code signal|wid|wid msg|h|dt| | | |flag|ty']; cbn [step]; intro H.
  - destruct (object wid e) as [w|]; [|discriminate].
    destruct (dead w); [discriminate|].
    destruct (owns b w); injection H as <-; [|cbn; lia].
    unfold on_exit.
    destruct (negb _ && negb _); [|cbn; lia].
    destruct (exitedAfterDisconnect (mark_dead w)) as [[|]|]; rewrite spawn_once; cbn; lia.
  - destruct (object wid e) as [w|]; [|discriminate].
    destruct (connected w); [|discriminate].
    destruct (owns b w); injection H as <-; [|cbn; lia].
    unfold on_disconnect. destruct (_disconnectTimer _); cbn; lia.
  - destruct (object wid e) as [w|]; [|discriminate].
    destruct (connected w && owns b w); [|discriminate].
    destruct (on_message w msg b e) as [s1|err] eqn:M; injection H as <-; [|cbn; lia].
    unfold on_message in M.
    destruct (String.eqb (Js.typeof msg) "object").
    + destruct (Js.get_type msg) as [t|]; [|discriminate].
      destruct (Js.is_str "ops" t); injection M as <-; cbn; lia.
    + injection M as <-. cbn; lia.
  - unfold fire in H. destruct (pending h e) as [tm|]; [|discriminate].
    destruct (due tm <=? now e); [|discriminate]. injection H as <-.
    set (e2 := match period tm with None => _ | Some p => _ end).
    assert (E2 : next_handle e2 = next_handle e) by (subst e2; now destruct (period tm)).
    destruct (closure tm) as [w|w|t]; cbn [run_callback].
    + cbn. lia.
    + destruct (negb (isDead w e2)); cbn; lia.
    + destruct (String.eqb t (type b)); [|cbn; lia].
      pose proof (handles_recycle_keys (worker_keys e2) b e2). unfold recycleWorkers. lia.
  - destruct (0 <=? dt); [|discriminate]. injection H as <-. cbn. lia.
  - injection H as <-. apply handles_recycle_keys.
  - injection H as <-. apply (handles_recycle_keys _ (set_drainOpen true b)).
  - injection H as <-. unfold resumeWorkers. rewrite spawn_many. cbn. lia.
  - injection H as <-. cbn. lia.
  - destruct (String.eqb ty' (type b)); [discriminate|]. injection H as <-. cbn. lia.
Qed.

Lemma handles_run (tr : list action) (s s' : state) :
  run tr s = Some s' -> (next_handle (snd s) <= next_handle (snd s'))%nat.
Proof.
  revert s. induction tr as [|a tr IH]; intros s H; cbn [run] in H.
  - injection H as <-. lia.
  - destruct (step a s) as [s1|] eqn:S; [|discriminate].
    apply handles_step in S. apply IH in H. lia.
Qed.

End Reachable.

Section PoolIdentity.
Import Env OkanjoBroker Observe Loop.

Variable ty : string.

Lemma own_keys_app (l1 l2 : list Worker) :
  own_keys ty (l1 ++ l2) = own_keys ty l1 ++ own_keys ty l2.
Proof. unfold own_keys. now rewrite filter_app, map_app. Qed.

Lemma own_keys_fresh_same (envn : string) (k n : nat) :
  own_keys ty (fresh_workers ty envn k n) = map Js.to_string (seq (S k) n).
Proof.
  unfold own_keys, fresh_workers. generalize (S k).
  induction n as [|n IH]; intro j; simpl; [reflexivity|].
  rewrite String.eqb_refl. simpl. now rewrite IH.
Qed.

Lemma own_keys_fresh_other (ty' envn : string) (k n : nat) :
  ty' <> ty -> own_keys ty (fresh_workers ty' envn k n) = [].
Proof.
  intro N. unfold own_keys, fresh_workers. generalize (S k).
  induction n as [|n IH]; intro j; simpl; [reflexivity|].
  destruct (String.eqb_spec ty' ty); [contradiction|]. simpl. apply IH.
Qed.

Lemma own_keys_update_same (wid : nat) (f : Worker -> Worker) (l : list Worker) :
  (forall w, id (f w) = id w /\ worker_type (f w) = worker_type w /\ dead (f w) = dead w) ->
  own_keys ty (update wid f l) = own_keys ty l.
Proof.
  intro F. unfold own_keys. induction l as [|w l IH]; simpl; [reflexivity|].
  destruct (Nat.eqb (id w) wid); simpl.
  - destruct (F w) as (I & -> & ->).
    destruct (String.eqb (worker_type w) ty && negb (dead w)); simpl; now rewrite ?I.
  - destruct (String.eqb (worker_type w) ty && negb (dead w)); simpl; now rewrite IH.
Qed.

Lemma own_keys_recycled (pool : list string) (l l' : list Worker) :
  Forall2 (recycled pool) l l' -> own_keys ty l' = own_keys ty l.
Proof.
  unfold own_keys. induction 1 as [|x y l l' R _ IH]; simpl; [reflexivity|].
  destruct (recycled_same _ _ _ R) as (I & -> & -> & _).
  destruct (String.eqb (worker_type x) ty && negb (dead x)); simpl; now rewrite IH, ?I.
Qed.

Lemma own_keys_length (l : list Worker) : List.length (own_keys ty l) = live ty l.
Proof. unfold own_keys, live. apply length_map. Qed.

(** The exit of a live worker of type [ty] takes its key, which occurs
    once before any other occurrence could, out of the keys. *)
Lemma own_keys_mark_dead (wid : nat) (w : Worker) (l : list Worker) :
  find (fun x => Nat.eqb (id x) wid) l = Some w ->
  dead w = false ->
  if String.eqb (worker_type w) ty then
    exists l1 l2,
      own_keys ty l = l1 ++ Js.to_string (id w) :: l2
      /\ ~ In (Js.to_string (id w)) l1
      /\ own_keys ty (update wid mark_dead l) = l1 ++ l2
  else own_keys ty (update wid mark_dead l) = own_keys ty l.
Proof.
  unfold own_keys. induction l as [|x l IH]; simpl; [discriminate|].
  destruct (Nat.eqb_spec (id x) wid) as [E|N]; intros H D.
  - injection H as ->. simpl. rewrite D.
    destruct (String.eqb (worker_type w) ty); simpl; [|reflexivity].
    exists [], (map (fun w0 => Js.to_string (id w0))
                  (filter (fun w0 => String.eqb (worker_type w0) ty && negb (dead w0)) l)).
    repeat split. intros [].
  - specialize (IH H D). simpl.
    assert (Iw : id w = wid).
    { apply find_some in H as [_ Ew]. now apply Nat.eqb_eq in Ew. }
    destruct (String.eqb (worker_type w) ty).
    + destruct IH as (l1 & l2 & E1 & N1 & E2).
      destruct (String.eqb (worker_type x) ty && negb (dead x)); simpl.
      * exists (Js.to_string (id x) :: l1), l2. rewrite E1, E2.
        repeat split. intros [Ex|In1]; [|contradiction].
        apply to_string_inj in Ex. congruence.
      * exists l1, l2. auto.
    + destruct (String.eqb (worker_type x) ty && negb (dead x)); simpl; now rewrite IH.
Qed.

End PoolIdentity.

Section PoolTurns.
Import Env OkanjoBroker Observe Loop.

(** Every turn of the loop keeps the pool equal to the keys of the live
    workers the broker forked. *)
Lemma step_pool (a : action) (s s' : state) :
  step a s = Some s' -> pool_is_live_workers s -> pool_is_live_workers s'.
Proof.
  destruct s as [b e]. unfold pool_is_live_workers. cbn [fst snd].
  destruct a as [wid code signal|wid|wid msg|h|dt| | | |flag|ty']; cbn [step]; intros H P.
  - (* Exit *)
    destruct (object wid e) as [w|] eqn:O; [|discriminate].
    destruct (dead w) eqn:D; [discriminate|].
    pose proof (own_keys_mark_dead (type b) wid w _ O D) as K.
    unfold owns in H.
    destruct (String.eqb (worker_type w) (type b)); injection H as <-.
    + destruct K as (l1 & l2 & E1 & N1 & E2).
      destruct (on_exit_fields (mark_dead w) code signal b (modify wid mark_dead e))
        as (T & _).
      destruct (on_exit_env (mark_dead w) code signal b (modify wid mark_dead e))
        as (_ & Ob).
      rewrite T, Ob, on_exit_workerIds, own_keys_app.
      cbn [modify set_cluster cluster objects app ids mark_dead id].
      rewrite E2, P, E1, indexOf_first, splice_middle by exact N1.
      f_equal. unfold respawned. cbn [app modify set_cluster cluster ids].
      destruct (negb (gracefulShutdown (app e)) && negb (drainOpen b));
        [now rewrite own_keys_fresh_same | reflexivity].
    + cbn [fst snd modify set_cluster cluster objects]. now rewrite K.
  - (* Disconnected *)
    destruct (object wid e) as [w|]; [|discriminate].
    destruct (connected w); [|discriminate].
    assert (K : own_keys (type b) (update wid mark_disconnected (objects (cluster e)))
                = own_keys (type b) (objects (cluster e))).
    { apply own_keys_update_same. intro x. repeat split. }
    destruct (owns b w); injection H as <-.
    + unfold on_disconnect, setTimeout, clearTimeout, set_timers, modify, set_cluster.
      destruct (_disconnectTimer (mark_disconnected w));
        cbn [fst snd cluster objects type _workerIds]; now rewrite K.
    + unfold modify, set_cluster. cbn [fst snd cluster objects type _workerIds].
      now rewrite K.
  - (* Message *)
    destruct (object wid e) as [w|]; [|discriminate].
    destruct (connected w && owns b w); [|discriminate].
    destruct (on_message w msg b e) as [s1|err] eqn:M; injection H as <-; [|exact P].
    unfold on_message in M.
    destruct (String.eqb (Js.typeof msg) "object").
    + destruct (Js.get_type msg) as [t|]; [|discriminate].
      destruct (Js.is_str "ops" t); injection M as <-; exact P.
    + injection M as <-. exact P.
  - (* Fire *)
    unfold fire in H. destruct (pending h e) as [tm|]; [|discriminate].
    destruct (due tm <=? now e); [|discriminate]. injection H as <-.
    set (e2 := match period tm with None => _ | Some p => _ end).
    assert (C2 : cluster e2 = cluster e) by (subst e2; now destruct (period tm)).
    destruct (closure tm) as [w|w|t]; cbn [run_callback].
    + cbn. now rewrite C2.
    + destruct (negb (isDead w e2)); cbn; now rewrite C2.
    + destruct (String.eqb t (type b)); [|cbn; now rewrite C2].
      destruct (recycle_spec b e2) as (e' & R & _ & _ & _ & _ & F & _).
      rewrite R. cbn [fst snd]. rewrite (own_keys_recycled _ _ _ _ F). now rewrite C2.
  - destruct (0 <=? dt); [|discriminate]. injection H as <-. exact P.
  - injection H as <-.
    destruct (recycle_spec b e) as (e' & R & _ & _ & _ & _ & F & _).
    rewrite R. cbn [fst snd]. now rewrite (own_keys_recycled _ _ _ _ F).
  - injection H as <-. unfold drainWorkers.
    destruct (recycle_spec (set_drainOpen true b) e) as (e' & R & _ & _ & _ & _ & F & _).
    rewrite R. cbn [fst snd set_drainOpen type _workerIds].
    now rewrite (own_keys_recycled _ _ _ _ F).
  - injection H as <-. unfold resumeWorkers. rewrite spawn_many.
    cbn [fst snd set_drainOpen set_workerIds type _workerIds cluster objects].
    now rewrite own_keys_app, own_keys_fresh_same, P.
  - injection H as <-. exact P.
  - destruct (String.eqb_spec ty' (type b)) as [|N]; [discriminate|].
    injection H as <-. cbn.
    change (_workerIds b =
            own_keys (type b)
              (objects (cluster e)
                 ++ fresh_workers ty' (currentEnvironment (app e)) (ids (cluster e)) 1)).
    now rewrite own_keys_app, own_keys_fresh_other, app_nil_r.
Qed.

Lemma run_pool (tr : list action) (s s' : state) :
  run tr s = Some s' -> pool_is_live_workers s -> pool_is_live_workers s'.
Proof.
  revert s. induction tr as [|a tr IH]; intros s H P; cbn [run] in H.
  - now injection H as <-.
  - destruct (step a s) as [s1|] eqn:S; [|discriminate]. eauto using step_pool.
Qed.

(** The broker the constructor returns lists the workers it forked,
    provided no live worker of its type existed before. *)
Lemma new_pool (has_app : bool) (ty : string) (options : option Options)
      (e0 : Env.t) (s0 : state) :
  OkanjoBroker.new has_app ty options e0 = Js.Normal s0 ->
  live ty (objects (cluster e0)) = 0%nat ->
  pool_is_live_workers s0.
Proof.
  intros N L. destruct (new_spec _ _ _ _ _ N) as (_ & _ & Ty & _ & Ids & _ & Ob).
  unfold pool_is_live_workers. rewrite Ids, Ty, Ob, own_keys_app, own_keys_fresh_same.
  rewrite <- own_keys_length in L. apply length_zero_iff_nil in L. now rewrite L.
Qed.

(** So the exit observer of a live worker always finds the worker's id
    in the pool. *)
Lemma exit_finds_id (s : state) (wid : nat) (w : Worker) :
  pool_is_live_workers s ->
  object wid (snd s) = Some w -> dead w = false -> owns (fst s) w = true ->
  In (Js.to_string (id w)) (_workerIds (fst s)).
Proof.
  unfold pool_is_live_workers, own_keys, object, owns. intros -> O D Ow.
  apply find_some in O as [I _].
  apply in_map_iff. exists w. split; [reflexivity|].
  apply filter_In. split; [exact I|]. now rewrite Ow, D.
Qed.



End PoolTurns.

(** The constructor throws when it is not handed the application. *)
Example new_without_app (ty : string) (options : option OkanjoBroker.Options) (e : Env.t) :
  OkanjoBroker.new false ty options e =
    Js.Throw "You need to provide the current app context when making a broker. Got: Object".
Proof. reflexivity. Qed.





(** ** The id the exit observer removes *)

(** C10.  The exit observer removes the id with
    [splice(indexOf(id), 1)].  When the id is in the pool this deletes
    its first occurrence and nothing else.  When the id is not in the
    pool, [indexOf] answers [-1] and the splice deletes the last element,
    the most recently spawned id, so a non-empty pool does not stay as it
    was.  The second case does not arise while each worker exits at most
    once: in every state a broker reaches after its construction, the id
    of each live worker it forked is in the pool. *)
Theorem exit_removal_of_absent_id_drops_last :
  (forall (worker : Env.Worker) (code : option Z) (signal : option string)
          (b : OkanjoBroker.t) (e : Env.t),
      let wid := Js.to_string (Env.id worker) in
      let pool := OkanjoBroker._workerIds b in
      let pool' :=
        OkanjoBroker._workerIds (fst (OkanjoBroker.on_exit worker code signal b e)) in
      (In wid pool ->
         exists l1 l2, pool = l1 ++ wid :: l2 /\ ~ In wid l1
                       /\ pool' = (l1 ++ l2) ++ Observe.respawned b e)
      /\ (~ In wid pool ->
            Js.indexOf pool wid = -1
            /\ pool' = removelast pool ++ Observe.respawned b e
            /\ (pool <> [] ->
                  pool = removelast pool ++ [last pool ""]
                  /\ removelast pool <> pool)))
  /\ (forall (ty : string) (options : option OkanjoBroker.Options) (e0 : Env.t)
             (s0 s : OkanjoBroker.state) (tr : list Loop.action)
             (wid : nat) (w : Env.Worker),
        OkanjoBroker.new true ty options e0 = Js.Normal s0 ->
        Loop.live ty (Env.objects (Env.cluster e0)) = 0%nat ->
        Loop.run tr s0 = Some s ->
        Env.object wid (snd s) = Some w ->
        Env.dead w = false ->
        Loop.owns (fst s) w = true ->
        In (Js.to_string (Env.id w)) (OkanjoBroker._workerIds (fst s))).
Proof.
  split.
  - intros worker code signal b e wid pool pool'.
    subst pool'. rewrite on_exit_workerIds. fold wid pool.
    split; intro H.
    + destruct (splice_indexOf_present pool wid H) as (l1 & l2 & E & N & S).
      exists l1, l2. now rewrite S.
    + split; [now apply indexOf_absent|].
      split; [now rewrite splice_indexOf_absent|].
      intro NE. split; [now apply app_removelast_last|].
      intro C. apply (f_equal (@List.length string)) in C.
      destruct pool as [|x l] using rev_ind; [congruence|].
      rewrite removelast_last, length_app in C. simpl in C. lia.
  - intros ty options e0 s0 s tr wid w N L R O D Ow.
    apply (exit_finds_id s wid w); auto.
    apply (run_pool tr s0 s R). now apply (new_pool true ty options e0).
Qed.

Lemma exit_removal_of_absent_id_drops_last_witness :
  (* worker 1 exits while the pool is ["1"; "2"], gate open: "1" goes *)
  OkanjoBroker._workerIds
    (fst (OkanjoBroker.on_exit Example.crashed None None
            (OkanjoBroker.mk "t" 2 0 false true ["1"; "2"]) boot)) = ["2"]
  (* worker 1 exits again, its id no longer there: "3" goes instead *)
  /\ OkanjoBroker._workerIds
       (fst (OkanjoBroker.on_exit Example.crashed None None
               (OkanjoBroker.mk "t" 2 0 false true ["2"; "3"]) boot)) = ["2"]
  (* after a crash and its replacement, the id of worker 2 is in the pool *)
  /\ exists s,
       Loop.run [Loop.Exit 1 (Some 1) None] (Example.start "t" 1 boot) = Some s
       /\ In "2" (OkanjoBroker._workerIds (fst s)).
Proof.
  split; [|split].
  - destruct (proj1 (proj1 exit_removal_of_absent_id_drops_last Example.crashed None None
                       (OkanjoBroker.mk "t" 2 0 false true ["1"; "2"]) boot))
      as (l1 & l2 & E & N & ->).
    + simpl. left. reflexivity.
    + destruct l1 as [|x l1]; [now inversion E|].
      inversion E; subst. exfalso. apply N. now left.
  - destruct (proj2 (proj1 exit_removal_of_absent_id_drops_last Example.crashed None None
                       (OkanjoBroker.mk "t" 2 0 false true ["2"; "3"]) boot))
      as (_ & -> & _).
    + simpl. intros [H|[H|[]]]; discriminate.
    + reflexivity.
  - assert (N : OkanjoBroker.new true "t" (opts 1) boot = Js.Normal (Example.start "t" 1 boot))
      by (vm_compute; reflexivity).
    assert (R : exists s, Loop.run [Loop.Exit 1 (Some 1) None] (Example.start "t" 1 boot)
                          = Some s
                          /\ Env.object 2 (snd s)
                             = Some (Env.mkWorker 2 "t" "default" None None true false true)
                          /\ Loop.owns (fst s) (Env.mkWorker 2 "t" "default" None None true false true)
                             = true).
    { eexists. split; [vm_compute; reflexivity|]. repeat split. }
    destruct R as (s & R & O & Ow).
    exists s. split; [exact R|].
    exact (proj2 exit_removal_of_absent_id_drops_last "t" (opts 1) boot _ s _ 2%nat
             (Env.mkWorker 2 "t" "default" None None true false true)
             N eq_refl R O eq_refl Ow).
Defined.

(** * Further properties of the code *)

(** ** Construction *)

Section Construction.
Import Env OkanjoBroker Observe More.

(** What a successful construction leaves behind, field by field. *)
Lemma new_explicit (ty : string) (options : option Options) (e : Env.t) :
  constructor_name (app e) = "OkanjoApp" ->
  let c := configured ty options in
  let n := Z.to_nat (workerCount c) in
  let k := ids (cluster e) in
  let armed := 0 <? recycleRate c in
  OkanjoBroker.new true ty options e =
    Js.Normal
      (set_workerIds (map Js.to_string (seq (S k) n)) c,
       Env.mk (app e)
         (mkCluster (k + n)
            (objects (cluster e) ++ fresh_workers ty (currentEnvironment (app e)) k n))
         (timers e ++ (if armed then [recycle_interval (next_handle e) (now e) c] else []))
         (if armed then S (next_handle e) else next_handle e)
         (now e)
         (trace e ++ map (fun i => Forked i ty (currentEnvironment (app e))) (seq (S k) n))).
Proof.
  intros A c n k armed. unfold OkanjoBroker.new. rewrite A. cbn [String.eqb negb].
  replace (negb ("OkanjoApp" =? "OkanjoApp")%string) with false by reflexivity.
  fold (configured ty options). fold c.
  unfold _init. rewrite spawn_many.
  cbn [set_workerIds type workerCount recycleRate drainOpen _workerIds debug
       app cluster ids objects timers next_handle now trace].
  replace (_workerIds c) with (@nil string) by reflexivity.
  replace (type c) with ty by reflexivity.
  cbn [List.app]. fold n k armed.
  destruct armed; [|now rewrite app_nil_r].
  reflexivity.
Qed.

Lemma count_forks (ty envn : string) (k n : nat) :
  count is_fork (map (fun i => Forked i ty envn) (seq k n)) = n.
Proof.
  unfold count. revert k. induction n as [|n IH]; intro k; simpl; [reflexivity|].
  now rewrite IH.
Qed.

(** A construction that returns found the application. *)
Lemma new_normal (has_app : bool) (ty : string) (options : option Options)
      (e : Env.t) (s : state) :
  OkanjoBroker.new has_app ty options e = Js.Normal s ->
  OkanjoBroker.new true ty options e = Js.Normal s
  /\ constructor_name (app e) = "OkanjoApp".
Proof.
  intro N. destruct (new_spec _ _ _ _ _ N) as (H & A & _). subst has_app. auto.
Qed.

End Construction.

(** X2.  Without options, or with an options object that sets none of
    the three fields, the constructor builds a broker for one worker, with
    recycling off, debugging off and the drain gate closed; it forks
    exactly one worker and arms no timer. *)
Theorem construction_defaults (ty : string) (options : option OkanjoBroker.Options) (e : Env.t) :
  Env.constructor_name (Env.app e) = "OkanjoApp" ->
  options = None \/ options = Some (OkanjoBroker.mkOptions None None None) ->
  let k := Env.ids (Env.cluster e) in
  exists e',
    OkanjoBroker.new true ty options e =
      Js.Normal (OkanjoBroker.mk ty 1 0 false false [Js.to_string (S k)], e')
    /\ Env.trace e' = Env.trace e ++ [Env.Forked (S k) ty (Env.currentEnvironment (Env.app e))]
    /\ Env.timers e' = Env.timers e
    /\ Env.workers e' =
         Env.workers e
         ++ [Env.mkWorker (S k) ty (Env.currentEnvironment (Env.app e))
               None None true false true].
Proof.
  intros A O k. rewrite (new_explicit ty options e A).
  destruct O as [-> | ->]; cbn -[Js.to_string]; eexists; (split; [reflexivity|]);
    rewrite ?app_nil_r; repeat split;
    unfold Env.workers; cbn; now rewrite filter_app.
Qed.

Lemma construction_defaults_witness :
  exists e',
    OkanjoBroker.new true "basic" None boot =
      Js.Normal (OkanjoBroker.mk "basic" 1 0 false false ["1"], e')
    /\ Env.timers e' = [].
Proof.
  destruct (construction_defaults "basic" None boot eq_refl (or_introl eq_refl))
    as (e' & N & _ & T & _).
  exists e'. split; [exact N | exact T].
Defined.

(** X3.  A construction that returns has forked [workerCount] workers,
    none when [workerCount] is zero or negative, and done nothing else to
    the cluster: each fork is handed the broker's type and the
    application's current environment, and the pool lists the new ids in
    the order of the forks. *)
Theorem construction_forks_workerCount
    (has_app : bool) (ty : string) (options : option OkanjoBroker.Options)
    (e : Env.t) (s : OkanjoBroker.state) :
  OkanjoBroker.new has_app ty options e = Js.Normal s ->
  let n := Z.to_nat (OkanjoBroker.workerCount (fst s)) in
  let fresh := seq (S (Env.ids (Env.cluster e))) n in
  Env.trace (snd s) =
    Env.trace e
    ++ map (fun i => Env.Forked i ty (Env.currentEnvironment (Env.app e))) fresh
  /\ OkanjoBroker._workerIds (fst s) = map Js.to_string fresh
  /\ Observe.count Observe.is_fork (Env.trace (snd s)) =
       (Observe.count Observe.is_fork (Env.trace e) + n)%nat
  /\ map Env.id (Env.objects (Env.cluster (snd s))) =
       map Env.id (Env.objects (Env.cluster e)) ++ fresh
  /\ (OkanjoBroker.workerCount (fst s) <= 0 ->
        OkanjoBroker._workerIds (fst s) = []
        /\ Env.cluster (snd s) = Env.cluster e
        /\ Env.trace (snd s) = Env.trace e).
Proof.
  intros N n fresh. destruct (new_normal _ _ _ _ _ N) as (N1 & A).
  pose proof (new_explicit ty options e A) as X. cbv zeta in X.
  remember (More.configured ty options) as c eqn:C.
  rewrite X in N1. injection N1 as <-. clear X.
  cbn [fst snd OkanjoBroker.set_workerIds OkanjoBroker.workerCount
       OkanjoBroker._workerIds Env.trace Env.cluster Env.objects] in *.
  fold n fresh.
  split; [reflexivity|]. split; [reflexivity|]. split; [|split].
  - rewrite count_app. f_equal. unfold fresh. apply count_forks.
  - rewrite map_app. f_equal. unfold Observe.fresh_workers. rewrite map_map. cbn.
    fold fresh. apply map_id.
  - intro W. assert (Z0 : n = 0%nat) by (unfold n; lia).
    unfold fresh. rewrite Z0. cbn. rewrite !app_nil_r, Nat.add_0_r.
    repeat split. now destruct (Env.cluster e).
Qed.

Lemma construction_forks_workerCount_witness :
  Env.trace (snd (Example.start "t" 2 boot)) =
    [Env.Forked 1 "t" "default"; Env.Forked 2 "t" "default"].
Proof.
  assert (N : OkanjoBroker.new true "t" (opts 2) boot = Js.Normal (Example.start "t" 2 boot))
    by (vm_compute; reflexivity).
  exact (proj1 (construction_forks_workerCount true "t" (opts 2) boot _ N)).
Defined.

(** X4.  The constructor arms the recycling interval exactly when
    [recycleRate] is positive: one repeating timer whose closure recycles
    this broker.  Up to [2^31 - 1] ms the period is [recycleRate] and the
    first tick is due one period after the construction; a larger
    [recycleRate] is more than a timer takes, and the interval then runs
    with a period of 1 ms.  With [recycleRate] zero, absent or negative
    no timer is armed. *)
Theorem construction_arms_recycling_iff_positive_rate
    (has_app : bool) (ty : string) (options : option OkanjoBroker.Options)
    (e : Env.t) (s : OkanjoBroker.state) :
  OkanjoBroker.new has_app ty options e = Js.Normal s ->
  let rate := OkanjoBroker.recycleRate (fst s) in
  let h := Env.next_handle e in
  let interval (period : Z) :=
    Env.mkTimer h (Env.now e + period) (Some period) (Env.RecycleTick ty) in
  rate = match options with
         | Some o => match OkanjoBroker.opt_recycleRate o with Some r => r | None => 0 end
         | None => 0
         end
  /\ (0 < rate -> rate <= Env.TIMEOUT_MAX ->
        Env.timers (snd s) = Env.timers e ++ [interval rate]
        /\ Env.next_handle (snd s) = S h)
  /\ (Env.TIMEOUT_MAX < rate ->
        Env.timers (snd s) = Env.timers e ++ [interval 1]
        /\ Env.next_handle (snd s) = S h)
  /\ (rate <= 0 ->
        Env.timers (snd s) = Env.timers e
        /\ Env.next_handle (snd s) = h).
Proof.
  intros N rate h interval. destruct (new_normal _ _ _ _ _ N) as (N1 & A).
  pose proof (new_explicit ty options e A) as X. cbv zeta in X.
  remember (More.configured ty options) as c eqn:C.
  rewrite X in N1. injection N1 as <-. clear X.
  cbn [fst snd OkanjoBroker.set_workerIds OkanjoBroker.recycleRate Env.timers
       Env.next_handle] in *.
  assert (Ty : OkanjoBroker.type c = ty) by (subst c; reflexivity).
  split.
  { subst rate c. destruct options as [[wc [r|] d]|]; cbn; try reflexivity.
    destruct (Z.eqb_spec r 0); congruence. }
  unfold Env.TIMEOUT_MAX, interval. fold rate.
  split; [|split].
  - intros R M. replace (0 <? rate) with true by (symmetry; now apply Z.ltb_lt).
    unfold More.recycle_interval, Env.armed_delay, Env.TIMEOUT_MAX.
    cbn [OkanjoBroker.recycleRate OkanjoBroker.type OkanjoBroker.set_workerIds]. fold rate.
    replace (1 <=? rate) with true by (symmetry; apply Z.leb_le; lia).
    replace (rate <=? 2147483647) with true by (symmetry; now apply Z.leb_le).
    rewrite Ty. split; reflexivity.
  - intro M. replace (0 <? rate) with true by (symmetry; apply Z.ltb_lt; lia).
    unfold More.recycle_interval, Env.armed_delay, Env.TIMEOUT_MAX.
    cbn [OkanjoBroker.recycleRate OkanjoBroker.type OkanjoBroker.set_workerIds]. fold rate.
    replace (rate <=? 2147483647) with false by (symmetry; apply Z.leb_gt; lia).
    rewrite andb_false_r, Ty. split; reflexivity.
  - intro R. replace (0 <? rate) with false by (symmetry; now apply Z.ltb_ge).
    now rewrite app_nil_r.
Qed.

Lemma construction_arms_recycling_iff_positive_rate_witness :
  let options := Some (OkanjoBroker.mkOptions (Some 1) (Some 2147483648) None) in
  exists s,
    OkanjoBroker.new true "recycle" options boot = Js.Normal s
    /\ Env.timers (snd s) =
         [Env.mkTimer 0 1 (Some 1) (Env.RecycleTick "recycle")].
Proof.
  intro options.
  destruct (OkanjoBroker.new true "recycle" options boot) as [s|err] eqn:N;
    [|vm_compute in N; discriminate].
  exists s. split; [reflexivity|].
  destruct (construction_arms_recycling_iff_positive_rate true "recycle" options boot s N)
    as (R & _ & Over & _).
  destruct Over as (T & _); [rewrite R; reflexivity|].
  exact T.
Defined.

(** ** Every exit, classified *)

Section ExitClassified.
Import Env OkanjoBroker Observe More.

(** What the exit observer adds to the trace, in each of its three
    branches. *)
Lemma on_exit_trace (worker : Worker) (code : option Z) (signal : option string)
      (b : OkanjoBroker.t) (e : Env.t) :
  let wid := Js.to_string (id worker) in
  let ended := Emit (type b) (worker_ended wid code signal (id worker)) in
  let death := Emit (type b) (worker_death wid code signal (id worker)) in
  trace (snd (on_exit worker code signal b e)) =
    trace e
    ++ (if replaces b e then
          (if expected worker then [ended]
           else [Report (type b ++ " worker id=" ++ wid ++ " died!")%string (Some wid); death])
          ++ [Forked (S (ids (cluster e))) (type b) (currentEnvironment (app e))]
        else [ended]).
Proof.
  unfold on_exit, replaces, expected. cbn [drainOpen set_workerIds type].
  destruct (negb (gracefulShutdown (app e)) && negb (drainOpen b)); [|reflexivity].
  destruct (exitedAfterDisconnect worker) as [[|]|]; rewrite spawn_once; cbn;
    rewrite <- ?app_assoc; reflexivity.
Qed.

End ExitClassified.

(** X5.  The graceful replace: a worker that exits after the broker
    disconnected it ([exitedAfterDisconnect] is [true]), while the drain
    gate is closed and the application is not shutting down, makes the
    exit observer emit one [worker_ended] for its id and fork one
    replacement, whose id joins the pool; nothing is reported and no
    [worker_death] is emitted. *)
Theorem expected_exit_is_ended_and_one_replacement
    (worker : Env.Worker) (code : option Z) (signal : option string)
    (b : OkanjoBroker.t) (e : Env.t) :
  Env.exitedAfterDisconnect worker = Some true ->
  OkanjoBroker.drainOpen b = false ->
  Env.gracefulShutdown (Env.app e) = false ->
  let wid := Js.to_string (Env.id worker) in
  let ty := OkanjoBroker.type b in
  let replacement := S (Env.ids (Env.cluster e)) in
  let s' := OkanjoBroker.on_exit worker code signal b e in
  Env.trace (snd s') =
    Env.trace e
    ++ [Env.Emit ty (Env.worker_ended wid code signal (Env.id worker));
        Env.Forked replacement ty (Env.currentEnvironment (Env.app e))]
  /\ OkanjoBroker._workerIds (fst s') =
       Js.splice (OkanjoBroker._workerIds b)
         (Js.indexOf (OkanjoBroker._workerIds b) wid) 1
       ++ [Js.to_string replacement]
  /\ (In wid (OkanjoBroker._workerIds b) ->
        List.length (OkanjoBroker._workerIds (fst s')) =
          List.length (OkanjoBroker._workerIds b)).
Proof.
  intros X D G wid ty replacement s'. subst s'.
  rewrite on_exit_trace, on_exit_workerIds.
  unfold More.replaces, More.expected, Observe.respawned. rewrite X, D, G. cbn [negb andb].
  split; [reflexivity|]. split; [reflexivity|].
  intro I. rewrite length_app, splice_indexOf_length. cbn.
  destruct (OkanjoBroker._workerIds b); [destruct I | cbn; lia].
Qed.

Lemma expected_exit_is_ended_and_one_replacement_witness :
  let s0 := Example.start "t" 1 boot in
  let bounced := Env.mkWorker 1 "t" "default" (Some true) (Some 0%nat) false true false in
  let s' := OkanjoBroker.on_exit bounced (Some 0) None (fst s0) (snd s0) in
  Env.trace (snd s') =
    [Env.Forked 1 "t" "default"; Env.Emit "t" (Env.worker_ended "1" (Some 0) None 1);
     Env.Forked 2 "t" "default"]
  /\ OkanjoBroker._workerIds (fst s') = ["2"].
Proof.
  intros s0 bounced s'.
  destruct (expected_exit_is_ended_and_one_replacement bounced (Some 0) None (fst s0) (snd s0)
              eq_refl eq_refl eq_refl) as (T & P & _).
  split; [exact T | exact P].
Defined.

(** X6.  Whatever the state, one call of the exit observer emits exactly
    one lifecycle event, carrying the id, exit code, signal and worker it
    was called for.  The event is [worker_death] exactly when the gate is
    closed, the application is not shutting down and the exit did not
    follow a disconnect; a report goes to the application exactly then.
    The observer forks exactly when the gate is closed and the application
    is not shutting down, and then exactly once.  So a crash during a
    drain or during application shutdown is announced as [worker_ended],
    unreported and unreplaced. *)
Theorem every_exit_emits_one_lifecycle_event
    (worker : Env.Worker) (code : option Z) (signal : option string)
    (b : OkanjoBroker.t) (e : Env.t) :
  let wid := Js.to_string (Env.id worker) in
  let ty := OkanjoBroker.type b in
  let crash := More.replaces b e && negb (More.expected worker) in
  exists new,
    Env.trace (snd (OkanjoBroker.on_exit worker code signal b e)) = Env.trace e ++ new
    /\ (Observe.count (Observe.is_ended ty) new
        + Observe.count (Observe.is_death ty) new = 1)%nat
    /\ Observe.count (Observe.is_death ty) new = (if crash then 1 else 0)%nat
    /\ Observe.count Observe.is_report new = (if crash then 1 else 0)%nat
    /\ Observe.count Observe.is_fork new = (if More.replaces b e then 1 else 0)%nat
    /\ In (Env.Emit ty (if crash
                        then Env.worker_death wid code signal (Env.id worker)
                        else Env.worker_ended wid code signal (Env.id worker))) new.
Proof.
  intros wid ty crash. eexists. split; [apply on_exit_trace|].
  subst crash. fold wid ty.
  destruct (More.replaces b e), (More.expected worker); unfold Observe.count; cbn;
    rewrite ?String.eqb_refl; cbn; repeat split; auto.
Qed.

Lemma every_exit_emits_one_lifecycle_event_witness :
  let s0 := Example.start "t" 1 boot in
  exists new,
    Env.trace (snd (OkanjoBroker.on_exit Example.crashed (Some 1) None
                      (OkanjoBroker.set_drainOpen true (fst s0)) (snd s0))) =
      [Env.Forked 1 "t" "default"] ++ new
    /\ Observe.count (Observe.is_death "t") new = 0%nat
    /\ Observe.count Observe.is_fork new = 0%nat.
Proof.
  intro s0.
  destruct (every_exit_emits_one_lifecycle_event Example.crashed (Some 1) None
              (OkanjoBroker.set_drainOpen true (fst s0)) (snd s0))
    as (new & T & _ & D & _ & F & _).
  exists new. split; [exact T|]. split; [exact D | exact F].
Defined.

(** ** Bouncing and recycling at the edges *)

Section BounceEdges.
Import Env OkanjoBroker Observe More.

Lemma lookup_none_iff (k : string) (e : Env.t) :
  lookup k e = None <-> ~ In k (worker_keys e).
Proof.
  unfold lookup, worker_keys. split.
  - intros F I. apply in_map_iff in I as (w & <- & I).
    apply (find_none _ _ F) in I. now rewrite String.eqb_refl in I.
  - intro N. destruct (find _ (workers e)) as [w|] eqn:F; [|reflexivity].
    exfalso. apply N. apply find_some in F as [I E]. apply String.eqb_eq in E.
    apply in_map_iff. eauto.
Qed.

(** Keys that are not in the pool are passed over without a trace. *)
Lemma recycle_keys_skip (ks : list string) (b : OkanjoBroker.t) (e : Env.t) :
  (forall k, In k ks -> ~ In k (_workerIds b)) -> recycle_keys ks b e = (b, e).
Proof.
  induction ks as [|k ks IH]; intro H; cbn [recycle_keys]; [reflexivity|].
  destruct (0 <=? Js.indexOf (_workerIds b) k) eqn:O.
  - apply indexOf_In in O. exfalso. apply (H k); [now left | exact O].
  - apply IH. intros k' I. apply H. now right.
Qed.

Lemma pending_other_cleared (h h' : nat) (e : Env.t) :
  h' <> h -> pending h' (clearTimeout h e) = pending h' e.
Proof.
  intro N. unfold pending, clearTimeout. cbn.
  induction (timers e) as [|x l IH]; simpl; [reflexivity|].
  destruct (Nat.eqb_spec (handle x) h) as [E|E]; simpl.
  - destruct (Nat.eqb_spec (handle x) h'); [congruence | exact IH].
  - destruct (Nat.eqb (handle x) h'); [reflexivity | exact IH].
Qed.

Lemma find_app_some {A : Type} (p : A -> bool) (l1 l2 : list A) (x : A) :
  find p l1 = Some x -> find p (l1 ++ l2) = Some x.
Proof.
  induction l1 as [|y l IH]; simpl; [discriminate|].
  destruct (p y); [auto | exact IH].
Qed.

Lemma pending_after_arming (h' : nat) (tm : Timer) (l : list Timer) :
  handle tm <> h' ->
  find (fun x => Nat.eqb (handle x) h') (l ++ [tm])
  = find (fun x => Nat.eqb (handle x) h') l.
Proof.
  intro N. destruct (find (fun x => Nat.eqb (handle x) h') l) as [x|] eqn:F.
  - now apply find_app_some.
  - rewrite find_app_none by exact F. cbn.
    destruct (Nat.eqb_spec (handle tm) h'); [contradiction | reflexivity].
Qed.

(** The loop of [recycleWorkers] arms one deadline per worker it
    bounces, under consecutive handles. *)
Lemma recycle_keys_timers (pool : list string) (b : OkanjoBroker.t)
      (seen rest : list Worker) (e : Env.t) :
  _workerIds b = pool ->
  objects (cluster e) = seen ++ rest ->
  let ws := filter registered rest in
  let e' := snd (recycle_keys (map key ws) b e) in
  timers e' = timers e ++ deadlines (next_handle e) (now e) (bounced_workers pool ws)
  /\ next_handle e' = (next_handle e + List.length (bounced_workers pool ws))%nat.
Proof.
  intro P. unfold key. revert seen e. induction rest as [|x rest IH]; intros seen e Ob; cbn zeta.
  - cbn. rewrite app_nil_r, Nat.add_0_r. auto.
  - assert (Next : objects (cluster e) = (seen ++ [x]) ++ rest)
      by (now rewrite <- app_assoc).
    cbn [filter]. destruct (registered x) eqn:Rx; [|exact (IH _ e Next)].
    cbn [map recycle_keys bounced_workers filter]. rewrite P.
    fold (bounced_workers pool (filter registered rest)).
    destruct (0 <=? Js.indexOf pool (Js.to_string (id x))) eqn:O.
    + destruct (lookup_enumerated x e) as (w' & Lw & Iw).
      { unfold workers. apply filter_In. split; [|exact Rx].
        rewrite Ob. apply in_or_app. right. now left. }
      unfold key in Lw. rewrite (bounce_found _ _ _ _ Lw).
      set (e1 := Env.mk _ _ _ _ _ _).
      destruct (update_before (bounced (next_handle e)) seen rest x) as (seen' & U).
      destruct (IH seen' e1) as (T & N).
      { subst e1. cbn [cluster objects]. now rewrite Iw, Ob. }
      rewrite T, N. subst e1. cbn [timers next_handle now deadlines List.length].
      unfold deadline. rewrite Iw, <- app_assoc. cbn [List.app]. split; [reflexivity | lia].
    + exact (IH _ e Next).
Qed.

Lemma deadlines_length (h : nat) (t : Z) (ws : list Worker) :
  List.length (deadlines h t ws) = List.length ws.
Proof. revert h. induction ws as [|w ws IH]; intro h; cbn; [reflexivity | now rewrite IH]. Qed.

Lemma deadlines_due (h : nat) (t : Z) (ws : list Worker) :
  Forall (fun tm => due tm = t + 2000 /\ period tm = None) (deadlines h t ws).
Proof. revert h. induction ws as [|w ws IH]; intro h; cbn; constructor; auto. Qed.

End BounceEdges.

(** X7.  What a bounce does is decided by whether the id is a key of the
    registry.  If it is, the worker behind the key is sent the directive
    and disconnected and one deadline is armed for it.  If it is not (the
    worker has vanished), the exception raised by reading the missing
    entry is caught: one report goes to the application, no call is made
    on any worker, no timer is armed, and the broker is as it was. *)
Theorem bounce_of_vanished_id_only_reports (k : string) (b : OkanjoBroker.t) (e : Env.t) :
  (In k (Env.worker_keys e) ->
     exists w,
       Env.lookup k e = Some w /\ Observe.key w = k
       /\ fst (OkanjoBroker._bounceWorker k b e) = b
       /\ Env.trace (snd (OkanjoBroker._bounceWorker k b e)) =
            Env.trace e ++ [Env.Sent (Env.id w) "suicide"; Env.Disconnect (Env.id w)]
       /\ Env.timers (snd (OkanjoBroker._bounceWorker k b e)) =
            Env.timers e ++ [Observe.deadline (Env.next_handle e) (Env.now e) (Env.id w)])
  /\ (~ In k (Env.worker_keys e) ->
        OkanjoBroker._bounceWorker k b e =
          (b, Env.mk (Env.app e) (Env.cluster e) (Env.timers e) (Env.next_handle e)
                (Env.now e)
                (Env.trace e
                 ++ [Env.Report "Could not bounce worker gracefully, probably a race?" None]))).
Proof.
  split; intro H.
  - destruct (Env.lookup k e) as [w|] eqn:L.
    + exists w. destruct (lookup_key _ _ _ L) as (K & _).
      rewrite (bounce_found _ _ _ _ L). repeat split; auto.
    + apply lookup_none_iff in L. contradiction.
  - apply lookup_none_iff in H. now rewrite (bounce_vanished _ _ _ H).
Qed.

Lemma bounce_of_vanished_id_only_reports_witness :
  let s0 := Example.start "t" 1 boot in
  Env.trace (snd (OkanjoBroker._bounceWorker "7" (fst s0) (snd s0))) =
    [Env.Forked 1 "t" "default";
     Env.Report "Could not bounce worker gracefully, probably a race?" None].
Proof.
  intro s0.
  rewrite (proj2 (bounce_of_vanished_id_only_reports "7" (fst s0) (snd s0))).
  - reflexivity.
  - vm_compute. intros [H|[]]. discriminate.
Defined.

(** X8.  When no key of the registry is in the broker's pool (an empty
    pool, an empty registry, or a registry holding only other brokers'
    workers), [recycleWorkers()] does nothing at all: broker and
    environment come back unchanged. *)
Theorem recycle_without_own_workers_is_a_no_op (b : OkanjoBroker.t) (e : Env.t) :
  (forall k, In k (Env.worker_keys e) -> ~ In k (OkanjoBroker._workerIds b)) ->
  OkanjoBroker.recycleWorkers b e = (b, e).
Proof. intro H. unfold OkanjoBroker.recycleWorkers. now apply recycle_keys_skip. Qed.

Lemma recycle_without_own_workers_is_a_no_op_witness :
  let s1 := Example.start "a" 2 boot in
  let drained := OkanjoBroker.mk "c" 2 0 false true [] in
  OkanjoBroker.recycleWorkers drained (snd s1) = (drained, snd s1).
Proof.
  intros s1 drained.
  apply (recycle_without_own_workers_is_a_no_op drained (snd s1)).
  intros k _ [].
Defined.

(** X9.  One call of [recycleWorkers()] arms exactly one 2000 ms deadline
    for each worker it bounces, in registry order and under consecutive
    fresh handles, and arms or clears no other timer. *)
Theorem recycle_arms_one_deadline_per_bounced_worker (b : OkanjoBroker.t) (e : Env.t) :
  let bounced := More.bounced_workers (OkanjoBroker._workerIds b) (Env.workers e) in
  let e' := snd (OkanjoBroker.recycleWorkers b e) in
  Env.timers e' = Env.timers e ++ More.deadlines (Env.next_handle e) (Env.now e) bounced
  /\ Env.next_handle e' = (Env.next_handle e + List.length bounced)%nat
  /\ List.length (Env.timers e') = (List.length (Env.timers e) + List.length bounced)%nat
  /\ Forall (fun tm => Env.due tm = Env.now e + 2000 /\ Env.period tm = None)
       (More.deadlines (Env.next_handle e) (Env.now e) bounced).
Proof.
  intros bounced e'.
  pose proof (recycle_keys_timers (OkanjoBroker._workerIds b) b []
                (Env.objects (Env.cluster e)) e eq_refl eq_refl) as TN.
  cbv zeta in TN. fold (Env.workers e) in TN. fold bounced in TN.
  change (snd (OkanjoBroker.recycle_keys (map Observe.key (Env.workers e)) b e))
    with e' in TN.
  destruct TN as (T & N).
  split; [exact T|]. split; [exact N|]. split.
  - now rewrite T, length_app, deadlines_length.
  - apply deadlines_due.
Qed.

Lemma recycle_arms_one_deadline_per_bounced_worker_witness :
  let s1 := Example.start "a" 2 boot in
  let s2 := Example.start "c" 1 (snd s1) in
  Env.timers (snd (OkanjoBroker.recycleWorkers (fst s1) (snd s2))) =
    [Env.mkTimer 0 2000 None (Env.DisconnectDeadline 1);
     Env.mkTimer 1 2000 None (Env.DisconnectDeadline 2)].
Proof.
  intros s1 s2.
  rewrite (proj1 (recycle_arms_one_deadline_per_bounced_worker (fst s1) (snd s2))).
  vm_compute. reflexivity.
Defined.

(** X10.  The disconnect observer leaves broker, cluster and trace as
    they are.  The only timer it can take off the queue is the one whose
    handle the worker carries; every other pending timer stays pending.
    It always arms the follow-up, also for a worker that was never
    bounced and carries no handle, in which case the queue only grows by
    that follow-up. *)
Theorem disconnect_clears_only_the_workers_own_deadline
    (worker : Env.Worker) (b : OkanjoBroker.t) (e : Env.t) :
  let s' := OkanjoBroker.on_disconnect worker b e in
  let arrived := Observe.followup (Env.next_handle e) (Env.now e) (Env.id worker) in
  fst s' = b
  /\ Env.cluster (snd s') = Env.cluster e
  /\ Env.trace (snd s') = Env.trace e
  /\ (forall h', Env._disconnectTimer worker <> Some h' -> h' <> Env.next_handle e ->
                 Env.pending h' (snd s') = Env.pending h' e)
  /\ (Env.pending (Env.next_handle e) e = None ->
        Env.pending (Env.next_handle e) (snd s') = Some arrived)
  /\ (Env._disconnectTimer worker = None ->
        Env.timers (snd s') = Env.timers e ++ [arrived]).
Proof.
  intros s' arrived. subst s'. unfold OkanjoBroker.on_disconnect.
  destruct (Env._disconnectTimer worker) as [h|];
    cbn [fst snd]; unfold Env.setTimeout; cbn [snd Env.cluster Env.trace];
    (split; [reflexivity|]); (split; [reflexivity|]); (split; [reflexivity|]);
    (split; [|split]).
  - intros h' D N. unfold Env.pending at 1. cbn [Env.timers].
    rewrite pending_after_arming by (cbn; congruence).
    apply pending_other_cleared. congruence.
  - intro P. unfold Env.pending at 1. cbn [Env.timers].
    apply (pending_fresh arrived (Env.clearTimeout h e) []).
    now apply pending_cleared_other.
  - discriminate.
  - intros h' D N. unfold Env.pending at 1. cbn [Env.timers].
    now rewrite pending_after_arming by (cbn; congruence).
  - intro P. unfold Env.pending at 1. cbn [Env.timers].
    now apply (pending_fresh arrived e []).
  - reflexivity.
Qed.

Lemma disconnect_clears_only_the_workers_own_deadline_witness :
  let s1 := OkanjoBroker.recycleWorkers (fst (Example.start "t" 2 boot))
              (snd (Example.start "t" 2 boot)) in
  let first := Env.mkWorker 1 "t" "default" (Some true) (Some 0%nat) false false false in
  Env.pending 1 (snd (OkanjoBroker.on_disconnect first (fst s1) (snd s1))) =
    Some (Env.mkTimer 1 2000 None (Env.DisconnectDeadline 2)).
Proof.
  intros s1 first.
  rewrite (proj1 (proj2 (proj2 (proj2
    (disconnect_clears_only_the_workers_own_deadline first (fst s1) (snd s1))))) 1%nat).
  - vm_compute. reflexivity.
  - discriminate.
  - vm_compute. discriminate.
Defined.

(** ** Draining and resuming, composed *)

(** X11.  [resumeWorkers()] is idempotent: called again on the state it
    returned, it forks nothing and returns that state unchanged. *)
Theorem resume_twice_is_resume_once (b : OkanjoBroker.t) (e : Env.t) :
  let s' := OkanjoBroker.resumeWorkers b e in
  OkanjoBroker.resumeWorkers (fst s') (snd s') = s'.
Proof.
  cbv zeta.
  set (m := Z.to_nat (OkanjoBroker.workerCount b
                      - Z.of_nat (List.length (OkanjoBroker._workerIds b)))).
  assert (E : OkanjoBroker.resumeWorkers b e =
              OkanjoBroker.repeat_call m OkanjoBroker._spawnWorker
                (OkanjoBroker.set_drainOpen false b) e) by reflexivity.
  rewrite spawn_many in E. rewrite E. cbn [fst snd].
  unfold OkanjoBroker.resumeWorkers.
  cbn [OkanjoBroker.set_drainOpen OkanjoBroker.set_workerIds OkanjoBroker.workerCount
       OkanjoBroker._workerIds OkanjoBroker.type OkanjoBroker.recycleRate
       OkanjoBroker.debug OkanjoBroker.drainOpen].
  rewrite length_app, length_map, length_seq.
  replace (Z.to_nat _) with 0%nat by (unfold m; lia).
  reflexivity.
Qed.

(** X12.  A drain that is taken back before any worker has exited:
    for a broker whose gate is closed and whose pool is at (or above)
    [workerCount], [drainWorkers()] followed by [resumeWorkers()] returns
    the broker object exactly as it was and forks nothing; all that
    remains of the drain are its bounces. *)
Theorem drain_then_resume_restores_the_broker (b : OkanjoBroker.t) (e : Env.t) :
  OkanjoBroker.drainOpen b = false ->
  OkanjoBroker.workerCount b <= Z.of_nat (List.length (OkanjoBroker._workerIds b)) ->
  let s1 := OkanjoBroker.drainWorkers b e in
  let s2 := OkanjoBroker.resumeWorkers (fst s1) (snd s1) in
  fst s2 = b
  /\ snd s2 = snd s1
  /\ Env.trace (snd s2) =
       Env.trace e ++ Observe.recycle_calls (OkanjoBroker._workerIds b) (Env.workers e)
  /\ Observe.count Observe.is_fork (Env.trace (snd s2)) =
       Observe.count Observe.is_fork (Env.trace e).
Proof.
  intros D W s1 s2.
  destruct (recycle_spec (OkanjoBroker.set_drainOpen true b) e) as (e1 & R & T & _).
  assert (S1 : s1 = (OkanjoBroker.set_drainOpen true b, e1)) by exact R.
  assert (S2 : s2 = (b, e1)).
  { unfold s2. rewrite S1. cbn [fst snd]. unfold OkanjoBroker.resumeWorkers.
    cbn [OkanjoBroker.set_drainOpen OkanjoBroker.workerCount OkanjoBroker._workerIds].
    replace (Z.to_nat _) with 0%nat by lia.
    cbn [OkanjoBroker.repeat_call]. destruct b; cbn in D; now subst. }
  rewrite S2, S1. cbn [fst snd].
  cbn [OkanjoBroker.set_drainOpen OkanjoBroker._workerIds] in T.
  repeat split; [exact T|].
  rewrite T, count_app.
  destruct (recycle_calls_quiet "" (OkanjoBroker._workerIds b) (Env.workers e))
    as (_ & _ & F).
  rewrite F. lia.
Qed.

Lemma drain_then_resume_restores_the_broker_witness :
  let s0 := Example.start "t" 2 boot in
  let s1 := OkanjoBroker.drainWorkers (fst s0) (snd s0) in
  fst (OkanjoBroker.resumeWorkers (fst s1) (snd s1)) = fst s0.
Proof.
  intros s0 s1.
  refine (proj1 (drain_then_resume_restores_the_broker (fst s0) (snd s0) eq_refl _)).
  vm_compute. discriminate.
Defined.

(** ** What a turn of the loop can and cannot change *)

Section Frame.
Import Env OkanjoBroker Observe More Loop.

Lemma on_exit_config (worker : Worker) (code : option Z) (signal : option string)
      (b : OkanjoBroker.t) (e : Env.t) :
  config (fst (on_exit worker code signal b e)) = config b
  /\ drainOpen (fst (on_exit worker code signal b e)) = drainOpen b.
Proof.
  unfold on_exit, config. cbn [drainOpen set_workerIds].
  destruct (negb (gracefulShutdown (app e)) && negb (drainOpen b)).
  - destruct (exitedAfterDisconnect worker) as [[|]|]; rewrite spawn_once; split; reflexivity.
  - split; reflexivity.
Qed.

Lemma recycle_calls_harmless (pool : list string) (ws : list Worker) :
  count is_kill (recycle_calls pool ws) = 0%nat
  /\ count is_other_send (recycle_calls pool ws) = 0%nat.
Proof.
  induction ws as [|w ws (A & B)]; [split; reflexivity|].
  unfold recycle_calls in *. cbn [flat_map]. rewrite !count_app, A, B.
  destruct (0 <=? Js.indexOf pool (key w)); split; reflexivity.
Qed.

Lemma on_exit_harmless (worker : Worker) (code : option Z) (signal : option string)
      (b : OkanjoBroker.t) (e : Env.t) :
  exists new,
    trace (snd (on_exit worker code signal b e)) = trace e ++ new
    /\ count is_kill new = 0%nat /\ count is_other_send new = 0%nat.
Proof.
  eexists. split; [apply on_exit_trace|].
  destruct (replaces b e), (expected worker); split; reflexivity.
Qed.

(** One turn: the configuration stays, the gate moves only in a drain or
    a resume, the pool only in an exit or a resume, and the trace grows
    by calls among which there is no send other than the directive and,
    outside a timer's turn, no kill. *)
Lemma step_frame (a : action) (s s' : state) :
  step a s = Some s' ->
  config (fst s') = config (fst s)
  /\ (moves_gate a = false -> drainOpen (fst s') = drainOpen (fst s))
  /\ (moves_pool a = false -> _workerIds (fst s') = _workerIds (fst s))
  /\ exists new,
       trace (snd s') = trace (snd s) ++ new
       /\ count is_other_send new = 0%nat
       /\ (is_fire a = false -> count is_kill new = 0%nat).
Proof.
  destruct s as [b e]. cbn [fst snd].
  assert (Nil : forall x : Env.t, trace x = trace x ++ []) by (intro; now rewrite app_nil_r).
  destruct a as [wid code signal|wid|wid msg|h|dt| | | |flag|ty']; cbn [step]; intro H.
  - destruct (object wid e) as [w|]; [|discriminate].
    destruct (dead w); [discriminate|].
    destruct (owns b w); injection H as <-.
    + destruct (on_exit_config (mark_dead w) code signal b (modify wid mark_dead e)) as (C & D).
      destruct (on_exit_harmless (mark_dead w) code signal b (modify wid mark_dead e))
        as (new & T & K & O).
      rewrite C, D. repeat split; [discriminate|]. exists new. auto.
    + cbn. repeat split. exists []. auto.
  - destruct (object wid e) as [w|]; [|discriminate].
    destruct (connected w); [|discriminate].
    destruct (owns b w); injection H as <-.
    + unfold on_disconnect. destruct (_disconnectTimer _); cbn; repeat split;
        exists []; auto.
    + cbn. repeat split. exists []. auto.
  - destruct (object wid e) as [w|]; [|discriminate].
    destruct (connected w && owns b w); [|discriminate].
    destruct (on_message w msg b e) as [s1|err] eqn:M; injection H as <-;
      [|repeat split; exists []; auto].
    unfold on_message in M.
    destruct (String.eqb (Js.typeof msg) "object").
    + destruct (Js.get_type msg) as [t|]; [|discriminate].
      destruct (Js.is_str "ops" t); injection M as <-; cbn; repeat split;
        eexists; split; try reflexivity; auto.
    + injection M as <-. cbn. repeat split. eexists; split; try reflexivity; auto.
  - unfold fire in H. destruct (pending h e) as [tm|]; [|discriminate].
    destruct (due tm <=? now e); [|discriminate]. injection H as <-.
    set (e2 := match period tm with None => _ | Some p => _ end).
    assert (T2 : trace e2 = trace e /\ workers e2 = workers e).
    { subst e2. destruct (period tm); split; reflexivity. }
    destruct T2 as (T2 & W2).
    destruct (closure tm) as [w|w|t]; cbn [run_callback].
    + cbn. rewrite T2. repeat split. eexists. split; [reflexivity|]. split; [reflexivity|].
      discriminate.
    + destruct (negb (isDead w e2)); cbn; rewrite T2; repeat split;
        eexists; (split; [try reflexivity; apply Nil|]); split; try reflexivity; discriminate.
    + destruct (String.eqb t (type b)).
      * destruct (recycle_spec b e2) as (e' & R & T & _).
        rewrite R. cbn [fst snd]. rewrite T, T2. repeat split.
        eexists. split; [reflexivity|].
        split; [apply recycle_calls_harmless | discriminate].
      * cbn. rewrite T2. repeat split. exists []. split; [apply Nil|]. split; [reflexivity|].
        discriminate.
  - destruct (0 <=? dt); [|discriminate]. injection H as <-. cbn. repeat split.
    exists []. auto.
  - injection H as <-. destruct (recycle_spec b e) as (e' & R & T & _).
    rewrite R. cbn [fst snd]. rewrite T. repeat split.
    eexists. split; [reflexivity|].
    split; [apply recycle_calls_harmless | intros _; apply recycle_calls_harmless].
  - injection H as <-. unfold drainWorkers.
    destruct (recycle_spec (set_drainOpen true b) e) as (e' & R & T & _).
    rewrite R. cbn [fst snd]. rewrite T. repeat split; [discriminate|].
    eexists. split; [reflexivity|].
    split; [apply recycle_calls_harmless | intros _; apply recycle_calls_harmless].
  - injection H as <-. unfold resumeWorkers. rewrite spawn_many. cbn [fst snd trace].
    repeat split; try discriminate.
    eexists. split; [reflexivity|].
    generalize (S (ids (cluster e))).
    induction (Z.to_nat _) as [|n IH]; intro k; [split; reflexivity|].
    cbn [seq map]. destruct (IH (S k)) as (A & B). split; [exact A|].
    intro F. specialize (B F). exact B.
  - injection H as <-. cbn. repeat split. exists []. auto.
  - destruct (String.eqb ty' (type b)); [discriminate|]. injection H as <-.
    cbn. repeat split. eexists. split; [reflexivity|]. split; reflexivity.
Qed.

End Frame.

Section FrameRuns.
Import Env OkanjoBroker Observe More Loop.

Lemma step_gate (a : action) (s s' : state) :
  step a s = Some s' -> drainOpen (fst s') = gate_after [a] (drainOpen (fst s)).
Proof.
  intro H. destruct (step_frame a s s' H) as (_ & G & _).
  destruct a; try (now apply G); destruct s as [b e]; cbn [step] in H;
    injection H as <-; cbn [gate_after fold_left fst].
  - unfold drainWorkers. destruct (recycle_spec (set_drainOpen true b) e) as (e' & R & _).
    now rewrite R.
  - unfold resumeWorkers. now rewrite spawn_many.
Qed.

Lemma run_frame (tr : list action) (s s' : state) :
  run tr s = Some s' ->
  config (fst s') = config (fst s)
  /\ drainOpen (fst s') = gate_after tr (drainOpen (fst s))
  /\ (none_of moves_pool tr = true -> _workerIds (fst s') = _workerIds (fst s))
  /\ exists new,
       trace (snd s') = trace (snd s) ++ new
       /\ count is_other_send new = 0%nat
       /\ (none_of is_fire tr = true -> count is_kill new = 0%nat).
Proof.
  revert s. induction tr as [|a tr IH]; intros s H; cbn [run] in H.
  - injection H as <-. repeat split. exists []. rewrite app_nil_r. auto.
  - destruct (step a s) as [s1|] eqn:S; [|discriminate].
    destruct (IH s1 H) as (C & G & P & new & T & O & K).
    pose proof (step_gate a s s1 S) as G1.
    destruct (step_frame a s s1 S) as (C1 & _ & P1 & new1 & T1 & O1 & K1).
    split; [congruence|]. split.
    { rewrite G, G1. reflexivity. }
    split.
    { unfold none_of. cbn [forallb]. intro N. apply andb_true_iff in N as (Na & Nt).
      rewrite P by exact Nt. apply P1. now destruct (moves_pool a). }
    exists (new1 ++ new). rewrite T, T1, <- app_assoc. split; [reflexivity|].
    rewrite !count_app, O, O1. split; [reflexivity|].
    unfold none_of. cbn [forallb]. intro N. apply andb_true_iff in N as (Na & Nt).
    rewrite K by exact Nt. rewrite K1; [reflexivity|]. now destruct (is_fire a).
Qed.

End FrameRuns.



(** X14.  Nothing that happens after construction changes the broker's
    configuration: type, [workerCount], [recycleRate] and [debug] are the
    same after any run of the loop as before it. *)
Theorem configuration_is_fixed_after_construction
    (tr : list Loop.action) (s s' : OkanjoBroker.state) :
  Loop.run tr s = Some s' ->
  OkanjoBroker.type (fst s') = OkanjoBroker.type (fst s)
  /\ OkanjoBroker.workerCount (fst s') = OkanjoBroker.workerCount (fst s)
  /\ OkanjoBroker.recycleRate (fst s') = OkanjoBroker.recycleRate (fst s)
  /\ OkanjoBroker.debug (fst s') = OkanjoBroker.debug (fst s).
Proof.
  intro R. destruct (run_frame tr s s' R) as (C & _).
  unfold More.config in C. injection C as -> -> -> ->. auto.
Qed.

Lemma configuration_is_fixed_after_construction_witness :
  let tr := [Loop.Drain; Loop.Exit 1 None None; Loop.Resume; Loop.Recycle] in
  exists s,
    Loop.run tr (Example.start "t" 1 boot) = Some s
    /\ OkanjoBroker.workerCount (fst s) = 1.
Proof.
  intro tr.
  destruct (Loop.run tr (Example.start "t" 1 boot)) as [s|] eqn:R;
    [|vm_compute in R; discriminate].
  exists s. split; [reflexivity|].
  destruct (configuration_is_fixed_after_construction tr _ s R) as (_ & W & _).
  rewrite W. vm_compute. reflexivity.
Defined.

(** X15.  The drain gate is moved by [drainWorkers()] and
    [resumeWorkers()] and by nothing else: after any run of the loop it
    is open exactly when the last of these two calls was a drain, and as
    the run found it when there was neither. *)
Theorem gate_follows_the_last_drain_or_resume
    (tr : list Loop.action) (s s' : OkanjoBroker.state) :
  Loop.run tr s = Some s' ->
  OkanjoBroker.drainOpen (fst s') = More.gate_after tr (OkanjoBroker.drainOpen (fst s))
  /\ (More.none_of More.moves_gate tr = true ->
      OkanjoBroker.drainOpen (fst s') = OkanjoBroker.drainOpen (fst s)).
Proof.
  intro R. destruct (run_frame tr s s' R) as (_ & G & _).
  split; [exact G|]. intro N. rewrite G. clear - N.
  generalize (OkanjoBroker.drainOpen (fst s)) as g.
  induction tr as [|a tr IH]; intro g; [reflexivity|].
  unfold More.none_of in N. cbn [forallb] in N. apply andb_true_iff in N as (Na & Nt).
  unfold More.gate_after. cbn [fold_left].
  destruct a; try discriminate Na; apply IH; exact Nt.
Qed.

Lemma gate_follows_the_last_drain_or_resume_witness :
  let tr := [Loop.Drain; Loop.Exit 1 None None; Loop.Recycle; Loop.AppShutdown true] in
  exists s,
    Loop.run tr (Example.start "t" 1 boot) = Some s
    /\ OkanjoBroker.drainOpen (fst s) = true.
Proof.
  intro tr.
  destruct (Loop.run tr (Example.start "t" 1 boot)) as [s|] eqn:R;
    [|vm_compute in R; discriminate].
  exists s. split; [reflexivity|].
  rewrite (proj1 (gate_follows_the_last_drain_or_resume tr _ s R)).
  vm_compute. reflexivity.
Defined.

(** X16.  The pool is written by the exit observer and by
    [resumeWorkers()] only: a run without an exit and without a resume,
    whatever it recycles, drains, disconnects, receives or lets fire,
    leaves the list of ids as it found it. *)
Theorem pool_is_written_only_on_exit_and_resume
    (tr : list Loop.action) (s s' : OkanjoBroker.state) :
  Loop.run tr s = Some s' ->
  More.none_of More.moves_pool tr = true ->
  OkanjoBroker._workerIds (fst s') = OkanjoBroker._workerIds (fst s).
Proof.
  intros R N. destruct (run_frame tr s s' R) as (_ & _ & P & _). now apply P.
Qed.

Lemma pool_is_written_only_on_exit_and_resume_witness :
  let tr := [Loop.Recycle; Loop.Disconnected 1; Loop.Advance 2000; Loop.Fire 1;
             Loop.Drain] in
  exists s,
    Loop.run tr (Example.start "t" 2 boot) = Some s
    /\ OkanjoBroker._workerIds (fst s) = ["1"; "2"]%string.
Proof.
  intro tr.
  destruct (Loop.run tr (Example.start "t" 2 boot)) as [s|] eqn:R;
    [|vm_compute in R; discriminate].
  exists s. split; [reflexivity|].
  rewrite (pool_is_written_only_on_exit_and_resume tr _ s R eq_refl).
  vm_compute. reflexivity.
Defined.

(** X17.  Along any run of the loop the trace only grows, the broker
    never sends a worker anything but the directive, and it kills a
    worker only from a timer: a run in which no timer fires contains no
    kill. *)
Theorem only_the_directive_is_sent_and_only_timers_kill
    (tr : list Loop.action) (s s' : OkanjoBroker.state) :
  Loop.run tr s = Some s' ->
  exists new,
    Env.trace (snd s') = Env.trace (snd s) ++ new
    /\ Observe.count More.is_other_send new = 0%nat
    /\ (More.none_of More.is_fire tr = true -> Observe.count More.is_kill new = 0%nat).
Proof.
  intro R. destruct (run_frame tr s s' R) as (_ & _ & _ & H). exact H.
Qed.

Lemma only_the_directive_is_sent_and_only_timers_kill_witness :
  let tr := [Loop.Recycle; Loop.Disconnected 1; Loop.Exit 1 None None; Loop.Drain] in
  exists s new,
    Loop.run tr (Example.start "t" 2 boot) = Some s
    /\ Env.trace (snd s) = Env.trace (snd (Example.start "t" 2 boot)) ++ new
    /\ Observe.count More.is_kill new = 0%nat.
Proof.
  intro tr.
  destruct (Loop.run tr (Example.start "t" 2 boot)) as [s|] eqn:R;
    [|vm_compute in R; discriminate].
  destruct (only_the_directive_is_sent_and_only_timers_kill tr _ s R) as (new & T & _ & K).
  exists s, new. split; [reflexivity|]. split; [exact T|]. now apply K.
Defined.

(** ** The recycle interval *)

(** X18.  A tick of the interval the constructor armed cannot happen
    before it is due; when it happens it is one pass of
    [recycleWorkers()] over the registry as the tick finds it, the broker
    stays as it is, and the interval is armed again one period later
    under the same handle: nothing in the tick cancels it. *)
Theorem recycle_tick_is_one_pass_and_stays_armed
    (h : nat) (p : Z) (tm : Env.Timer) (b : OkanjoBroker.t) (e : Env.t) :
  Env.pending h e = Some tm ->
  Env.period tm = Some p ->
  Env.closure tm = Env.RecycleTick (OkanjoBroker.type b) ->
  (Env.now e < Env.due tm -> Loop.step (Loop.Fire h) (b, e) = None)
  /\ (Env.due tm <= Env.now e ->
      exists s',
        Loop.step (Loop.Fire h) (b, e) = Some s'
        /\ fst s' = b
        /\ Env.trace (snd s') =
             Env.trace e
             ++ Observe.recycle_calls (OkanjoBroker._workerIds b) (Env.workers e)
        /\ Env.pending h (snd s') =
             Some (Env.mkTimer h (Env.now e + p) (Some p)
                     (Env.RecycleTick (OkanjoBroker.type b)))).
Proof.
  intros P Per Cl. cbn [Loop.step]. unfold Loop.fire. rewrite P, Per, Cl.
  split; intro D.
  - apply Z.leb_gt in D. now rewrite D.
  - apply Z.leb_le in D. rewrite D. cbn [Loop.run_callback]. rewrite String.eqb_refl.
    set (tm' := Env.mkTimer h (Env.now e + p) (Some p)
                  (Env.RecycleTick (OkanjoBroker.type b))).
    set (e1 := Env.clearTimeout h e).
    set (e2 := Env.set_timers (Env.timers e1 ++ [tm']) e1).
    destruct (recycle_spec b e2) as (e' & R & T & _).
    pose proof (recycle_keys_timers (OkanjoBroker._workerIds b) b []
                  (Env.objects (Env.cluster e2)) e2 eq_refl eq_refl) as Tm.
    cbv zeta in Tm. fold (Env.workers e2) in Tm. apply proj1 in Tm.
    assert (E : snd (OkanjoBroker.recycle_keys (map Observe.key (Env.workers e2)) b e2) = e').
    { change (snd (OkanjoBroker.recycleWorkers b e2) = e'). now rewrite R. }
    rewrite E in Tm.
    exists (b, e'). split; [now rewrite R|]. split; [reflexivity|]. split; [exact T|].
    cbn [snd]. unfold Env.pending. rewrite Tm.
    change (Env.timers e2) with (Env.timers e1 ++ [tm']).
    rewrite <- app_assoc. cbn [List.app].
    apply (pending_fresh tm' e1). apply pending_cleared.
Qed.

Lemma recycle_tick_is_one_pass_and_stays_armed_witness :
  let s := More.recycling "recycle" 1 500 boot in
  let e := Env.set_now 500 (snd s) in
  exists s',
    Loop.step (Loop.Fire 0) (fst s, e) = Some s'
    /\ Env.pending 0 (snd s') =
         Some (Env.mkTimer 0 1000 (Some 500) (Env.RecycleTick "recycle")).
Proof.
  intros s e.
  assert (P : Env.pending 0 e = Some (Env.mkTimer 0 500 (Some 500) (Env.RecycleTick "recycle")))
    by (vm_compute; reflexivity).
  destruct (recycle_tick_is_one_pass_and_stays_armed 0 500 _ (fst s) e P eq_refl)
    as (_ & Due); [vm_compute; reflexivity|].
  destruct Due as (s' & S & _ & _ & Armed); [vm_compute; discriminate|].
  exists s'. split; [exact S|]. rewrite Armed. vm_compute. reflexivity.
Defined.

(** ** Debug logging *)

(** X19.  [_log] never prints the message it is given.  With [debug] off
    it prints nothing; with [debug] on it calls [console.error] once with
    no argument at all, whatever the message and whatever the delete
    count the [arguments] object converts to, because what it splices is
    the empty [Array.prototype] and not [arguments]. *)
Theorem debug_log_drops_its_message
    (to_integer : list string -> Z) (b : OkanjoBroker.t) (arguments : list string) :
  More._log to_integer b arguments = if OkanjoBroker.debug b then [[]] else [].
Proof.
  unfold More._log, More.spliced. destruct (OkanjoBroker.debug b); [|reflexivity].
  cbn [List.length Z.of_nat]. rewrite skipn_nil, firstn_nil. reflexivity.
Qed.

(** ** The worker runtime, unbound and overridden *)

Section WorkerEdges.
Import OkanjoWorker.

Lemma remove_last_absent (ev : string) (f : closure) (l : list (string * closure)) :
  ~ In f (listening ev l) -> fst (remove_last ev f l) = l.
Proof.
  induction l as [|[e g] l IH]; [reflexivity|].
  pose proof (remove_last_found ev f l) as F.
  cbn [remove_last]. destruct (remove_last ev f l) as [r found].
  unfold listening in *. cbn [filter fst snd] in *.
  intro N. destruct found.
  - exfalso. apply N. destruct (String.eqb e ev); [right|]; now apply F.
  - destruct (String.eqb e ev) eqn:E; cbn [andb]; [|reflexivity].
    destruct (closure_eqb g f) eqn:C; [|reflexivity].
    apply closure_eqb_eq in C. exfalso. apply N. now left.
Qed.

(** On a ready worker a trigger runs its one closure. *)
Lemma deliver_ready (h : Hooks) (tr : trigger) (w : t) :
  state (process w) = Running ->
  registered "message" w = [DirectiveListener] ->
  (forall s, registered (signal_name s) w = [SignalHandler s]) ->
  deliver h tr w = prepareForShutdown h (arguments tr) w.
Proof.
  intros Run M S. destruct tr as [|s]; unfold deliver, receive, raise.
  - rewrite M. cbn [call_all]. rewrite Run. cbn.
    now destruct (prepareForShutdown h [] w).
  - rewrite S. cbn [call_all]. rewrite Run. cbn.
    now destruct (prepareForShutdown h [Js.Bool false] w).
Qed.

(** What [unbindProcessSignals] leaves of a ready worker. *)
Lemma unbind_ready (w : t) :
  ready w ->
  exists w',
    unbindProcessSignals w = Js.Normal w'
    /\ state (process w') = Running
    /\ _signalHandlers w' = _signalHandlers w
    /\ registered "message" w' = [DirectiveListener]
    /\ registered "SIGINT" w' = []
    /\ registered "SIGTERM" w' = [].
Proof.
  intros (R & H & M & I & T). unfold unbindProcessSignals. rewrite H.
  eexists. split; [reflexivity|].
  unfold removeListener, registered in *.
  cbn [process set_process state listeners _signalHandlers fst].
  repeat split; auto.
  - now rewrite !remove_last_other by discriminate.
  - rewrite remove_last_other by discriminate. now apply remove_last_single.
  - apply remove_last_single. now rewrite remove_last_other by discriminate.
Qed.

End WorkerEdges.

(** X20.  [unbindProcessSignals()] on a constructed worker removes the two
    signal handlers and nothing else: the process keeps running and the
    directive listener stays.  Calling it again changes nothing.
    Afterwards a termination signal no longer reaches the worker's hooks
    and ends the process by its default action, while the parent's
    directive still runs [prepareForShutdown]. *)
Theorem unbinding_leaves_only_the_directive (h : OkanjoWorker.Hooks) (w : OkanjoWorker.t) :
  OkanjoWorker.ready w ->
  exists w',
    OkanjoWorker.unbindProcessSignals w = Js.Normal w'
    /\ OkanjoWorker.state (OkanjoWorker.process w') = OkanjoWorker.Running
    /\ OkanjoWorker.registered "message" w' = [OkanjoWorker.DirectiveListener]
    /\ OkanjoWorker.registered "SIGINT" w' = []
    /\ OkanjoWorker.registered "SIGTERM" w' = []
    /\ OkanjoWorker.unbindProcessSignals w' = Js.Normal w'
    /\ (forall s, exists w'',
          OkanjoWorker.raise h s w' = Js.Normal w''
          /\ OkanjoWorker.state (OkanjoWorker.process w'') = OkanjoWorker.Terminated s)
    /\ OkanjoWorker.deliver h OkanjoWorker.Directive w' =
         OkanjoWorker.prepareForShutdown h [] w'.
Proof.
  intro R. destruct (unbind_ready w R) as (w' & U & Run & H & M & I & T).
  destruct R as (_ & H0 & _).
  exists w'. repeat split; auto.
  - unfold OkanjoWorker.unbindProcessSignals. rewrite H, H0.
    unfold OkanjoWorker.removeListener, OkanjoWorker.registered in *.
    cbn [OkanjoWorker.process OkanjoWorker.set_process OkanjoWorker.listeners].
    rewrite (remove_last_absent "SIGINT") by (rewrite I; intros []).
    rewrite (remove_last_absent "SIGTERM") by (rewrite T; intros []).
    destruct w' as [[ti ty en ls st] sh]. reflexivity.
  - intro s. unfold OkanjoWorker.raise.
    assert (E : OkanjoWorker.registered (OkanjoWorker.signal_name s) w' = [])
      by (destruct s; assumption).
    rewrite E, Run. eexists. split; reflexivity.
  - unfold OkanjoWorker.deliver, OkanjoWorker.receive. rewrite M.
    cbn [OkanjoWorker.call_all]. rewrite Run. cbn.
    now destruct (OkanjoWorker.prepareForShutdown h [] w').
Qed.

Lemma unbinding_leaves_only_the_directive_witness :
  let w := OkanjoWorker.new OkanjoWorker.base false (OkanjoWorker.forked "t" "default") in
  exists w' w'',
    OkanjoWorker.unbindProcessSignals w = Js.Normal w'
    /\ OkanjoWorker.raise OkanjoWorker.base OkanjoWorker.SIGTERM w' = Js.Normal w''
    /\ OkanjoWorker.state (OkanjoWorker.process w'') =
         OkanjoWorker.Terminated OkanjoWorker.SIGTERM.
Proof.
  intro w.
  destruct (unbinding_leaves_only_the_directive OkanjoWorker.base w
              (new_ready _ _ false "t" "default"))
    as (w' & U & _ & _ & _ & _ & _ & Sig & _).
  destruct (Sig OkanjoWorker.SIGTERM) as (w'' & Ra & St).
  exists w', w''. auto.
Defined.

(** X21.  A subclass that overrides only [shutdown()] is reached by every
    trigger: on a constructed worker the directive, SIGINT and SIGTERM
    each end in one call of the subclass's [shutdown], made on the worker
    as [unbindProcessSignals()] left it, with both signal handlers
    already removed. *)
Theorem overridden_shutdown_runs_after_unbinding
    (init : OkanjoWorker.t -> OkanjoWorker.t) (shut : OkanjoWorker.t -> OkanjoWorker.t)
    (w : OkanjoWorker.t) (tr : OkanjoWorker.trigger) :
  OkanjoWorker.ready w ->
  let h := OkanjoWorker.mkHooks init (OkanjoWorker.base_prepareForShutdown shut) shut in
  exists w1,
    OkanjoWorker.unbindProcessSignals w = Js.Normal w1
    /\ OkanjoWorker.deliver h tr w = Js.Normal (OkanjoWorker.shutdown h w1)
    /\ OkanjoWorker.registered "SIGINT" w1 = []
    /\ OkanjoWorker.registered "SIGTERM" w1 = []
    /\ OkanjoWorker.state (OkanjoWorker.process w1) = OkanjoWorker.Running.
Proof.
  intros R h. destruct (unbind_ready w R) as (w1 & U & Run & _ & _ & I & T).
  exists w1. split; [exact U|]. split; [|auto].
  destruct R as (Rn & _ & M & Si & St).
  rewrite deliver_ready; auto.
  - cbn [h OkanjoWorker.prepareForShutdown OkanjoWorker.shutdown].
    unfold OkanjoWorker.base_prepareForShutdown. now rewrite U.
  - intros [|]; assumption.
Qed.

Lemma overridden_shutdown_runs_after_unbinding_witness :
  let w := OkanjoWorker.new OkanjoWorker.base false (OkanjoWorker.forked "t" "default") in
  let shut := OkanjoWorker.exit 3 in
  let h := OkanjoWorker.mkHooks OkanjoWorker.base_init
             (OkanjoWorker.base_prepareForShutdown shut) shut in
  exists w',
    OkanjoWorker.deliver h (OkanjoWorker.Signal OkanjoWorker.SIGINT) w = Js.Normal w'
    /\ OkanjoWorker.state (OkanjoWorker.process w') = OkanjoWorker.Exited 3.
Proof.
  intros w shut h.
  destruct (overridden_shutdown_runs_after_unbinding OkanjoWorker.base_init shut w
              (OkanjoWorker.Signal OkanjoWorker.SIGINT) (new_ready _ _ false "t" "default"))
    as (w1 & U & D & _ & _ & Run).
  eexists. split; [exact D|].
  cbn [OkanjoWorker.shutdown]. unfold shut, OkanjoWorker.exit. rewrite Run. reflexivity.
Defined.

(** X22.  The earlier runtime ends the same way and cleans up less: on a
    worker it constructed each of the three triggers exits the process
    with status 0, as in the later runtime, but every listener, the two
    signal handlers included, is still registered when it does. *)
Theorem legacy_triggers_exit_with_handlers_bound
    (w : OkanjoWorker.t) (tr : OkanjoWorker.trigger) :
  LegacyWorker.ready w ->
  exists w',
    OkanjoWorker.deliver LegacyWorker.base tr w = Js.Normal w'
    /\ OkanjoWorker.state (OkanjoWorker.process w') = OkanjoWorker.Exited 0
    /\ OkanjoWorker.listeners (OkanjoWorker.process w') =
         OkanjoWorker.listeners (OkanjoWorker.process w)
    /\ OkanjoWorker.registered "SIGINT" w' = [OkanjoWorker.SignalHandler OkanjoWorker.SIGINT]
    /\ OkanjoWorker.registered "SIGTERM" w' =
         [OkanjoWorker.SignalHandler OkanjoWorker.SIGTERM].
Proof.
  intros (Run & M & I & T).
  rewrite deliver_ready; auto; [|intros [|]; assumption].
  cbn [LegacyWorker.base OkanjoWorker.prepareForShutdown].
  unfold LegacyWorker.base_prepareForShutdown, OkanjoWorker.base_shutdown, OkanjoWorker.exit.
  rewrite Run. eexists. split; [reflexivity|].
  unfold OkanjoWorker.registered in *.
  cbn [OkanjoWorker.process OkanjoWorker.set_process OkanjoWorker.state
       OkanjoWorker.listeners].
  auto.
Qed.

Lemma legacy_triggers_exit_with_handlers_bound_witness :
  let w := LegacyWorker.new LegacyWorker.base false (OkanjoWorker.forked "t" "default") in
  exists w',
    OkanjoWorker.deliver LegacyWorker.base OkanjoWorker.Directive w = Js.Normal w'
    /\ OkanjoWorker.state (OkanjoWorker.process w') = OkanjoWorker.Exited 0.
Proof.
  intro w.
  assert (R : LegacyWorker.ready w) by (repeat split).
  destruct (legacy_triggers_exit_with_handlers_bound w OkanjoWorker.Directive R)
    as (w' & D & St & _).
  exists w'. auto.
Defined.

(** ** Messages from workers *)

(** X23.  Every payload other than [null] is passed on in exactly one
    event and changes nothing else: the broker, the cluster and the
    timers stay as they are and the worker gets no reply.  The event is
    [worker_ops] exactly when the payload is an object whose [type] field
    is the string ["ops"]; a bare string ["ops"], an array or an object
    of another type goes out as [worker_message]. *)
Theorem message_is_forwarded_in_one_event
    (worker : Env.Worker) (msg : Js.value) (b : OkanjoBroker.t) (e : Env.t) :
  msg <> Js.Null ->
  let is_ops := exists fs, msg = Js.Obj fs /\ Js.field fs "type" = Some (Js.Str "ops") in
  exists ev e',
    OkanjoBroker.on_message worker msg b e = Js.Normal (b, e')
    /\ Env.trace e' = Env.trace e ++ [Env.Emit (OkanjoBroker.type b) ev]
    /\ Env.cluster e' = Env.cluster e
    /\ Env.timers e' = Env.timers e
    /\ (is_ops -> ev = Env.worker_ops msg (Env.id worker))
    /\ (~ is_ops -> ev = Env.worker_message msg (Env.id worker)).
Proof.
  intros N is_ops. rewrite (message_dispatch worker msg b e N).
  eexists. eexists. split; [reflexivity|]. repeat split.
  - intros (fs & -> & F). rewrite F. reflexivity.
  - intro No. destruct msg as [| | | | |fs]; try reflexivity.
    destruct (Js.is_str "ops" (Js.field fs "type")) eqn:I; [|reflexivity].
    exfalso. apply No. exists fs. split; [reflexivity|].
    destruct (Js.field fs "type") as [v|]; [|discriminate].
    apply is_str_spec in I. now subst.
Qed.

Lemma message_is_forwarded_in_one_event_witness :
  let s := Example.start "t" 1 boot in
  exists e',
    OkanjoBroker.on_message Example.crashed (Js.Str "ops") (fst s) (snd s)
    = Js.Normal (fst s, e')
    /\ Env.trace e' =
         Env.trace (snd s)
         ++ [Env.Emit "t" (Env.worker_message (Js.Str "ops") 1)].
Proof.
  intro s.
  destruct (message_is_forwarded_in_one_event Example.crashed (Js.Str "ops") (fst s) (snd s))
    as (ev & e' & M & T & _ & _ & _ & Other); [discriminate|].
  exists e'. split; [exact M|]. rewrite T, Other; [reflexivity|].
  intros (fs & F & _). discriminate.
Defined.

(** * The bounce protocol over time *)

Section BounceOverTime.
Import Env OkanjoBroker Observe More Loop.

Lemma evolves_refl (n m : nat) (w : Worker) : evolves n m w w.
Proof. split; [reflexivity|]. now left. Qed.

Lemma evolves_trans (n m k : nat) (w1 w2 w3 : Worker) :
  (n <= m)%nat -> (m <= k)%nat ->
  evolves n m w1 w2 -> evolves m k w2 w3 -> evolves n k w1 w3.
Proof.
  intros Le1 Le2 (I1 & C1) (I2 & C2). split; [congruence|].
  destruct C1 as [(T1 & L1)|(L1 & h1 & H1 & T1)];
    destruct C2 as [(T2 & L2)|(L2 & h2 & H2 & T2)].
  - left. split; congruence.
  - right. split; [congruence|]. exists h2. split; [lia | exact T2].
  - right. split; [exact L1|]. exists h1. split; [lia | congruence].
  - right. split; [exact L1|]. exists h2. split; [lia | exact T2].
Qed.

Lemma evolves_all_refl (n m : nat) (l : list Worker) : Forall2 (evolves n m) l l.
Proof. induction l; constructor; auto using evolves_refl. Qed.

Lemma evolves_all_trans (n m k : nat) (l1 l2 l3 : list Worker) :
  (n <= m)%nat -> (m <= k)%nat ->
  Forall2 (evolves n m) l1 l2 -> Forall2 (evolves m k) l2 l3 ->
  Forall2 (evolves n k) l1 l3.
Proof.
  intros Le1 Le2 H. revert l3. induction H as [|x y l l' R _ IH]; intros l3 H3.
  - inversion H3. constructor.
  - inversion H3; subst. constructor; eauto using evolves_trans.
Qed.

(** An assignment that leaves id, handle and registry entry alone. *)
Lemma evolves_update (n m wid : nat) (f : Worker -> Worker) (l : list Worker) :
  (forall w, evolves n m w (f w)) -> Forall2 (evolves n m) l (update wid f l).
Proof.
  intro F. induction l as [|w l IH]; cbn [update]; [constructor|].
  destruct (Nat.eqb (id w) wid).
  - constructor; [apply F | apply evolves_all_refl].
  - constructor; [apply evolves_refl | exact IH].
Qed.

(** With distinct ids the object a bounce writes to is the one the
    registry gave it. *)
Lemma evolves_bounced (w : Worker) (h : nat) (l : list Worker) :
  (forall x, In x l -> id x = id w -> listed x = true) ->
  Forall2 (evolves h (S h)) l (update (id w) (bounced h) l).
Proof.
  induction l as [|x l IH]; intro L; cbn [update]; [constructor|].
  destruct (Nat.eqb_spec (id x) (id w)) as [E|_].
  - constructor; [|apply evolves_all_refl].
    split; [reflexivity|]. right. split; [apply L; [now left | exact E]|].
    exists h. split; [lia | reflexivity].
  - constructor; [apply evolves_refl|]. apply IH. intros y I. apply L. now right.
Qed.

Lemma bounce_evolves (k : string) (b : OkanjoBroker.t) (e : Env.t) :
  NoDup (map id (objects (cluster e))) ->
  Forall2 (evolves (next_handle e) (next_handle (snd (_bounceWorker k b e))))
    (objects (cluster e)) (objects (cluster (snd (_bounceWorker k b e)))).
Proof.
  intro N. destruct (lookup k e) as [w|] eqn:L.
  - rewrite (bounce_found _ _ _ _ L). cbn [snd cluster objects next_handle].
    apply evolves_bounced. intros x I E.
    apply lookup_key in L as (_ & Iw). apply filter_In in Iw as (Iw & R).
    rewrite (same_id_same_object _ x w N I Iw E).
    unfold registered in R. now apply andb_true_iff in R as (R & _).
  - rewrite (bounce_vanished _ _ _ L). apply evolves_all_refl.
Qed.

Lemma bounce_ids (k : string) (b : OkanjoBroker.t) (e : Env.t) :
  map id (objects (cluster (snd (_bounceWorker k b e)))) = map id (objects (cluster e)).
Proof.
  destruct (lookup k e) as [w|] eqn:L.
  - rewrite (bounce_found _ _ _ _ L). cbn [snd cluster objects]. now apply update_ids.
  - now rewrite (bounce_vanished _ _ _ L).
Qed.

Lemma recycle_keys_evolves (ks : list string) (b : OkanjoBroker.t) (e : Env.t) :
  NoDup (map id (objects (cluster e))) ->
  Forall2 (evolves (next_handle e) (next_handle (snd (recycle_keys ks b e))))
    (objects (cluster e)) (objects (cluster (snd (recycle_keys ks b e)))).
Proof.
  revert b e. induction ks as [|k ks IH]; intros b e N; cbn [recycle_keys].
  - apply evolves_all_refl.
  - destruct (0 <=? Js.indexOf (_workerIds b) k); [|now apply IH].
    pose proof (bounce_evolves k b e N) as B.
    pose proof (bounce_ids k b e) as I.
    pose proof (handles_bounce k b e) as H.
    destruct (_bounceWorker k b e) as [b1 e1]. cbn [snd] in *.
    pose proof (handles_recycle_keys ks b1 e1) as H1.
    eapply evolves_all_trans; [exact H | exact H1 | exact B |].
    apply IH. now rewrite I.
Qed.

Lemma fresh_carry_nothing (ty envn : string) (k n : nat) :
  Forall (fun w => _disconnectTimer w = None) (fresh_workers ty envn k n).
Proof.
  unfold fresh_workers. apply Forall_forall. intros w I.
  apply in_map_iff in I as (i & <- & _). reflexivity.
Qed.

(** What one turn does to the worker objects: the ones there evolve, new
    ones carry no handle. *)
Lemma step_objects (a : action) (s s' : state) :
  step a s = Some s' ->
  NoDup (map id (objects (cluster (snd s)))) ->
  exists l' fresh,
    objects (cluster (snd s')) = l' ++ fresh
    /\ Forall2 (evolves (next_handle (snd s)) (next_handle (snd s')))
         (objects (cluster (snd s))) l'
    /\ Forall (fun w => _disconnectTimer w = None) fresh.
Proof.
  destruct s as [b e]. cbn [fst snd]. intros H N. revert H.
  assert (Same : forall e' : Env.t,
             objects (cluster e') = objects (cluster e) ->
             exists l' fresh,
               objects (cluster e') = l' ++ fresh
               /\ Forall2 (evolves (next_handle e) (next_handle e')) (objects (cluster e)) l'
               /\ Forall (fun w => _disconnectTimer w = None) fresh).
  { intros e' E. exists (objects (cluster e)), []. rewrite app_nil_r.
    split; [exact E|]. split; [apply evolves_all_refl | constructor]. }
  assert (Pass : forall e' : Env.t,
             next_handle e' = next_handle e ->
             objects (cluster e') = objects (cluster e) ->
             forall ks b',
             exists l' fresh,
               objects (cluster (snd (recycle_keys ks b' e'))) = l' ++ fresh
               /\ Forall2 (evolves (next_handle e)
                             (next_handle (snd (recycle_keys ks b' e'))))
                    (objects (cluster e)) l'
               /\ Forall (fun w => _disconnectTimer w = None) fresh).
  { intros e' H E ks b'. exists (objects (cluster (snd (recycle_keys ks b' e')))), [].
    rewrite app_nil_r. split; [reflexivity|]. split; [|constructor].
    rewrite <- H, <- E. apply recycle_keys_evolves. rewrite E. assumption. }
  destruct a as [wid code signal|wid|wid msg|h|dt| | | |flag|ty']; cbn [step]; intro H.
  - destruct (object wid e) as [w|]; [|discriminate].
    destruct (dead w); [discriminate|].
    assert (M : forall m, Forall2 (evolves (next_handle e) m) (objects (cluster e))
                            (update wid mark_dead (objects (cluster e)))).
    { intro m. apply evolves_update. intro x. split; [reflexivity|]. now left. }
    destruct (owns b w); injection H as <-.
    + destruct (on_exit_env (mark_dead w) code signal b (modify wid mark_dead e)) as (_ & O).
      rewrite O. eexists. eexists. split; [reflexivity|]. split; [apply M|].
      destruct (negb _ && negb _); [apply fresh_carry_nothing | constructor].
    + exists (update wid mark_dead (objects (cluster e))), []. rewrite app_nil_r.
      split; [reflexivity|]. split; [apply M | constructor].
  - destruct (object wid e) as [w|]; [|discriminate].
    destruct (connected w); [|discriminate].
    assert (M : forall m, Forall2 (evolves (next_handle e) m) (objects (cluster e))
                            (update wid mark_disconnected (objects (cluster e)))).
    { intro m. apply evolves_update. intro x. split; [reflexivity|]. now left. }
    exists (update wid mark_disconnected (objects (cluster e))), []. rewrite app_nil_r.
    split; [|split; [apply M | constructor]].
    destruct (owns b w); injection H as <-; [|reflexivity].
    unfold on_disconnect. destruct (_disconnectTimer _); reflexivity.
  - destruct (object wid e) as [w|]; [|discriminate].
    destruct (connected w && owns b w); [|discriminate].
    destruct (on_message w msg b e) as [s1|err] eqn:M; injection H as <-;
      [|now apply Same].
    unfold on_message in M.
    destruct (String.eqb (Js.typeof msg) "object").
    + destruct (Js.get_type msg) as [t|]; [|discriminate].
      destruct (Js.is_str "ops" t); injection M as <-; now apply Same.
    + injection M as <-. now apply Same.
  - unfold fire in H. destruct (pending h e) as [tm|]; [|discriminate].
    destruct (due tm <=? now e); [|discriminate]. injection H as <-.
    set (e2 := match period tm with None => _ | Some p => _ end).
    assert (E2 : next_handle e2 = next_handle e
                 /\ objects (cluster e2) = objects (cluster e)).
    { subst e2. destruct (period tm); split; reflexivity. }
    destruct E2 as (H2 & O2).
    destruct (closure tm) as [w|w|t]; cbn [run_callback].
    + now apply Same.
    + destruct (negb (isDead w e2)); now apply Same.
    + destruct (String.eqb t (type b)); [|now apply Same].
      now apply Pass.
  - destruct (0 <=? dt); [|discriminate]. injection H as <-. now apply Same.
  - injection H as <-. now apply Pass.
  - injection H as <-. now apply Pass.
  - injection H as <-. unfold resumeWorkers. rewrite spawn_many. cbn [snd cluster objects].
    eexists. eexists. split; [reflexivity|].
    split; [apply evolves_all_refl | apply fresh_carry_nothing].
  - injection H as <-. now apply Same.
  - destruct (String.eqb ty' (type b)); [discriminate|]. injection H as <-.
    exists (objects (cluster e)), [mkWorker (S (ids (cluster e))) ty'
                                     (currentEnvironment (app e)) None None true false true].
    split; [reflexivity|]. split; [apply evolves_all_refl|].
    constructor; [reflexivity | constructor].
Qed.

(** Deadlines armed under later handles do not hide an earlier timer. *)
Lemma pending_before_deadlines (h k : nat) (t : Z) (ws : list Worker) (l : list Timer) :
  (h < k)%nat ->
  find (fun x => Nat.eqb (handle x) h) (l ++ deadlines k t ws)
  = find (fun x => Nat.eqb (handle x) h) l.
Proof.
  revert k l. induction ws as [|w ws IH]; intros k l Hk; cbn [deadlines].
  - now rewrite app_nil_r.
  - change (l ++ ?tm :: ?r) with (l ++ [tm] ++ r). rewrite app_assoc.
    rewrite IH by lia. apply pending_after_arming. cbn. lia.
Qed.

Lemma recycle_pending (h : nat) (b : OkanjoBroker.t) (e : Env.t) :
  (h < next_handle e)%nat ->
  pending h (snd (recycleWorkers b e)) = pending h e.
Proof.
  intro Hh.
  pose proof (recycle_keys_timers (_workerIds b) b [] (objects (cluster e)) e
                eq_refl eq_refl) as T.
  cbv zeta in T. apply proj1 in T.
  unfold pending, recycleWorkers, worker_keys, workers. unfold key in T. rewrite T.
  now apply pending_before_deadlines.
Qed.

(** The disconnect observer and a timer the worker does not carry. *)
Lemma on_disconnect_pending (h : nat) (w : Worker) (b : OkanjoBroker.t) (e : Env.t) :
  (h < next_handle e)%nat ->
  _disconnectTimer w <> Some h ->
  pending h (snd (on_disconnect w b e)) = pending h e.
Proof.
  intros Hh C. unfold on_disconnect, setTimeout. cbn [snd]. unfold pending. cbn [timers].
  destruct (_disconnectTimer w) as [h'|].
  - rewrite pending_after_arming by (cbn; lia).
    apply (pending_other_cleared h' h e). congruence.
  - apply pending_after_arming. cbn. lia.
Qed.

(** The disconnect observer and the timer the worker carries. *)
Lemma on_disconnect_clears (h : nat) (w : Worker) (b : OkanjoBroker.t) (e : Env.t) :
  (h < next_handle e)%nat ->
  _disconnectTimer w = Some h ->
  pending h (snd (on_disconnect w b e)) = None.
Proof.
  intros Hh C. unfold on_disconnect, setTimeout. rewrite C. cbn [snd].
  unfold pending. cbn [timers].
  rewrite pending_after_arming by (cbn; lia).
  apply (pending_cleared h e).
Qed.

(** The follow-up the disconnect observer arms. *)
Lemma on_disconnect_arms (w : Worker) (b : OkanjoBroker.t) (e : Env.t) :
  pending (next_handle e) e = None ->
  pending (next_handle e) (snd (on_disconnect w b e))
  = Some (followup (next_handle e) (now e) (id w)).
Proof.
  intro P. unfold on_disconnect, setTimeout. cbn [snd]. unfold pending at 1. cbn [timers].
  destruct (_disconnectTimer w) as [h'|].
  - apply (pending_fresh (followup (next_handle e) (now e) (id w)) (clearTimeout h' e) []).
    now apply pending_cleared_other.
  - now apply (pending_fresh (followup (next_handle e) (now e) (id w)) e []).
Qed.

Lemma on_exit_timers (worker : Worker) (code : option Z) (signal : option string)
      (b : OkanjoBroker.t) (e : Env.t) :
  timers (snd (on_exit worker code signal b e)) = timers e.
Proof.
  unfold on_exit. cbn [drainOpen set_workerIds].
  destruct (negb (gracefulShutdown (app e)) && negb (drainOpen b)); [|reflexivity].
  destruct (exitedAfterDisconnect worker) as [[|]|]; rewrite spawn_once; reflexivity.
Qed.

(** A turn that is not the firing of timer [h], and not the disconnect
    event of a worker that carries [h], leaves [h] as it was. *)
Lemma step_pending (h : nat) (a : action) (s s' : state) :
  step a s = Some s' ->
  (h < next_handle (snd s))%nat ->
  a <> Fire h ->
  (forall wid w, a = Disconnected wid -> object wid (snd s) = Some w ->
                 _disconnectTimer w <> Some h) ->
  pending h (snd s') = pending h (snd s).
Proof.
  destruct s as [b e]. cbn [fst snd].
  destruct a as [wid code signal|wid|wid msg|h'|dt| | | |flag|ty']; cbn [step];
    intros H Hh NF ND.
  - destruct (object wid e) as [w|]; [|discriminate].
    destruct (dead w); [discriminate|].
    destruct (owns b w); injection H as <-; [|reflexivity].
    unfold pending. now rewrite on_exit_timers.
  - destruct (object wid e) as [w|] eqn:O; [|discriminate].
    destruct (connected w); [|discriminate].
    destruct (owns b w); injection H as <-; [|reflexivity].
    rewrite on_disconnect_pending; [reflexivity | exact Hh |].
    exact (ND wid w eq_refl O).
  - destruct (object wid e) as [w|]; [|discriminate].
    destruct (connected w && owns b w); [|discriminate].
    destruct (on_message w msg b e) as [s1|err] eqn:M; injection H as <-; [|reflexivity].
    unfold on_message in M.
    destruct (String.eqb (Js.typeof msg) "object").
    + destruct (Js.get_type msg) as [t|]; [|discriminate].
      destruct (Js.is_str "ops" t); injection M as <-; reflexivity.
    + injection M as <-. reflexivity.
  - assert (Ne : h' <> h) by congruence.
    unfold fire in H. destruct (pending h' e) as [tm|] eqn:P; [|discriminate].
    destruct (due tm <=? now e); [|discriminate]. injection H as <-.
    set (e2 := match period tm with None => _ | Some p => _ end).
    assert (E2 : next_handle e2 = next_handle e /\ pending h e2 = pending h e).
    { subst e2. destruct (period tm) as [p|].
      - split; [reflexivity|]. unfold pending, set_timers. cbn [timers].
        rewrite pending_after_arming by (cbn; exact Ne).
        apply (pending_other_cleared h' h e). congruence.
      - split; [reflexivity|]. apply pending_other_cleared. congruence. }
    destruct E2 as (H2 & P2).
    destruct (closure tm) as [w|w|t]; cbn [run_callback].
    + exact P2.
    + destruct (negb (isDead w e2)); exact P2.
    + destruct (String.eqb t (type b)); [|exact P2].
      rewrite recycle_pending by (rewrite H2; exact Hh). exact P2.
  - destruct (0 <=? dt); [|discriminate]. injection H as <-. reflexivity.
  - injection H as <-. now apply recycle_pending.
  - injection H as <-. unfold drainWorkers. now apply recycle_pending.
  - injection H as <-. unfold resumeWorkers. rewrite spawn_many. reflexivity.
  - injection H as <-. reflexivity.
  - destruct (String.eqb ty' (type b)); [discriminate|]. injection H as <-. reflexivity.
Qed.

(** A timer that is gone stays gone: its handle is not handed out again. *)
Lemma step_pending_none (h : nat) (a : action) (s s' : state) :
  step a s = Some s' ->
  (h < next_handle (snd s))%nat ->
  pending h (snd s) = None ->
  pending h (snd s') = None.
Proof.
  intros H Hh P.
  destruct a as [wid code signal|wid|wid msg|h'|dt| | | |flag|ty'];
    try (rewrite (step_pending h _ s s' H Hh); [exact P | discriminate | discriminate]).
  - destruct s as [b e]. cbn [fst snd step] in *.
    destruct (object wid e) as [w|] eqn:O; [|discriminate].
    destruct (connected w); [|discriminate].
    destruct (owns b w); injection H as <-; [|exact P].
    destruct (_disconnectTimer (mark_disconnected w)) as [h'|] eqn:C.
    + destruct (Nat.eq_dec h' h) as [->|Ne].
      * now apply on_disconnect_clears.
      * rewrite on_disconnect_pending; [exact P | exact Hh | congruence].
    + rewrite on_disconnect_pending; [exact P | exact Hh | congruence].
  - destruct (Nat.eq_dec h' h) as [->|Ne].
    + destruct s as [b e]. cbn [fst snd step] in *. unfold fire in H.
      rewrite P in H. discriminate.
    + rewrite (step_pending h _ s s' H Hh); [exact P | congruence | discriminate].
Qed.

Lemma run_pending_none (h : nat) (tr : list action) (s s' : state) :
  run tr s = Some s' ->
  (h < next_handle (snd s))%nat ->
  pending h (snd s) = None ->
  pending h (snd s') = None.
Proof.
  revert s. induction tr as [|a tr IH]; intros s H Hh P; cbn [run] in H.
  - now injection H as <-.
  - destruct (step a s) as [s1|] eqn:S; [|discriminate].
    apply (IH s1 H).
    + apply handles_step in S. lia.
    + now apply (step_pending_none h a s).
Qed.

Lemma object_found (wid : nat) (w : Worker) (e : Env.t) :
  object wid e = Some w -> In w (objects (cluster e)) /\ id w = wid.
Proof.
  unfold object. intro F. apply find_some in F as [I E].
  apply Nat.eqb_eq in E. auto.
Qed.

(** The object of an id after the objects have evolved. *)
Lemma object_evolved (n m wid : nat) (w : Worker) (l l' fresh : list Worker) :
  Forall2 (evolves n m) l l' ->
  find (fun x => Nat.eqb (id x) wid) l = Some w ->
  exists w', find (fun x => Nat.eqb (id x) wid) (l' ++ fresh) = Some w' /\ evolves n m w w'.
Proof.
  induction 1 as [|x y l l' R _ IH]; cbn [find List.app]; [discriminate|].
  destruct R as (I & C). rewrite I.
  destruct (Nat.eqb (id x) wid).
  - intro E. injection E as <-. exists y. split; [reflexivity|]. now split.
  - exact IH.
Qed.

(** Where an evolved object comes from. *)
Lemma evolved_from (n m : nat) (l l' : list Worker) (y : Worker) :
  Forall2 (evolves n m) l l' -> In y l' -> exists x, In x l /\ evolves n m x y.
Proof.
  induction 1 as [|a c l l' R _ IH]; cbn [In]; [tauto|].
  intros [<-|I]; [eauto|]. destruct (IH I) as (x & Ix & Rx). eauto.
Qed.

(** Who carries a handle that has been handed out: after a turn, the
    workers that carried it before. *)
Lemma step_carriers (Q : nat -> Prop) (h : nat) (a : action) (s s' : state) :
  step a s = Some s' ->
  NoDup (map id (objects (cluster (snd s)))) ->
  (h < next_handle (snd s))%nat ->
  Forall (fun w => _disconnectTimer w = Some h -> Q (id w)) (objects (cluster (snd s))) ->
  Forall (fun w => _disconnectTimer w = Some h -> Q (id w)) (objects (cluster (snd s'))).
Proof.
  intros S N Hh Only.
  destruct (step_objects a s s' S N) as (l' & fresh & E & Ev & Fr).
  rewrite E. apply Forall_app. split.
  - apply Forall_forall. intros y Iy Cy.
    destruct (evolved_from _ _ _ _ y Ev Iy) as (x & Ix & (I & K)).
    rewrite I. rewrite Forall_forall in Only.
    destruct K as [(T & _)|(_ & h' & Hh' & T)].
    + apply (Only x Ix). congruence.
    + rewrite T in Cy. injection Cy as ->. lia.
  - apply Forall_forall. intros y Iy Cy. rewrite Forall_forall in Fr.
    rewrite (Fr y Iy) in Cy. discriminate.
Qed.

Lemma step_handles_known (a : action) (s s' : state) :
  step a s = Some s' ->
  NoDup (map id (objects (cluster (snd s)))) ->
  handles_known (snd s) -> handles_known (snd s').
Proof.
  intros S N Hk. unfold handles_known in *.
  pose proof (handles_step a s s' S) as Hs.
  destruct (step_objects a s s' S N) as (l' & fresh & E & Ev & Fr).
  rewrite E. apply Forall_app. split.
  - apply Forall_forall. intros y Iy h Cy.
    destruct (evolved_from _ _ _ _ y Ev Iy) as (x & Ix & (I & K)).
    rewrite Forall_forall in Hk.
    destruct K as [(T & _)|(_ & h' & Hh' & T)].
    + rewrite T in Cy. specialize (Hk x Ix h Cy). lia.
    + rewrite T in Cy. injection Cy as <-. lia.
  - apply Forall_forall. intros y Iy h Cy. rewrite Forall_forall in Fr.
    rewrite (Fr y Iy) in Cy. discriminate.
Qed.

Lemma run_handles_known (tr : list action) (s s' : state) :
  run tr s = Some s' -> well_formed (snd s) ->
  handles_known (snd s) -> handles_known (snd s').
Proof.
  revert s. induction tr as [|a tr IH]; intros s H W Hk; cbn [run] in H.
  - now injection H as <-.
  - destruct (step a s) as [s1|] eqn:S; [|discriminate].
    apply (IH s1 H); [now apply (wf_step a s) |].
    apply (step_handles_known a s s1 S); [apply W | exact Hk].
Qed.

(** As long as timer [h] does not fire and no worker picked out by [Q]
    disconnects, where [Q] holds of every worker that carries [h], the
    timer stays in the queue as it is. *)
Lemma run_pending (Q : nat -> Prop) (h : nat) (tr : list action) (s s' : state) :
  run tr s = Some s' ->
  well_formed (snd s) ->
  (h < next_handle (snd s))%nat ->
  Forall (fun w => _disconnectTimer w = Some h -> Q (id w)) (objects (cluster (snd s))) ->
  Forall (fun a => a <> Fire h /\ forall wid, a = Disconnected wid -> ~ Q wid) tr ->
  pending h (snd s') = pending h (snd s).
Proof.
  revert s. induction tr as [|a tr IH]; intros s H W Hh Only A; cbn [run] in H.
  - now injection H as <-.
  - destruct (step a s) as [s1|] eqn:S; [|discriminate].
    apply Forall_cons_iff in A as ((NF & ND) & At).
    rewrite (IH s1 H); [| now apply (wf_step a s) | apply handles_step in S; lia
                       | now apply (step_carriers Q h a s s1 S (proj1 W)) | exact At].
    apply (step_pending h a s s1 S Hh NF).
    intros wid' w' E O' C'. apply object_found in O' as (I' & Id').
    rewrite Forall_forall in Only. apply (ND wid' E). rewrite <- Id'. now apply Only.
Qed.

Lemma awaits_spec (wid h : nat) (tr : list action) :
  awaits wid h tr = true ->
  Forall (fun a => a <> Fire h /\ forall wid', a = Disconnected wid' -> ~ wid' = wid) tr.
Proof.
  unfold awaits. rewrite forallb_forall, Forall_forall. intros A a I.
  specialize (A a I). split.
  - intros ->. now rewrite Nat.eqb_refl in A.
  - intros wid' -> ->. now rewrite Nat.eqb_refl in A.
Qed.

Lemma unfired_spec (h : nat) (tr : list action) :
  unfired h tr = true ->
  Forall (fun a => a <> Fire h /\ forall wid', a = Disconnected wid' -> ~ False) tr.
Proof.
  unfold unfired. rewrite forallb_forall, Forall_forall. intros A a I.
  specialize (A a I). split; [|tauto].
  intros ->. now rewrite Nat.eqb_refl in A.
Qed.

(** A bounced worker stays bounced: it keeps the handle of its deadline
    and does not come back into the registry. *)
Lemma step_bounced_under (wid h : nat) (a : action) (s s' : state) :
  step a s = Some s' -> bounced_under wid h (snd s) -> bounced_under wid h (snd s').
Proof.
  intros S (Wf & Hh & Only & w & O & C & L).
  pose proof (handles_step a s s' S) as Hs.
  split; [now apply (wf_step a s)|]. split; [lia|]. split.
  - now apply (step_carriers (fun i => i = wid) h a s s' S (proj1 Wf)).
  - destruct (step_objects a s s' S (proj1 Wf)) as (l' & fresh & E & Ev & Fr).
    destruct (object_evolved _ _ wid w _ l' fresh Ev O) as (w' & O' & (_ & K)).
    exists w'. unfold object. rewrite E. split; [exact O'|].
    destruct K as [(T & Li)|(Li & _)]; [|congruence].
    split; congruence.
Qed.

Lemma run_bounced_under (wid h : nat) (tr : list action) (s s' : state) :
  run tr s = Some s' -> bounced_under wid h (snd s) -> bounced_under wid h (snd s').
Proof.
  revert s. induction tr as [|a tr IH]; intros s H J; cbn [run] in H.
  - now injection H as <-.
  - destruct (step a s) as [s1|] eqn:S; [|discriminate].
    apply (IH s1 H). now apply (step_bounced_under wid h a s).
Qed.

Lemma bounced_only_carrier (wid h : nat) (l : list Worker) :
  Forall (fun x => forall h', _disconnectTimer x = Some h' -> (h' < h)%nat) l ->
  Forall (fun x => _disconnectTimer x = Some h -> id x = wid) (update wid (bounced h) l).
Proof.
  induction 1 as [|x l Hx Hl IH]; cbn [update]; [constructor|].
  destruct (Nat.eqb_spec (id x) wid) as [E|_].
  - constructor; [intros _; exact E|].
    apply Forall_forall. intros y Iy Cy. rewrite Forall_forall in Hl.
    specialize (Hl y Iy _ Cy). lia.
  - constructor; [|exact IH].
    intro Cx. specialize (Hx _ Cx). lia.
Qed.

Lemma bounced_handles_known (wid h : nat) (l : list Worker) :
  Forall (fun x => forall h', _disconnectTimer x = Some h' -> (h' < h)%nat) l ->
  Forall (fun x => forall h', _disconnectTimer x = Some h' -> (h' < S h)%nat)
    (update wid (bounced h) l).
Proof.
  induction 1 as [|x l Hx Hl IH]; cbn [update]; [constructor|].
  destruct (Nat.eqb (id x) wid).
  - constructor.
    + intros h' C. injection C as <-. lia.
    + apply Forall_forall. intros y Iy h' Cy. rewrite Forall_forall in Hl.
      specialize (Hl y Iy _ Cy). lia.
  - constructor; [|exact IH].
    intros h' Cx. specialize (Hx _ Cx). lia.
Qed.

(** A bounce in a well-formed environment leaves the worker bounced
    under the handle of its deadline. *)
Lemma bounce_bounced_under (k : string) (worker : Worker) (b : OkanjoBroker.t) (e : Env.t) :
  well_formed e -> handles_known e -> lookup k e = Some worker ->
  bounced_under (id worker) (next_handle e) (snd (_bounceWorker k b e))
  /\ handles_known (snd (_bounceWorker k b e)).
Proof.
  intros Wf Hk L.
  pose proof (wf_bounce k b e Wf) as Wf1.
  pose proof (wf_lookup_object _ _ _ Wf L) as O.
  rewrite (bounce_found _ _ _ _ L) in *. cbn [snd] in *.
  split; [|now apply bounced_handles_known].
  split; [exact Wf1|]. split; [cbn; lia|]. split.
  - cbn [cluster objects]. now apply bounced_only_carrier.
  - exists (bounced (next_handle e) worker). unfold object in *. cbn [cluster objects].
    split; [now apply object_updated|]. split; reflexivity.
Qed.

End BounceOverTime.

(** C3, as the code has it.  The environment is well formed: worker ids
    are distinct, and the timer handles in the queue and those stored on
    workers were handed out by the queue.  A bounce of a worker in the
    registry sends the directive, arms a deadline 2000 ms ahead, stores
    its handle on the worker and disconnects the worker.  Whatever
    happens afterwards, as long as the worker's disconnect event has not
    arrived the deadline stays in the queue: it cannot fire before the
    2000 ms have passed, and from then on its turn can be taken and kills
    the worker, whatever the worker's state.  Whenever the disconnect
    event of the worker arrives, the worker still carries the handle, so
    the observer clears the deadline, which never fires from then on, and
    arms a follow-up 1000 ms ahead.  The follow-up stays in the queue
    until it fires, cannot fire before the 1000 ms have passed, and when
    it fires it kills the worker exactly when the worker is not yet
    dead. *)
Theorem bounce_deadline_then_followup
    (k : string) (worker : Env.Worker) (b : OkanjoBroker.t) (e : Env.t) :
  Loop.well_formed e ->
  Loop.handles_known e ->
  Env.lookup k e = Some worker ->
  let wid := Env.id worker in
  let h := Env.next_handle e in
  let e1 := snd (OkanjoBroker._bounceWorker k b e) in
  let armed := Observe.deadline h (Env.now e) wid in
  Env.trace e1 = Env.trace e ++ [Env.Sent wid "suicide"; Env.Disconnect wid]
  /\ Env.pending h e1 = Some armed
  /\ Env.due armed = Env.now e + 2000
  /\ Env.object wid e1 = Some (Observe.bounced h worker)
  /\ (forall tr s2,
        Loop.run tr (b, e1) = Some s2 ->
        Loop.awaits wid h tr = true ->
        Env.pending h (snd s2) = Some armed
        /\ (Env.now (snd s2) < Env.now e + 2000 -> Loop.step (Loop.Fire h) s2 = None)
        /\ (Env.now e + 2000 <= Env.now (snd s2) ->
              exists e3, Loop.step (Loop.Fire h) s2 = Some (fst s2, e3)
                         /\ Env.trace e3 = Env.trace (snd s2) ++ [Env.Kill wid]
                         /\ Env.pending h e3 = None))
  /\ (forall tr s2,
        Loop.run tr (b, e1) = Some s2 ->
        exists w2,
          Env.object wid (snd s2) = Some w2
          /\ Env._disconnectTimer w2 = Some h
          /\ let s3 := OkanjoBroker.on_disconnect (Loop.mark_disconnected w2) (fst s2)
                         (Env.modify wid Loop.mark_disconnected (snd s2)) in
             let h' := Env.next_handle (snd s2) in
             let check := Observe.followup h' (Env.now (snd s2)) wid in
             (Loop.owns (fst s2) w2 = true -> Env.connected w2 = true ->
                Loop.step (Loop.Disconnected wid) s2 = Some s3)
             /\ Env.pending h (snd s3) = None
             /\ (forall tr' s4,
                   Loop.run tr' s3 = Some s4 -> Loop.step (Loop.Fire h) s4 = None)
             /\ Env.trace (snd s3) = Env.trace (snd s2)
             /\ Env.pending h' (snd s3) = Some check
             /\ Env.due check = Env.now (snd s2) + 1000
             /\ (forall tr' s4,
                   Loop.run tr' s3 = Some s4 ->
                   Loop.unfired h' tr' = true ->
                   Env.pending h' (snd s4) = Some check
                   /\ (Env.now (snd s4) < Env.now (snd s2) + 1000 ->
                         Loop.step (Loop.Fire h') s4 = None)
                   /\ (Env.now (snd s2) + 1000 <= Env.now (snd s4) ->
                         exists e5,
                           Loop.step (Loop.Fire h') s4 = Some (fst s4, e5)
                           /\ Env.trace e5 =
                                Env.trace (snd s4)
                                ++ (if Env.isDead wid (snd s4) then [] else [Env.Kill wid])
                           /\ Env.pending h' e5 = None))).
Proof.
  intros Wf Hk L wid h e1 armed.
  pose proof (wf_lookup_object _ _ _ Wf L) as O.
  pose proof (wf_pending_fresh _ Wf) as P.
  destruct (bounce_bounced_under k worker b e Wf Hk L) as (J1 & Hk1).
  fold wid h e1 in J1, Hk1.
  assert (E1 : e1 =
                 Env.mk (Env.app e)
                   (Env.mkCluster (Env.ids (Env.cluster e))
                      (Env.update wid (Observe.bounced h) (Env.objects (Env.cluster e))))
                   (Env.timers e ++ [armed])
                   (S h) (Env.now e) (Env.trace e ++ Observe.bounce_calls worker)).
  { unfold e1. now rewrite (bounce_found _ _ _ _ L). }
  assert (P1 : Env.pending h e1 = Some armed).
  { rewrite E1. unfold Env.pending at 1. cbn [Env.timers].
    apply (pending_fresh armed e []). exact P. }
  split; [rewrite E1; reflexivity|]. split; [exact P1|].
  split; [reflexivity|]. split.
  { rewrite E1. unfold Env.object in *. cbn [Env.cluster Env.objects].
    now apply object_updated. }
  split.
  - intros tr s2 R A.
    destruct J1 as (Wf1 & Hh1 & Only1 & _).
    assert (P2 : Env.pending h (snd s2) = Some armed).
    { rewrite <- P1.
      apply (run_pending (fun i => i = wid) h tr (b, e1) s2 R Wf1 Hh1 Only1).
      now apply awaits_spec. }
    split; [exact P2|]. destruct s2 as [b2 e2]. cbn [fst snd Loop.step] in *.
    split; intro T.
    + now apply (fire_early armed).
    + rewrite (fire_due armed) by (auto; exact T).
      eexists. split; [reflexivity|]. split; [reflexivity|].
      apply pending_cleared.
  - intros tr s2 R.
    pose proof (run_handles_known tr (b, e1) s2 R (proj1 J1) Hk1) as Hk2.
    destruct (run_bounced_under wid h tr (b, e1) s2 R J1)
      as (Wf2 & Hh2 & _ & w2 & O2 & C2 & _).
    destruct s2 as [b2 e2]. cbn [fst snd] in *.
    exists w2. split; [exact O2|]. split; [exact C2|].
    destruct (object_found _ _ _ O2) as (_ & I2).
    set (e2' := Env.modify wid Loop.mark_disconnected e2).
    set (s3 := OkanjoBroker.on_disconnect (Loop.mark_disconnected w2) b2 e2').
    set (h' := Env.next_handle e2).
    set (check := Observe.followup h' (Env.now e2) wid).
    assert (Wf2' : Loop.well_formed e2') by (now apply wf_modify).
    assert (Wf3 : Loop.well_formed (snd s3)) by (now apply wf_on_disconnect).
    assert (Ph : Env.pending h (snd s3) = None).
    { apply on_disconnect_clears; [exact Hh2 | exact C2]. }
    assert (Pc : Env.pending h' (snd s3) = Some check).
    { unfold check. rewrite <- I2.
      apply (on_disconnect_arms (Loop.mark_disconnected w2) b2 e2').
      now apply wf_pending_fresh. }
    assert (N3 : Env.next_handle (snd s3) = S h').
    { unfold s3, OkanjoBroker.on_disconnect.
      destruct (Env._disconnectTimer _); reflexivity. }
    split.
    { cbn [Loop.step]. rewrite O2. intros Ow Cn. now rewrite Cn, Ow. }
    split; [exact Ph|]. split.
    { intros tr' s4 R'.
      assert (P4 : Env.pending h (snd s4) = None).
      { apply (run_pending_none h tr' s3 s4 R'); [rewrite N3; unfold h'; lia | exact Ph]. }
      destruct s4 as [b4 e4]. now apply fire_cleared. }
    split.
    { unfold s3, OkanjoBroker.on_disconnect.
      destruct (Env._disconnectTimer _); reflexivity. }
    split; [exact Pc|]. split; [reflexivity|].
    intros tr' s4 R' U.
    assert (P4 : Env.pending h' (snd s4) = Some check).
    { rewrite <- Pc.
      apply (run_pending (fun _ => False) h' tr' s3 s4 R' Wf3).
      - rewrite N3. lia.
      - assert (Ob : Env.objects (Env.cluster (snd s3))
                     = Env.update wid Loop.mark_disconnected (Env.objects (Env.cluster e2))).
        { unfold s3, OkanjoBroker.on_disconnect.
          destruct (Env._disconnectTimer _); reflexivity. }
        rewrite Ob. unfold Loop.handles_known in Hk2. fold h' in Hk2.
        clear - Hk2. induction Hk2 as [|x l Hx Hl IH]; cbn [Env.update]; [constructor|].
        destruct (Nat.eqb (Env.id x) wid).
        + constructor.
          * intro C. cbn in C. specialize (Hx _ C). lia.
          * apply Forall_forall. intros y Iy Cy. rewrite Forall_forall in Hl.
            specialize (Hl y Iy _ Cy). lia.
        + constructor; [|exact IH]. intro C. specialize (Hx _ C). lia.
      - now apply unfired_spec. }
    split; [exact P4|]. destruct s4 as [b4 e4]. cbn [fst snd Loop.step] in *.
    split; intro T.
    + now apply (fire_early check).
    + rewrite (fire_due check) by (auto; exact T).
      cbn [Env.closure check Observe.followup Loop.run_callback].
      replace (Env.isDead wid (Env.clearTimeout _ e4)) with (Env.isDead wid e4)
        by reflexivity.
      destruct (Env.isDead wid e4); cbn [negb].
      * eexists. split; [reflexivity|]. split; [now rewrite app_nil_r|].
        apply pending_cleared.
      * eexists. split; [reflexivity|]. split; [reflexivity|].
        apply (pending_cleared h' e4).
Qed.

Lemma bounce_deadline_then_followup_witness :
  let s0 := Example.start "t" 1 boot in
  let e1 := snd (OkanjoBroker._bounceWorker "1" (fst s0) (snd s0)) in
  exists s2 e3,
    Loop.run [Loop.Advance 2000] (fst s0, e1) = Some s2
    /\ Loop.step (Loop.Fire 0) s2 = Some (fst s2, e3)
    /\ Env.trace e3 = Env.trace (snd s2) ++ [Env.Kill 1].
Proof.
  intros s0 e1.
  assert (Hk : Loop.handles_known (snd s0)).
  { repeat constructor. intros h C. discriminate C. }
  destruct (bounce_deadline_then_followup "1"
              (Env.mkWorker 1 "t" "default" None None true false true)
              (fst s0) (snd s0) (wf_started "t" 1) Hk eq_refl)
    as (_ & _ & _ & _ & Deadline & _).
  destruct (Loop.run [Loop.Advance 2000] (fst s0, e1)) as [s2|] eqn:R;
    [|vm_compute in R; discriminate].
  destruct (Deadline [Loop.Advance 2000] s2 R eq_refl) as (_ & _ & Due).
  destruct Due as (e3 & F & T & _).
  { vm_compute in R. injection R as <-. vm_compute. discriminate. }
  exists s2, e3. auto.
Defined.

(** C3 as stated fails where it says that nothing more is done to a
    worker that disconnects in time.  One worker is bounced at time 0 and
    disconnects at 500 ms, well before the 2000 ms deadline, but has not
    exited by 1500 ms: the follow-up armed by the disconnect observer
    kills it. *)
Lemma timely_disconnect_is_still_followed_up :
  exists s,
    Loop.run [Loop.Recycle; Loop.Advance 500; Loop.Disconnected 1;
              Loop.Advance 1000; Loop.Fire 1]
      (Example.start "t" 1 boot) = Some s
    /\ Env.timers (snd s) = []
    /\ Env.trace (snd s) =
         [Env.Forked 1 "t" "default"; Env.Sent 1 "suicide"; Env.Disconnect 1;
          Env.Kill 1].
Proof. eexists. split; [vm_compute; reflexivity|]. split; reflexivity. Qed.
